(** * jursonmo/route: a slot-array IPv4 routing table with longest-prefix lookup

    The repository holds two variants of the same table:
    - package [route]   (route.go): one flat array of 32 slots, a 32-bit
      occupancy word [slotMask], one lock for the word and one per slot;
    - package [routev2] (the sectioned rewrite): 4 sections of 8 slots, each
      section with its own 8-bit occupancy word and its own lock.

    Both are embedded below as state-passing programs over an outcome type
    that keeps Go's ways of not returning (run-time panic, fatal error,
    blocking on a lock) apart from a normal return.  The table is the state;
    locks are part of it, as one goroutine sees them.

    The standard-library routines the table calls ([net.ParseCIDR],
    [IPMask.Size], [binary.BigEndian.Uint32], [sync.RWMutex]) are not part
    of the repository; modules [net], [binary] and [sync] give them as
    functions that follow the library's implementation and documented
    contract.

    Layout: the Go run-time, the library modules, the two packages, the
    specification's side (masks, longest-prefix match, well-formed CIDR
    strings), invariants; then the lemmas and, last, the claims C1..C10. *)

From Stdlib Require Import ZArith Ascii String List Lia Bool.
From stdpp Require Import base option list gmap strings.

Open Scope Z_scope.

(** ** Go run-time: outcomes, a state monad, fixed-width integers *)

Inductive outcome (A : Type) : Type :=
| Done (a : A)   (* the call returns *)
| Panic          (* run-time panic (index out of range) *)
| Fatal          (* fatal error raised by the run-time (lock misuse) *)
| Blocked.       (* the goroutine waits for ever *)
Arguments Done {A} a.
Arguments Panic {A}.
Arguments Fatal {A}.
Arguments Blocked {A}.

Definition M (S A : Type) : Type := S -> outcome (A * S).

Definition ret {S A} (a : A) : M S A := fun s => Done (a, s).

Definition bind {S A B} (m : M S A) (k : A -> M S B) : M S B :=
  fun s => match m s with
           | Done (a, s') => k a s'
           | Panic => Panic
           | Fatal => Fatal
           | Blocked => Blocked
           end.

Definition get {S} : M S S := fun s => Done (s, s).
Definition lift {S A} (o : outcome A) : M S A :=
  fun s => match o with
           | Done a => Done (a, s)
           | Panic => Panic
           | Fatal => Fatal
           | Blocked => Blocked
           end.

Notation "'do' x <- m ; k" := (bind m (fun x => k))
  (at level 10, x name, m at level 100, k at level 200).
Notation "m ;; k" := (bind m (fun _ => k))
  (at level 100, k at level 200, right associativity).

(** [uint32] and [uint8] are integers in [Z] reduced after every operation. *)
Definition wrap32 (z : Z) : Z := z mod 2 ^ 32.
Definition wrap8 (z : Z) : Z := z mod 2 ^ 8.
(** [^x] on [uint32] and on [uint8]. *)
Definition not32 (z : Z) : Z := Z.lxor z 0xFFFFFFFF.
Definition not8 (z : Z) : Z := Z.lxor z 0xFF.

(** An array read [a[i]] with a Go [int] index: out of range panics. *)
Definition index {A} (a : list A) (i : Z) : outcome A :=
  if i <? 0 then Panic
  else match a !! Z.to_nat i with
       | Some x => Done x
       | None => Panic
       end.

(** [interface{}]: the nil interface or a dynamic value the table never
    inspects. *)
Inductive iface (T : Type) : Type :=
| nil_iface
| dyn (x : T).
Arguments nil_iface {T}.
Arguments dyn {T} x.

(** ** sync.RWMutex, as one goroutine sees it *)

Module sync.

Record RWMutex : Type := mkRWMutex {
  readerCount : nat;
  writerHeld : bool
}.

Definition zero : RWMutex := mkRWMutex 0 false.

Definition Lock (m : RWMutex) : outcome RWMutex :=
  if writerHeld m || negb (Nat.eqb (readerCount m) 0) then Blocked
  else Done (mkRWMutex (readerCount m) true).

(** Unlock of a mutex that is not locked for writing is a fatal error. *)
Definition Unlock (m : RWMutex) : outcome RWMutex :=
  if writerHeld m then Done (mkRWMutex (readerCount m) false)
  else Fatal.

Definition RLock (m : RWMutex) : outcome RWMutex :=
  if writerHeld m then Blocked
  else Done (mkRWMutex (S (readerCount m)) false).

Definition RUnlock (m : RWMutex) : outcome RWMutex :=
  match readerCount m with
  | O => Fatal
  | S n => Done (mkRWMutex n (writerHeld m))
  end.

End sync.

(** ** The parts of package [net] and [encoding/binary] the table calls *)

Module net.

Definition ch (c : ascii) : Z := Z.of_N (N_of_ascii c).

Fixpoint bytes (s : string) : list Z :=
  match s with
  | EmptyString => []
  | String c s' => ch c :: bytes s'
  end.

Definition IPv4len : nat := 4.
Definition IPv6len : nat := 16.
Definition big : Z := 0xFFFFFF.

Definition isdigit (c : Z) : bool := (ch "0" <=? c) && (c <=? ch "9").

(** [dtoi]: decimal to integer; returns number, characters consumed, success. *)
Fixpoint dtoi_loop (s : list Z) (n : Z) (i : nat) : Z * nat * bool :=
  match s with
  | c :: s' =>
      if isdigit c then
        let n' := n * 10 + (c - ch "0") in
        if big <=? n' then (big, i, false) else dtoi_loop s' n' (S i)
      else if Nat.eqb i 0 then (0, O, false) else (n, i, true)
  | [] => if Nat.eqb i 0 then (0, O, false) else (n, i, true)
  end.

Definition dtoi (s : list Z) : Z * nat * bool := dtoi_loop s 0 0%nat.

(** [xtoi]: hexadecimal to integer, same result shape. *)
Definition hexval (c : Z) : option Z :=
  if (ch "0" <=? c) && (c <=? ch "9") then Some (c - ch "0")
  else if (ch "a" <=? c) && (c <=? ch "f") then Some (c - ch "a" + 10)
  else if (ch "A" <=? c) && (c <=? ch "F") then Some (c - ch "A" + 10)
  else None.

Fixpoint xtoi_loop (s : list Z) (n : Z) (i : nat) : Z * nat * bool :=
  match s with
  | c :: s' =>
      match hexval c with
      | Some d =>
          let n' := n * 16 + d in
          if big <=? n' then (0, i, false) else xtoi_loop s' n' (S i)
      | None => if Nat.eqb i 0 then (0, i, false) else (n, i, true)
      end
  | [] => if Nat.eqb i 0 then (0, i, false) else (n, i, true)
  end.

Definition xtoi (s : list Z) : Z * nat * bool := xtoi_loop s 0 0%nat.

Definition v4InV6Prefix : list Z := [0; 0; 0; 0; 0; 0; 0; 0; 0; 0; 0xff; 0xff].

(** [IPv4(a, b, c, d)]: the 16-byte form of an IPv4 address. *)
Definition IPv4 (a b c d : Z) : list Z := v4InV6Prefix ++ [a; b; c; d].

(** [parseIPv4]: four decimal octets separated by dots, nothing else. *)
Fixpoint parseIPv4_loop (k : nat) (i : nat) (s : list Z) (p : list Z)
  : option (list Z * list Z) :=
  match k with
  | O => Some (s, p)
  | S k' =>
      match s with
      | [] => None
      | c0 :: s1 =>
          if negb (Nat.eqb i 0) && negb (c0 =? ch ".") then None
          else
            let s := if Nat.eqb i 0 then s else s1 in
            let '(n, c, ok) := dtoi s in
            if negb ok || (0xFF <? n) then None
            else if (1 <? c)%nat && (default 0 (s !! 0%nat) =? ch "0") then None
            else parseIPv4_loop k' (S i) (drop c s) (p ++ [n])
      end
  end.

Definition parseIPv4 (s : list Z) : option (list Z) :=
  match parseIPv4_loop IPv4len 0 s [] with
  | Some ([], [a; b; c; d]) => Some (IPv4 a b c d)
  | _ => None
  end.

(** [ellipsis >= 0]. *)
Definition seen (ellipsis : option nat) : bool :=
  match ellipsis with Some _ => true | None => false end.

(** [parseIPv6]: hexadecimal groups, at most one [::], an optional dotted
    IPv4 tail.  [ellipsis] is [None] where Go holds -1. *)
Fixpoint parseIPv6_loop (fuel : nat) (s : list Z) (i : nat)
    (ellipsis : option nat) (ip : list Z)
  : option (list Z * nat * option nat * list Z) :=
  match fuel with
  | O => Some (s, i, ellipsis, ip)
  | S fuel' =>
      if negb (i <? IPv6len)%nat then Some (s, i, ellipsis, ip)
      else
        let '(n, c, ok) := xtoi s in
        if negb ok || (0xFFFF <? n) then None
        else if (c <? length s)%nat && (default 0 (s !! c) =? ch ".") then
          if negb (seen ellipsis) && negb (Nat.eqb i (IPv6len - IPv4len)) then None
          else if (IPv6len <? i + IPv4len)%nat then None
          else match parseIPv4 s with
               | None => None
               | Some ip4 =>
                   let ip := <[i:=default 0 (ip4 !! 12%nat)]> ip in
                   let ip := <[(i+1)%nat:=default 0 (ip4 !! 13%nat)]> ip in
                   let ip := <[(i+2)%nat:=default 0 (ip4 !! 14%nat)]> ip in
                   let ip := <[(i+3)%nat:=default 0 (ip4 !! 15%nat)]> ip in
                   Some ([], (i + IPv4len)%nat, ellipsis, ip)
               end
        else
          let ip := <[i:=wrap8 (Z.shiftr n 8)]> ip in
          let ip := <[(i+1)%nat:=wrap8 n]> ip in
          let i := (i + 2)%nat in
          let s := drop c s in
          match s with
          | [] => Some (s, i, ellipsis, ip)
          | c0 :: s1 =>
              if negb (c0 =? ch ":") || Nat.eqb (length s) 1 then None
              else match s1 with
                   | c1 :: s2 =>
                       if c1 =? ch ":" then
                         if seen ellipsis then None
                         else match s2 with
                              | [] => Some (s2, i, Some i, ip)
                              | _ => parseIPv6_loop fuel' s2 i (Some i) ip
                              end
                       else parseIPv6_loop fuel' s1 i ellipsis ip
                   | [] => None
                   end
          end
  end.

(** The two copy loops that expand the ellipsis, [j] running downwards. *)
Definition expand_ellipsis (ip : list Z) (i e : nat) : list Z :=
  let n := (IPv6len - i)%nat in
  let ip := fold_left (fun ip j => <[(j + n)%nat:=default 0 (ip !! j)]> ip)
                      (rev (seq e (i - e))) ip in
  fold_left (fun ip j => <[j:=0]> ip) (rev (seq e n)) ip.

Definition parseIPv6 (s : list Z) : option (list Z) :=
  let ip0 := replicate IPv6len 0 in
  let start :=
    match s with
    | c0 :: c1 :: s2 =>
        if (c0 =? ch ":") && (c1 =? ch ":") then (Some 0%nat, s2) else (None, s)
    | _ => (None, s)
    end in
  let '(ellipsis, s) := start in
  if seen ellipsis && Nat.eqb (length s) 0 then Some ip0
  else
    match parseIPv6_loop 8 s 0 ellipsis ip0 with
    | None => None
    | Some (s, i, ellipsis, ip) =>
        if negb (Nat.eqb (length s) 0) then None
        else if (i <? IPv6len)%nat then
          match ellipsis with
          | None => None
          | Some e => Some (expand_ellipsis ip i e)
          end
        else if seen ellipsis then None
        else Some ip
    end.

Definition allFF (b : list Z) : bool := forallb (Z.eqb 0xff) b.

(** [CIDRMask(ones, bits)]; [None] is the nil mask. *)
Fixpoint CIDRMask_loop (l : nat) (n : Z) : list Z :=
  match l with
  | O => []
  | S l' =>
      if 8 <=? n then 0xff :: CIDRMask_loop l' (n - 8)
      else not8 (Z.shiftr 0xff n) :: CIDRMask_loop l' 0
  end.

Definition CIDRMask (ones bits : Z) : option (list Z) :=
  if negb (bits =? 8 * Z.of_nat IPv4len) && negb (bits =? 8 * Z.of_nat IPv6len) then None
  else if (ones <? 0) || (bits <? ones) then None
  else Some (CIDRMask_loop (Z.to_nat (bits / 8)) ones).

(** [IP.Mask(mask)]; [None] is the nil IP. *)
Definition IP_Mask (ip mask : list Z) : option (list Z) :=
  let mask :=
    if Nat.eqb (length mask) IPv6len && Nat.eqb (length ip) IPv4len
       && allFF (take 12 mask)
    then drop 12 mask else mask in
  let ip :=
    if Nat.eqb (length mask) IPv4len && Nat.eqb (length ip) IPv6len
       && bool_decide (take 12 ip = v4InV6Prefix)
    then drop 12 ip else ip in
  if negb (Nat.eqb (length ip) (length mask)) then None
  else Some (zip_with Z.land ip mask).

Record IPNet : Type := mkIPNet { IP : list Z; Mask : list Z }.

(** [simpleMaskLength]: the number of leading ones of a canonical mask,
    -1 for any other mask. *)
Fixpoint count_ones (fuel : nat) (v : Z) (n : Z) : Z * Z :=
  match fuel with
  | O => (v, n)
  | S fuel' =>
      if negb (Z.land v 0x80 =? 0) then count_ones fuel' (wrap8 (Z.shiftl v 1)) (n + 1)
      else (v, n)
  end.

Fixpoint simpleMaskLength_loop (mask : list Z) (n : Z) : Z :=
  match mask with
  | [] => n
  | v :: rest =>
      if v =? 0xff then simpleMaskLength_loop rest (n + 8)
      else
        let '(v', n') := count_ones 8 v n in
        if negb (v' =? 0) then -1
        else if forallb (Z.eqb 0) rest then n' else -1
  end.

Definition simpleMaskLength (mask : list Z) : Z := simpleMaskLength_loop mask 0.

(** [IPMask.Size()]. *)
Definition Size (m : list Z) : Z * Z :=
  let ones := simpleMaskLength m in
  if ones =? -1 then (0, 0) else (ones, Z.of_nat (length m) * 8).

Fixpoint split_at_slash (s : list Z) : option (list Z * list Z) :=
  match s with
  | [] => None
  | c :: s' =>
      if c =? ch "/" then Some ([], s')
      else match split_at_slash s' with
           | Some (a, m) => Some (c :: a, m)
           | None => None
           end
  end.

(** [ParseCIDR]: [None] is the [*ParseError] return. *)
Definition ParseCIDR (s : string) : option IPNet :=
  match split_at_slash (bytes s) with
  | None => None
  | Some (addr, mask) =>
      let '(iplen, ip) :=
        match parseIPv4 addr with
        | Some ip => (IPv4len, Some ip)
        | None => (IPv6len, parseIPv6 addr)
        end in
      let '(n, i, ok) := dtoi mask in
      match ip with
      | None => None
      | Some ip =>
          if negb ok || negb (Nat.eqb i (length mask)) || (n <? 0)
             || (8 * Z.of_nat iplen <? n) then None
          else
            match CIDRMask n (8 * Z.of_nat iplen) with
            | None => None
            | Some m =>
                match IP_Mask ip m with
                | Some ipm => Some (mkIPNet ipm m)
                | None => None
                end
            end
      end
  end.

End net.

Module binary.

(** [binary.BigEndian.Uint32(b)]: reads four bytes, panics on a shorter slice. *)
Definition BigEndian_Uint32 (b : list Z) : outcome Z :=
  match b with
  | b0 :: b1 :: b2 :: b3 :: _ =>
      Done (Z.lor (Z.lor (Z.lor b3 (Z.shiftl b2 8)) (Z.shiftl b1 16)) (Z.shiftl b0 24))
  | _ => Panic
  end.

End binary.

(** Go's [error]: nil, or the [*net.ParseError] of a rejected CIDR string. *)
Inductive error : Type :=
| nil_error
| ParseError (text : string).

(** ** Package [route]: the flat table (route.go) *)

Module route.

Definition maskMaxLen : Z := 32.
Definition first : Z := 4.
Definition second : Z := 8.

Section Table.
Variable T : Type.

Record rtEntry : Type := mkEntry {
  e_mu : sync.RWMutex;           (* the embedded sync.RWMutex *)
  mask : Z;                      (* uint32 *)
  rtHash : gmap Z (iface T)
}.

Record routeTable : Type := mkTable {
  mu : sync.RWMutex;             (* the embedded sync.RWMutex *)
  slotMask : Z;                  (* uint32 *)
  rts : list rtEntry             (* [maskMaxLen]rtEntry *)
}.

(** [(1 << (maskMaxLen - uint32(i))) - 1] in [uint32]. *)
Definition slot_mask (i : Z) : Z :=
  wrap32 (wrap32 (Z.shiftl 1 (wrap32 (maskMaxLen - wrap32 i))) - 1).

Definition NewRouteTable : routeTable :=
  mkTable sync.zero 0
    ((fun i => mkEntry sync.zero (slot_mask (Z.of_nat i)) ∅)
       <$> seq 0 (Z.to_nat maskMaxLen)).

(** [rt.rts[slot]], read and written through the receiver pointer. *)
Definition entry (slot : Z) : M routeTable rtEntry :=
  fun rt => lift (index (rts rt) slot) rt.

Definition set_entry (slot : Z) (e : rtEntry) : M routeTable unit :=
  fun rt => Done (tt, mkTable (mu rt) (slotMask rt) (<[Z.to_nat slot:=e]> (rts rt))).

(** [rt.rts[slot].Lock()] and its three siblings. *)
Definition entry_mu (f : sync.RWMutex -> outcome sync.RWMutex) (slot : Z)
  : M routeTable unit :=
  do e <- entry slot;
  do m <- lift (f (e_mu e));
  set_entry slot (mkEntry m (mask e) (rtHash e)).

(** [rt.Lock()] and its three siblings. *)
Definition table_mu (f : sync.RWMutex -> outcome sync.RWMutex)
  : M routeTable unit :=
  fun rt => match f (mu rt) with
            | Done m => Done (tt, mkTable m (slotMask rt) (rts rt))
            | Panic => Panic
            | Fatal => Fatal
            | Blocked => Blocked
            end.

Definition set_slotMask (w : Z) : M routeTable unit :=
  fun rt => Done (tt, mkTable (mu rt) w (rts rt)).

Definition AddRoute (network : string) (v : iface T) : M routeTable error :=
  match net.ParseCIDR network with
  | None => ret (ParseError network)
  | Some ipnet =>
      let maskLen := (net.Size (net.Mask ipnet)).1 in
      let slot := maskMaxLen - maskLen in
      do key <- lift (binary.BigEndian_Uint32 (net.IP ipnet));
      entry_mu sync.Lock slot;;
      do e <- entry slot;
      let n := size (rtHash e) in
      set_entry slot (mkEntry (e_mu e) (mask e) (<[key:=v]> (rtHash e)));;
      entry_mu sync.Unlock slot;;
      if (0 <? n)%nat then ret nil_error
      else
        table_mu sync.Lock;;
        do e <- entry slot;
        do rt <- get;
        (if (0 <? size (rtHash e))%nat
         then set_slotMask (Z.lor (slotMask rt) (wrap32 (Z.shiftl 1 (wrap32 slot))))
         else ret tt);;
        table_mu sync.Unlock;;
        ret nil_error
  end.

Definition DelRoute (network : string) : M routeTable error :=
  match net.ParseCIDR network with
  | None => ret (ParseError network)
  | Some ipnet =>
      let maskLen := (net.Size (net.Mask ipnet)).1 in
      let slot := maskMaxLen - maskLen in
      do key <- lift (binary.BigEndian_Uint32 (net.IP ipnet));
      entry_mu sync.Lock slot;;
      do e <- entry slot;
      set_entry slot (mkEntry (e_mu e) (mask e) (delete key (rtHash e)));;
      entry_mu sync.Unlock slot;;
      table_mu sync.Lock;;
      do e <- entry slot;
      do rt <- get;
      (if Nat.eqb (size (rtHash e)) 0
       then set_slotMask (Z.land (slotMask rt) (not32 (wrap32 (Z.shiftl 1 (wrap32 slot)))))
       else ret tt);;
      table_mu sync.Unlock;;
      ret nil_error
  end.

(** The body of [for i := 0; i < maskMaxLen; i++], [n] iterations left. *)
Fixpoint lookup_loop (n : nat) (i : Z) (rtMask : Z) (ip : Z)
  : M routeTable (iface T) :=
  match n with
  | O => ret nil_iface
  | S n' =>
      if rtMask =? 0 then ret nil_iface
      else if negb (Z.land rtMask 1 =? 0) then
        do e <- entry i;
        let key := Z.land ip (mask e) in
        entry_mu sync.RLock i;;
        do e <- entry i;
        match rtHash e !! key with
        | Some v => entry_mu sync.RUnlock i;; ret v
        | None =>
            entry_mu sync.RUnlock i;;
            lookup_loop n' (i + 1) (Z.shiftr rtMask 1) ip
        end
      else lookup_loop n' (i + 1) (Z.shiftr rtMask 1) ip
  end.

Definition RouteLookup (ip : Z) : M routeTable (iface T) :=
  table_mu sync.RLock;;
  do rt <- get;
  let rtMask := slotMask rt in
  table_mu sync.RUnlock;;
  lookup_loop (Z.to_nat maskMaxLen) 0 rtMask ip.

End Table.

Arguments mkEntry {T}.
Arguments e_mu {T}.
Arguments mask {T}.
Arguments rtHash {T}.
Arguments mkTable {T}.
Arguments mu {T}.
Arguments slotMask {T}.
Arguments rts {T}.
Arguments NewRouteTable {T}.
Arguments AddRoute {T}.
Arguments DelRoute {T}.
Arguments RouteLookup {T}.
Arguments lookup_loop {T}.
Arguments entry {T}.
Arguments set_entry {T}.
Arguments entry_mu {T}.
Arguments table_mu {T}.
Arguments set_slotMask {T}.

End route.

(** ** Package [routev2]: the sectioned table *)

Module routev2.

Definition maskMaxLen : Z := 32.
Definition IpSection : Z := 4.
Definition SectionSize : Z := 8.

Section Table.
Variable T : Type.

Record rtEntry : Type := mkEntry {
  mask : Z;                      (* uint32 *)
  rtHash : gmap Z (iface T)
}.

Record rtSection : Type := mkSection {
  mu : sync.RWMutex;             (* the embedded sync.RWMutex *)
  slotMask : Z;                  (* uint8, SectionSize bits *)
  rtSec : list rtEntry           (* [SectionSize]rtEntry *)
}.

Record routeTable : Type := mkTable {
  rts : list rtSection           (* [IpSection]rtSection *)
}.

(** [idx = i*SectionSize + j]. *)
Definition idx_of (i j : Z) : Z := i * SectionSize + j.

(** [(1 << (maskMaxLen - uint32(idx))) - 1] in [uint32]. *)
Definition slot_mask (idx : Z) : Z :=
  wrap32 (wrap32 (Z.shiftl 1 (wrap32 (maskMaxLen - wrap32 idx))) - 1).

Definition NewRouteTable : routeTable :=
  mkTable
    ((fun i =>
        mkSection sync.zero 0
          ((fun j => mkEntry (slot_mask (idx_of (Z.of_nat i) (Z.of_nat j))) ∅)
             <$> seq 0 (Z.to_nat SectionSize)))
       <$> seq 0 (Z.to_nat IpSection)).

(** [ipID := slot / IpSection] and [secID := slot & (SectionSize - 1)]. *)
Definition ipID_of (slot : Z) : Z := Z.quot slot IpSection.
Definition secID_of (slot : Z) : Z := Z.land slot (SectionSize - 1).

(** [&rt.rts[ipID]], read and written through the pointer. *)
Definition section (ipID : Z) : M routeTable rtSection :=
  fun rt => lift (index (rts rt) ipID) rt.

Definition set_section (ipID : Z) (sec : rtSection) : M routeTable unit :=
  fun rt => Done (tt, mkTable (<[Z.to_nat ipID:=sec]> (rts rt))).

(** [&sec.rtSec[secID]]. *)
Definition slot_entry (ipID secID : Z) : M routeTable rtEntry :=
  do sec <- section ipID;
  lift (index (rtSec sec) secID).

Definition set_slot_entry (ipID secID : Z) (e : rtEntry) : M routeTable unit :=
  do sec <- section ipID;
  set_section ipID (mkSection (mu sec) (slotMask sec) (<[Z.to_nat secID:=e]> (rtSec sec))).

(** [sec.Lock()] and its three siblings. *)
Definition section_mu (f : sync.RWMutex -> outcome sync.RWMutex) (ipID : Z)
  : M routeTable unit :=
  do sec <- section ipID;
  do m <- lift (f (mu sec));
  set_section ipID (mkSection m (slotMask sec) (rtSec sec)).

Definition set_slotMask (ipID : Z) (w : Z) : M routeTable unit :=
  do sec <- section ipID;
  set_section ipID (mkSection (mu sec) w (rtSec sec)).

Definition AddRoute (network : string) (v : iface T) : M routeTable error :=
  match net.ParseCIDR network with
  | None => ret (ParseError network)
  | Some ipnet =>
      let maskLen := (net.Size (net.Mask ipnet)).1 in
      let slot := maskMaxLen - maskLen in
      do key <- lift (binary.BigEndian_Uint32 (net.IP ipnet));
      let ipID := ipID_of slot in
      let secID := secID_of slot in
      do _sec <- section ipID;
      do rte <- slot_entry ipID secID;
      section_mu sync.Lock ipID;;
      set_slot_entry ipID secID (mkEntry (mask rte) (<[key:=v]> (rtHash rte)));;
      do sec <- section ipID;
      set_slotMask ipID (Z.lor (slotMask sec) (wrap8 (Z.shiftl 1 (wrap8 secID))));;
      section_mu sync.Unlock ipID;;
      ret nil_error
  end.

Definition DelRoute (network : string) : M routeTable error :=
  match net.ParseCIDR network with
  | None => ret (ParseError network)
  | Some ipnet =>
      let maskLen := (net.Size (net.Mask ipnet)).1 in
      let slot := maskMaxLen - maskLen in
      do key <- lift (binary.BigEndian_Uint32 (net.IP ipnet));
      let ipID := ipID_of slot in
      let secID := secID_of slot in
      do _sec <- section ipID;
      do rte <- slot_entry ipID secID;
      section_mu sync.Lock ipID;;
      set_slot_entry ipID secID (mkEntry (mask rte) (delete key (rtHash rte)));;
      do rte <- slot_entry ipID secID;
      do sec <- section ipID;
      (if Nat.eqb (size (rtHash rte)) 0
       then set_slotMask ipID (Z.land (slotMask sec) (not8 (wrap8 (Z.shiftl 1 (wrap8 secID)))))
       else ret tt);;
      section_mu sync.Unlock ipID;;
      ret nil_error
  end.

(** The body of [for j := 0; j < SectionSize; j++]; [None] is the fall
    through to the next section, [Some v] is [return v]. *)
Fixpoint slot_loop (n : nat) (i j : Z) (bitMask : Z) (ip : Z)
  : M routeTable (option (iface T)) :=
  match n with
  | O => ret None
  | S n' =>
      if bitMask =? 0 then ret None
      else if negb (Z.land bitMask 1 =? 0) then
        do rte <- slot_entry i j;
        let key := Z.land (mask rte) ip in
        match rtHash rte !! key with
        | Some v => ret (Some v)
        | None => slot_loop n' i (j + 1) (Z.shiftr bitMask 1) ip
        end
      else slot_loop n' i (j + 1) (Z.shiftr bitMask 1) ip
  end.

(** The body of [for i := 0; i < IpSection; i++]: the section's lock is
    taken with [RLock] and given back with [Unlock]. *)
Fixpoint section_loop (n : nat) (i : Z) (ip : Z) : M routeTable (iface T) :=
  match n with
  | O => ret nil_iface
  | S n' =>
      section_mu sync.RLock i;;
      do sec <- section i;
      let bitMask := slotMask sec in
      section_mu sync.Unlock i;;
      do r <- slot_loop (Z.to_nat SectionSize) i 0 bitMask ip;
      match r with
      | Some v => ret v
      | None => section_loop n' (i + 1) ip
      end
  end.

Definition RouteLookup (ip : Z) : M routeTable (iface T) :=
  section_loop (Z.to_nat IpSection) 0 ip.

End Table.

Arguments mkEntry {T}.
Arguments mask {T}.
Arguments rtHash {T}.
Arguments mkSection {T}.
Arguments mu {T}.
Arguments slotMask {T}.
Arguments rtSec {T}.
Arguments mkTable {T}.
Arguments rts {T}.
Arguments NewRouteTable {T}.
Arguments AddRoute {T}.
Arguments DelRoute {T}.
Arguments RouteLookup {T}.
Arguments section_loop {T}.
Arguments slot_loop {T}.
Arguments section {T}.
Arguments set_section {T}.
Arguments slot_entry {T}.
Arguments set_slot_entry {T}.
Arguments section_mu {T}.
Arguments set_slotMask {T}.

End routev2.

(** ** Reading outcomes *)

Definition value {A S : Type} (o : outcome (A * S)) : outcome A :=
  match o with
  | Done (a, _) => Done a
  | Panic => Panic
  | Fatal => Fatal
  | Blocked => Blocked
  end.

Definition state {A S : Type} (o : outcome (A * S)) : option S :=
  match o with
  | Done (_, s) => Some s
  | _ => None
  end.

(** ** The specification's side: masks and longest-prefix match *)

(** The mask of prefix length [L] in the specification's words: the top [L]
    bits set. *)
Definition spec_mask (L : Z) : Z :=
  if L =? 0 then 0 else wrap32 (Z.shiftl 0xFFFFFFFF (32 - L)).

Record spec_prefix (T : Type) : Type := mkPrefix {
  p_network : Z;
  p_length : Z;
  p_value : iface T
}.
Arguments mkPrefix {T}.
Arguments p_network {T}.
Arguments p_length {T}.
Arguments p_value {T}.

Definition spec_matches {T} (A : Z) (p : spec_prefix T) : bool :=
  Z.land A (spec_mask (p_length p)) =? p_network p.

(** The matching prefix of greatest length, if any. *)
Fixpoint spec_best {T} (ps : list (spec_prefix T)) (A : Z) : option (spec_prefix T) :=
  match ps with
  | [] => None
  | p :: ps' =>
      match spec_best ps' A with
      | Some q =>
          if spec_matches A p && (p_length q <? p_length p) then Some p else Some q
      | None => if spec_matches A p then Some p else None
      end
  end.

Definition spec_Lookup {T} (ps : list (spec_prefix T)) (A : Z) : option (iface T) :=
  p_value <$> spec_best ps A.

(** ** Worked runs *)

Definition ip_10_0_0_5 : Z := 0x0A000005.
Definition net_10_0_0_0 : Z := 0x0A000000.

(** Add 10.0.0.0/24 -> V1, add 10.0.0.0/16 -> V2, look 10.0.0.5 up. *)
Definition exact_match_run {T} (V1 V2 : iface T) (ip : Z)
  : M (route.routeTable T) (iface T) :=
  route.AddRoute "10.0.0.0/24" V1;;
  route.AddRoute "10.0.0.0/16" V2;;
  route.RouteLookup ip.

(** The same, then delete 10.0.0.0/24 and look 10.0.0.5 up again. *)
Definition exact_match_run_after_delete {T} (V1 V2 : iface T) (ip : Z)
  : M (route.routeTable T) (iface T) :=
  route.AddRoute "10.0.0.0/24" V1;;
  route.AddRoute "10.0.0.0/16" V2;;
  route.DelRoute "10.0.0.0/24";;
  route.RouteLookup ip.

Definition exact_match_run_v2 {T} (V1 V2 : iface T)
  : M (routev2.routeTable T) error :=
  routev2.AddRoute "10.0.0.0/24" V1;;
  routev2.AddRoute "10.0.0.0/16" V2.

(** What a position of the sectioned table holds. *)
Definition stored_at_v2 {T} (rt : routev2.routeTable T) (i j : nat) (key : Z)
  : option (iface T) :=
  sec ← routev2.rts rt !! i; e ← routev2.rtSec sec !! j; routev2.rtHash e !! key.

Definition mask_at_v2 {T} (rt : routev2.routeTable T) (i j : nat) : option Z :=
  sec ← routev2.rts rt !! i; e ← routev2.rtSec sec !! j; Some (routev2.mask e).

(** ** Call sequences *)

Inductive op (T : Type) : Type :=
| Add (network : string) (v : iface T)
| Del (network : string).
Arguments Add {T}.
Arguments Del {T}.

Definition step {T} (o : op T) : M (route.routeTable T) error :=
  match o with
  | Add network v => route.AddRoute network v
  | Del network => route.DelRoute network
  end.

(** The calls of [ops] one after the other; the errors they return are
    collected, a call that does not return ends the run. *)
Fixpoint run {T} (ops : list (op T)) : M (route.routeTable T) (list error) :=
  match ops with
  | [] => ret []
  | o :: ops' => do e <- step o; do es <- run ops'; ret (e :: es)
  end.

Definition step_v2 {T} (o : op T) : M (routev2.routeTable T) error :=
  match o with
  | Add network v => routev2.AddRoute network v
  | Del network => routev2.DelRoute network
  end.

Fixpoint run_v2 {T} (ops : list (op T)) : M (routev2.routeTable T) (list error) :=
  match ops with
  | [] => ret []
  | o :: ops' => do e <- step_v2 o; do es <- run_v2 ops'; ret (e :: es)
  end.

(** ** Table invariants *)

(** No lock is held between calls. *)
Definition idle {T} (rt : route.routeTable T) : Prop :=
  route.mu rt = sync.zero
  /\ forall i e, route.rts rt !! i = Some e -> route.e_mu e = sync.zero.

(** Bit [i] of [slotMask] is set iff slot [i] holds a route. *)
Definition occupancy {T} (rt : route.routeTable T) : Prop :=
  forall (i : nat) e, route.rts rt !! i = Some e ->
    (Z.testbit (route.slotMask rt) (Z.of_nat i) = true <-> route.rtHash e <> ∅).

Definition well_formed {T} (rt : route.routeTable T) : Prop :=
  length (route.rts rt) = 32%nat
  /\ idle rt
  /\ 0 <= route.slotMask rt < 2 ^ 32
  /\ occupancy rt.

Definition idle_v2 {T} (rt : routev2.routeTable T) : Prop :=
  forall i sec, routev2.rts rt !! i = Some sec -> routev2.mu sec = sync.zero.

(** Bit [j] of section [i]'s [slotMask] is set iff its slot [j] holds a route. *)
Definition occupancy_v2 {T} (rt : routev2.routeTable T) : Prop :=
  forall (i j : nat) sec e,
    routev2.rts rt !! i = Some sec -> routev2.rtSec sec !! j = Some e ->
    (Z.testbit (routev2.slotMask sec) (Z.of_nat j) = true <-> routev2.rtHash e <> ∅).

Definition well_formed_v2 {T} (rt : routev2.routeTable T) : Prop :=
  length (routev2.rts rt) = 4%nat
  /\ (forall i sec, routev2.rts rt !! i = Some sec ->
        length (routev2.rtSec sec) = 8%nat /\ 0 <= routev2.slotMask sec < 2 ^ 8)
  /\ idle_v2 rt
  /\ occupancy_v2 rt.

(** ** What the flat lookup scans *)

(** The answer of slot [j] for [ip]: its occupancy bit must be set and the
    address masked with the slot's own mask must be a key of its map. *)
Definition probe {T} (rt : route.routeTable T) (ip : Z) (j : nat)
  : option (iface T) :=
  e ← route.rts rt !! j;
  if Z.testbit (route.slotMask rt) (Z.of_nat j)
  then route.rtHash e !! Z.land ip (route.mask e)
  else None.

(** The first slot that answers, scanning [n] slots upwards from slot [i]. *)
Fixpoint first_match_from {T} (rt : route.routeTable T) (ip : Z) (n i : nat)
  : option (iface T) :=
  match n with
  | O => None
  | S n' =>
      match probe rt ip i with
      | Some v => Some v
      | None => first_match_from rt ip n' (S i)
      end
  end.

Definition first_match {T} (rt : route.routeTable T) (ip : Z) : option (iface T) :=
  first_match_from rt ip 32 0.

(** ** Well-formed IPv4 CIDR strings, in the specification's words *)

Definition digit (d : Z) : ascii := ascii_of_N (Z.to_N (48 + d)).

(** Decimal notation of a number below 1000, no leading zero. *)
Definition dec (n : Z) : string :=
  if n <? 10 then String (digit n) EmptyString
  else if n <? 100 then String (digit (n / 10)) (String (digit (n mod 10)) EmptyString)
  else String (digit (n / 100))
         (String (digit (n / 10 mod 10)) (String (digit (n mod 10)) EmptyString)).

(** [A.B.C.D/N]. *)
Definition cidr4 (a b c d n : Z) : string :=
  (dec a +:+ "." +:+ dec b +:+ "." +:+ dec c +:+ "." +:+ dec d +:+ "/" +:+ dec n)%string.

Definition octet (a : Z) : Prop := 0 <= a <= 255.

(** [A.B.C.D/N] with every octet in [0,255] and [0 <= N <= 32]. *)
Definition spec_valid_ipv4_cidr (s : string) : Prop :=
  exists a b c d n,
    octet a /\ octet b /\ octet c /\ octet d /\ 0 <= n <= 32 /\ s = cidr4 a b c d n.

(** What [ParseCIDR] returns for [A.B.C.D/N]. *)
Definition ipnet4 (a b c d n : Z) : net.IPNet :=
  let m := net.CIDRMask_loop 4 n in
  net.mkIPNet (zip_with Z.land [a; b; c; d] m) m.

(** The scan of [dtoi] stops at the end of the string and at any character
    that is not a digit. *)
Definition stops (rest : list Z) : bool :=
  match rest with
  | [] => true
  | c :: _ => negb (net.isdigit c)
  end.

(** What an exhaustive run over 0..255 establishes about [dec]: digits only,
    read back by [dtoi], not empty, no leading zero, no slash. *)
Definition dec_check (n : Z) : bool :=
  let l := net.bytes (dec n) in
  forallb net.isdigit l
  && bool_decide (net.dtoi l = (n, length l, true))
  && (0 <? length l)%nat
  && negb ((1 <? length l)%nat && (default 0 (l !! 0%nat) =? net.ch "0"))
  && forallb (fun c => negb (c =? net.ch "/")) l.

(** ** Reading runs *)

(** The table a run leaves behind (the fresh table if the run does not return). *)
Definition table_after {T} (ops : list (op T)) : route.routeTable T :=
  default route.NewRouteTable (state (run ops route.NewRouteTable)).

Definition table_after_v2 {T} (ops : list (op T)) : routev2.routeTable T :=
  default routev2.NewRouteTable (state (run_v2 ops routev2.NewRouteTable)).

(** The call returned a non-nil error. *)
Definition returns_error {S} (o : outcome (error * S)) : Prop :=
  match o with
  | Done (ParseError _, _) => True
  | _ => False
  end.

(** Two short call sequences, one per variant, in which every call returns nil. *)
Definition sample_calls : list (op string) :=
  [Add "10.0.0.0/24" (dyn "V1"%string); Add "10.1.0.0/16" (dyn "V2"%string);
   Del "10.0.0.0/24"; Add "192.168.1.1/32" nil_iface].

Definition sample_calls_v2 : list (op string) :=
  [Add "10.0.0.0/24" (dyn "V1"%string); Add "10.0.0.77/32" (dyn "V2"%string);
   Del "10.0.0.0/24"].

(** A route with the nil value under 10.0.0.0/24, and the value [V] under
    0.0.0.0/8, a prefix that does not contain 10.0.0.0. *)
Definition nil_route_calls {T} (V : T) : list (op T) :=
  [Add "10.0.0.0/24" nil_iface; Add "0.0.0.0/8" (dyn V)].

Definition nil_route_prefixes {T} (V : T) : list (spec_prefix T) :=
  [mkPrefix net_10_0_0_0 24 nil_iface; mkPrefix 0 8 (dyn V)].

(** The value [binary.BigEndian.Uint32] reads from the bytes [a; b; c; d]. *)
Definition be32 (a b c d : Z) : Z :=
  Z.lor (Z.lor (Z.lor d (Z.shiftl c 8)) (Z.shiftl b 16)) (Z.shiftl a 24).

(** What an exhaustive run over 0..32 establishes about [CIDRMask]: four
    bytes that read as the mask with the top [n] bits set. *)
Definition mask_check (n : Z) : bool :=
  match net.CIDRMask_loop 4 n with
  | [m0; m1; m2; m3] =>
      forallb (fun m => (0 <=? m) && (m <? 256)) [m0; m1; m2; m3]
      && (be32 m0 m1 m2 m3 =? spec_mask n)
  | _ => false
  end.


(** ** Further invariants and readings of a table *)

(** Every slot of the flat table still holds the mask [NewRouteTable] gave it. *)
Definition masks_kept {T} (rt : route.routeTable T) : Prop :=
  forall (i : nat) e, route.rts rt !! i = Some e ->
    route.mask e = route.slot_mask (Z.of_nat i).

(** The same for the sectioned table: position [(i, j)] holds the mask of
    [idx = i*SectionSize + j]. *)
Definition masks_kept_v2 {T} (rt : routev2.routeTable T) : Prop :=
  forall (i j : nat) sec e,
    routev2.rts rt !! i = Some sec -> routev2.rtSec sec !! j = Some e ->
    routev2.mask e = routev2.slot_mask (routev2.idx_of (Z.of_nat i) (Z.of_nat j)).

(** The key under which [A.B.C.D/N] is stored: the address with its host
    bits cleared. *)
Definition network_key (a b c d n : Z) : Z := Z.land (be32 a b c d) (spec_mask n).

(** The value the flat table holds for [A.B.C.D/N]: the entry under its key
    in slot [maskMaxLen - N]. *)
Definition registered {T} (rt : route.routeTable T) (a b c d n : Z)
  : option (iface T) :=
  e ← route.rts rt !! Z.to_nat (route.maskMaxLen - n);
  route.rtHash e !! network_key a b c d n.

(** The value the sectioned table holds for [A.B.C.D/N]: the entry under its
    key at the position [AddRoute] and [DelRoute] compute from [N]. *)
Definition registered_v2 {T} (rt : routev2.routeTable T) (a b c d n : Z)
  : option (iface T) :=
  stored_at_v2 rt
    (Z.to_nat (routev2.ipID_of (routev2.maskMaxLen - n)))
    (Z.to_nat (routev2.secID_of (routev2.maskMaxLen - n)))
    (network_key a b c d n).

(** The call came back to its caller or panicked: it neither hit a fatal
    error of the run-time nor blocked. *)
Definition returns_or_panics {A} (o : outcome A) : Prop :=
  match o with
  | Done _ | Panic => True
  | Fatal | Blocked => False
  end.

(** A flat table with one host route, and a sectioned one with a /24. *)
Definition host_table : route.routeTable string :=
  table_after [Add "10.0.0.5/32" (dyn "V"%string)].

Definition sample_table : route.routeTable string := table_after sample_calls.

Definition sample_table_v2 : routev2.routeTable string := table_after_v2 sample_calls_v2.

(** * Theorems *)

(** ** The monad *)

Lemma bind_Done {S A B} (m : M S A) (k : A -> M S B) s a s' :
  m s = Done (a, s') -> bind m k s = k a s'.
Proof. intros H. unfold bind. rewrite H. reflexivity. Qed.

Lemma bind_Panic {S A B} (m : M S A) (k : A -> M S B) s :
  m s = Panic -> bind m k s = Panic.
Proof. intros H. unfold bind. rewrite H. reflexivity. Qed.

Lemma bind_Fatal {S A B} (m : M S A) (k : A -> M S B) s :
  m s = Fatal -> bind m k s = Fatal.
Proof. intros H. unfold bind. rewrite H. reflexivity. Qed.

Lemma bind_inv {S A B} (m : M S A) (k : A -> M S B) s r :
  bind m k s = Done r -> exists a s', m s = Done (a, s') /\ k a s' = Done r.
Proof.
  unfold bind. destruct (m s) as [[a s']| | |]; try discriminate.
  intros H. exists a, s'. split; [reflexivity|exact H].
Qed.

(** ** Bits of the occupancy words *)

Lemma slot_bit32 (slot : nat) :
  (slot < 32)%nat -> wrap32 (Z.shiftl 1 (wrap32 (Z.of_nat slot))) = 2 ^ Z.of_nat slot.
Proof.
  intros H. unfold wrap32. rewrite (Z.mod_small (Z.of_nat slot)) by lia.
  rewrite Z.shiftl_1_l. apply Z.mod_small. split; [lia|].
  apply Z.pow_lt_mono_r; lia.
Qed.

Lemma slot_bit8 (j : nat) :
  (j < 8)%nat -> wrap8 (Z.shiftl 1 (wrap8 (Z.of_nat j))) = 2 ^ Z.of_nat j.
Proof.
  intros H. unfold wrap8. rewrite (Z.mod_small (Z.of_nat j)) by lia.
  rewrite Z.shiftl_1_l. apply Z.mod_small. split; [lia|].
  apply Z.pow_lt_mono_r; lia.
Qed.

Lemma testbit_set_bit (w : Z) (s i : nat) :
  Z.testbit (Z.lor w (2 ^ Z.of_nat s)) (Z.of_nat i)
  = Z.testbit w (Z.of_nat i) || Nat.eqb i s.
Proof.
  rewrite Z.lor_spec, Z.pow2_bits_eqb by lia. f_equal.
  destruct (Nat.eqb_spec i s) as [->|Hne].
  - apply Z.eqb_refl.
  - apply Z.eqb_neq. lia.
Qed.

Lemma testbit_clear_bit (ones : Z) (width : nat) (w : Z) (s i : nat) :
  ones = Z.ones (Z.of_nat width) -> (i < width)%nat ->
  Z.testbit (Z.land w (Z.lxor (2 ^ Z.of_nat s) ones)) (Z.of_nat i)
  = Z.testbit w (Z.of_nat i) && negb (Nat.eqb i s).
Proof.
  intros -> Hi. rewrite Z.land_spec, Z.lxor_spec, Z.pow2_bits_eqb by lia.
  rewrite Z.ones_spec_low by lia. f_equal.
  destruct (Nat.eqb_spec i s) as [->|Hne].
  - rewrite Z.eqb_refl. reflexivity.
  - replace (Z.of_nat s =? Z.of_nat i) with false; [reflexivity|].
    symmetry. apply Z.eqb_neq. lia.
Qed.

Lemma clear_bit_range (width : Z) (w b : Z) :
  0 <= width -> 0 <= w < 2 ^ width -> 0 <= Z.land w b < 2 ^ width.
Proof.
  intros Hw [H0 H1].
  assert (Hl : Z.land w b = Z.land (Z.land w b) (Z.ones width)).
  { apply Z.bits_inj'. intros n Hn. rewrite !Z.land_spec.
    destruct (Z.lt_ge_cases n width) as [Hlt|Hge].
    - rewrite Z.ones_spec_low by lia. rewrite andb_true_r. reflexivity.
    - rewrite Z.ones_spec_high by lia.
      destruct (Z.eq_dec w 0) as [->|Hne]; [rewrite Z.bits_0; reflexivity|].
      rewrite (Z.bits_above_log2 w n); [reflexivity|lia|].
      apply Z.log2_lt_pow2; [lia|].
      apply Z.lt_le_trans with (2 ^ width); [lia|apply Z.pow_le_mono_r; lia]. }
  rewrite Hl, Z.land_ones by lia. apply Z.mod_pos_bound. apply Z.pow_pos_nonneg; lia.
Qed.

Lemma set_bit_range (width : Z) (w : Z) (s : Z) :
  0 <= s < width -> 0 <= w < 2 ^ width -> 0 <= Z.lor w (2 ^ s) < 2 ^ width.
Proof.
  intros Hs [H0 H1].
  assert (0 <= Z.lor w (2 ^ s)) by (apply Z.lor_nonneg; split; [lia|apply Z.pow_nonneg; lia]).
  split; [assumption|].
  destruct (Z.eq_dec (Z.lor w (2 ^ s)) 0) as [->|Hne]; [apply Z.pow_pos_nonneg; lia|].
  apply Z.log2_lt_pow2; [lia|].
  rewrite Z.log2_lor by (try apply Z.pow_nonneg; lia).
  apply Z.max_lub_lt.
  - destruct (Z.eq_dec w 0) as [->|Hw]; [simpl; lia|]. apply Z.log2_lt_pow2; lia.
  - rewrite Z.log2_pow2 by lia. lia.
Qed.

(** A word below 2^width whose bit [s] is clear is left alone by clearing
    bit [s]. *)
Lemma clear_clear_bit (ones : Z) (width : nat) (w : Z) (s : nat) :
  ones = Z.ones (Z.of_nat width) -> 0 <= w < 2 ^ Z.of_nat width ->
  Z.testbit w (Z.of_nat s) = false ->
  Z.land w (Z.lxor (2 ^ Z.of_nat s) ones) = w.
Proof.
  intros -> Hw Hs. apply Z.bits_inj'. intros n Hn.
  rewrite Z.land_spec, Z.lxor_spec, Z.pow2_bits_eqb by lia.
  destruct (Z.lt_ge_cases n (Z.of_nat width)) as [Hlt|Hge].
  - rewrite Z.ones_spec_low by lia.
    destruct (Z.eqb_spec (Z.of_nat s) n) as [<-|Hne].
    + rewrite Hs. reflexivity.
    + rewrite andb_true_r. reflexivity.
  - destruct (Z.eq_dec w 0) as [->|Hne]; [rewrite Z.bits_0; reflexivity|].
    rewrite (Z.bits_above_log2 w n); [reflexivity|lia|].
    apply Z.log2_lt_pow2; [lia|].
    apply Z.lt_le_trans with (2 ^ Z.of_nat width); [lia|apply Z.pow_le_mono_r; lia].
Qed.

Lemma ones32 : 0xFFFFFFFF = Z.ones (Z.of_nat 32).
Proof. reflexivity. Qed.

Lemma ones8 : 0xFF = Z.ones (Z.of_nat 8).
Proof. reflexivity. Qed.

(** ** The flat table: what a call does to a quiet table *)

Section FlatFacts.
Context {T : Type}.
Implicit Types (rt : route.routeTable T) (e : route.rtEntry T).

Lemma entry_ok rt (slot : nat) e :
  route.rts rt !! slot = Some e -> route.entry (Z.of_nat slot) rt = Done (e, rt).
Proof.
  intros H. unfold route.entry, lift, index.
  destruct (Z.ltb_spec (Z.of_nat slot) 0); [lia|].
  rewrite Nat2Z.id, H. reflexivity.
Qed.

Lemma entry_mu_ok f rt (slot : nat) e m :
  route.rts rt !! slot = Some e -> f (route.e_mu e) = Done m ->
  route.entry_mu f (Z.of_nat slot) rt
  = Done (tt, route.mkTable (route.mu rt) (route.slotMask rt)
                (<[slot:=route.mkEntry m (route.mask e) (route.rtHash e)]> (route.rts rt))).
Proof.
  intros H Hf. unfold route.entry_mu, bind. rewrite (entry_ok _ _ _ H).
  unfold lift. rewrite Hf. unfold route.set_entry. rewrite Nat2Z.id. reflexivity.
Qed.

Lemma table_mu_ok f rt m :
  f (route.mu rt) = Done m ->
  route.table_mu f rt = Done (tt, route.mkTable m (route.slotMask rt) (route.rts rt)).
Proof. intros Hf. unfold route.table_mu. rewrite Hf. reflexivity. Qed.

(** An index outside the array panics before any lock is touched. *)
Lemma entry_mu_out_of_range f rt (slot : Z) :
  index (route.rts rt) slot = Panic -> route.entry_mu f slot rt = Panic.
Proof.
  intros H. unfold route.entry_mu. apply bind_Panic.
  unfold route.entry, lift. rewrite H. reflexivity.
Qed.

Lemma index_cases {A} (l : list A) (i : Z) :
  index l i = Panic
  \/ exists (n : nat) x, i = Z.of_nat n /\ l !! n = Some x /\ index l i = Done x.
Proof.
  unfold index. destruct (Z.ltb_spec i 0) as [Hneg|Hpos]; [left; reflexivity|].
  destruct (l !! Z.to_nat i) as [x|] eqn:Hx; [|left; reflexivity].
  right. exists (Z.to_nat i), x. rewrite Z2Nat.id by lia. auto.
Qed.

End FlatFacts.

Ltac tsimpl :=
  cbn [route.mu route.slotMask route.rts route.e_mu route.mask route.rtHash
       sync.readerCount sync.writerHeld];
  rewrite ?Nat2Z.id, ?list_insert_insert_eq.

Ltac tside :=
  cbn [route.mu route.slotMask route.rts route.e_mu route.mask route.rtHash
       sync.readerCount sync.writerHeld];
  first [ apply list_lookup_insert_eq; assumption | eassumption | reflexivity ].

Ltac tstep :=
  erewrite bind_Done
    by first [ eapply entry_mu_ok; tside
             | eapply entry_ok; tside
             | eapply table_mu_ok; tside
             | reflexivity ];
  tsimpl.

Section FlatCalls.
Context {T : Type}.
Implicit Types (rt : route.routeTable T) (e : route.rtEntry T).

Lemma AddRoute_parsed rt network v ipnet key (slot : nat) e :
  net.ParseCIDR network = Some ipnet ->
  binary.BigEndian_Uint32 (net.IP ipnet) = Done key ->
  route.maskMaxLen - (net.Size (net.Mask ipnet)).1 = Z.of_nat slot ->
  route.rts rt !! slot = Some e ->
  idle rt ->
  route.AddRoute network v rt
  = Done (nil_error,
          route.mkTable sync.zero
            (if Nat.eqb (size (route.rtHash e)) 0
             then Z.lor (route.slotMask rt) (wrap32 (Z.shiftl 1 (wrap32 (Z.of_nat slot))))
             else route.slotMask rt)
            (<[slot:=route.mkEntry sync.zero (route.mask e) (<[key:=v]> (route.rtHash e))]>
               (route.rts rt))).
Proof.
  intros Hp Hk Hs He [Hmu Hemu].
  pose proof (lookup_lt_Some _ _ _ He) as Hlt.
  pose proof (Hemu _ _ He) as Hz.
  destruct rt as [m w l]. cbn [route.mu route.slotMask route.rts] in *. subst m.
  destruct e as [em ek eh]. cbn [route.e_mu route.mask route.rtHash] in *. subst em.
  unfold route.AddRoute. rewrite Hp, Hs.
  erewrite bind_Done by (unfold lift; rewrite Hk; reflexivity).
  do 4 tstep.
  assert (Hins : (0 <? size (<[key:=v]> eh))%nat = true).
  { apply Nat.ltb_lt. pose proof (insert_non_empty eh key v) as Hne.
    rewrite <- map_size_empty_iff in Hne. lia. }
  destruct (size eh) as [|n] eqn:Hn.
  - replace (0 <? 0)%nat with false by reflexivity.
    do 3 tstep. rewrite Hins. do 2 tstep. reflexivity.
  - reflexivity.
Qed.

Lemma DelRoute_parsed rt network ipnet key (slot : nat) e :
  net.ParseCIDR network = Some ipnet ->
  binary.BigEndian_Uint32 (net.IP ipnet) = Done key ->
  route.maskMaxLen - (net.Size (net.Mask ipnet)).1 = Z.of_nat slot ->
  route.rts rt !! slot = Some e ->
  idle rt ->
  route.DelRoute network rt
  = Done (nil_error,
          route.mkTable sync.zero
            (if Nat.eqb (size (delete key (route.rtHash e))) 0
             then Z.land (route.slotMask rt)
                    (not32 (wrap32 (Z.shiftl 1 (wrap32 (Z.of_nat slot)))))
             else route.slotMask rt)
            (<[slot:=route.mkEntry sync.zero (route.mask e) (delete key (route.rtHash e))]>
               (route.rts rt))).
Proof.
  intros Hp Hk Hs He [Hmu Hemu].
  pose proof (lookup_lt_Some _ _ _ He) as Hlt.
  pose proof (Hemu _ _ He) as Hz.
  destruct rt as [m w l]. cbn [route.mu route.slotMask route.rts] in *. subst m.
  destruct e as [em ek eh]. cbn [route.e_mu route.mask route.rtHash] in *. subst em.
  unfold route.DelRoute. rewrite Hp, Hs.
  erewrite bind_Done by (unfold lift; rewrite Hk; reflexivity).
  do 7 tstep.
  destruct (Nat.eqb (size (delete key eh)) 0); do 2 tstep; reflexivity.
Qed.

Lemma BigEndian_cases (b : list Z) :
  binary.BigEndian_Uint32 b = Panic \/ exists key, binary.BigEndian_Uint32 b = Done key.
Proof.
  destruct b as [|b0 [|b1 [|b2 [|b3 b]]]]; simpl; eauto.
Qed.

(** A slot index outside the array: the call panics. *)
Lemma AddRoute_out_of_range rt network v ipnet :
  net.ParseCIDR network = Some ipnet ->
  index (route.rts rt) (route.maskMaxLen - (net.Size (net.Mask ipnet)).1) = Panic ->
  route.AddRoute network v rt = Panic.
Proof.
  intros Hp Hi. unfold route.AddRoute. rewrite Hp.
  destruct (BigEndian_cases (net.IP ipnet)) as [Hk|[key Hk]].
  { apply bind_Panic. unfold lift. rewrite Hk. reflexivity. }
  erewrite bind_Done by (unfold lift; rewrite Hk; reflexivity).
  apply bind_Panic, entry_mu_out_of_range, Hi.
Qed.

Lemma DelRoute_out_of_range rt network ipnet :
  net.ParseCIDR network = Some ipnet ->
  index (route.rts rt) (route.maskMaxLen - (net.Size (net.Mask ipnet)).1) = Panic ->
  route.DelRoute network rt = Panic.
Proof.
  intros Hp Hi. unfold route.DelRoute. rewrite Hp.
  destruct (BigEndian_cases (net.IP ipnet)) as [Hk|[key Hk]].
  { apply bind_Panic. unfold lift. rewrite Hk. reflexivity. }
  erewrite bind_Done by (unfold lift; rewrite Hk; reflexivity).
  apply bind_Panic, entry_mu_out_of_range, Hi.
Qed.

(** Every way [AddRoute] can return from a quiet table. *)
Lemma AddRoute_returns rt network v err rt' :
  idle rt ->
  route.AddRoute network v rt = Done (err, rt') ->
  (net.ParseCIDR network = None /\ err = ParseError network /\ rt' = rt)
  \/ exists ipnet key (slot : nat) e,
       net.ParseCIDR network = Some ipnet
       /\ binary.BigEndian_Uint32 (net.IP ipnet) = Done key
       /\ route.maskMaxLen - (net.Size (net.Mask ipnet)).1 = Z.of_nat slot
       /\ route.rts rt !! slot = Some e
       /\ err = nil_error
       /\ rt' = route.mkTable sync.zero
                  (if Nat.eqb (size (route.rtHash e)) 0
                   then Z.lor (route.slotMask rt)
                          (wrap32 (Z.shiftl 1 (wrap32 (Z.of_nat slot))))
                   else route.slotMask rt)
                  (<[slot:=route.mkEntry sync.zero (route.mask e)
                             (<[key:=v]> (route.rtHash e))]> (route.rts rt)).
Proof.
  intros Hidle H.
  destruct (net.ParseCIDR network) as [ipnet|] eqn:Hp.
  - right.
    destruct (index_cases (route.rts rt)
                (route.maskMaxLen - (net.Size (net.Mask ipnet)).1))
      as [Hpanic|(slot & e & Hs & He & _)].
    { rewrite (AddRoute_out_of_range _ _ _ _ Hp Hpanic) in H. discriminate H. }
    destruct (BigEndian_cases (net.IP ipnet)) as [Hk|[key Hk]].
    { unfold route.AddRoute in H. rewrite Hp in H.
      unfold bind at 1, lift in H. rewrite Hk in H. discriminate H. }
    rewrite (AddRoute_parsed _ _ v _ _ _ _ Hp Hk Hs He Hidle) in H.
    injection H as <- <-. exists ipnet, key, slot, e. auto 10.
  - left. unfold route.AddRoute in H. rewrite Hp in H. unfold ret in H.
    injection H as <- <-. auto.
Qed.

Lemma DelRoute_returns rt network err rt' :
  idle rt ->
  route.DelRoute network rt = Done (err, rt') ->
  (net.ParseCIDR network = None /\ err = ParseError network /\ rt' = rt)
  \/ exists ipnet key (slot : nat) e,
       net.ParseCIDR network = Some ipnet
       /\ binary.BigEndian_Uint32 (net.IP ipnet) = Done key
       /\ route.maskMaxLen - (net.Size (net.Mask ipnet)).1 = Z.of_nat slot
       /\ route.rts rt !! slot = Some e
       /\ err = nil_error
       /\ rt' = route.mkTable sync.zero
                  (if Nat.eqb (size (delete key (route.rtHash e))) 0
                   then Z.land (route.slotMask rt)
                          (not32 (wrap32 (Z.shiftl 1 (wrap32 (Z.of_nat slot)))))
                   else route.slotMask rt)
                  (<[slot:=route.mkEntry sync.zero (route.mask e)
                             (delete key (route.rtHash e))]> (route.rts rt)).
Proof.
  intros Hidle H.
  destruct (net.ParseCIDR network) as [ipnet|] eqn:Hp.
  - right.
    destruct (index_cases (route.rts rt)
                (route.maskMaxLen - (net.Size (net.Mask ipnet)).1))
      as [Hpanic|(slot & e & Hs & He & _)].
    { rewrite (DelRoute_out_of_range _ _ _ Hp Hpanic) in H. discriminate H. }
    destruct (BigEndian_cases (net.IP ipnet)) as [Hk|[key Hk]].
    { unfold route.DelRoute in H. rewrite Hp in H.
      unfold bind at 1, lift in H. rewrite Hk in H. discriminate H. }
    rewrite (DelRoute_parsed _ _ _ _ _ _ Hp Hk Hs He Hidle) in H.
    injection H as <- <-. exists ipnet, key, slot, e. auto 10.
  - left. unfold route.DelRoute in H. rewrite Hp in H. unfold ret in H.
    injection H as <- <-. auto.
Qed.

End FlatCalls.
(** ** The flat table: invariants *)

Section FlatInvariants.
Context {T : Type}.
Implicit Types (rt : route.routeTable T) (e : route.rtEntry T).

Lemma NewRouteTable_well_formed : well_formed (@route.NewRouteTable T).
Proof.
  split; [reflexivity|]. split; [|split; [vm_compute; split; [discriminate|reflexivity]|]].
  - split; [reflexivity|]. intros i e H.
    unfold route.NewRouteTable in H. cbn [route.rts] in H.
    apply list_lookup_fmap_Some in H. destruct H as (k & -> & _). reflexivity.
  - intros i e H. unfold route.NewRouteTable in H. cbn [route.rts route.slotMask] in *.
    apply list_lookup_fmap_Some in H. destruct H as (k & -> & _).
    cbn [route.rtHash]. rewrite Z.bits_0. split; [discriminate|congruence].
Qed.

Lemma idle_insert w (l : list (route.rtEntry T)) slot k h :
  (forall i e, l !! i = Some e -> route.e_mu e = sync.zero) ->
  idle (route.mkTable sync.zero w (<[slot:=route.mkEntry sync.zero k h]> l)).
Proof.
  intros Hl. split; [reflexivity|].
  cbn [route.rts]. intros i e H.
  destruct (decide (slot = i)) as [->|Hne].
  - destruct (decide (i < length l)%nat) as [Hlt|Hge].
    + rewrite list_lookup_insert_eq in H by assumption. injection H as <-. reflexivity.
    + rewrite list_insert_ge in H by lia. eauto.
  - rewrite list_lookup_insert_ne in H by assumption. eauto.
Qed.

Lemma AddRoute_well_formed rt network v err rt' :
  well_formed rt -> route.AddRoute network v rt = Done (err, rt') -> well_formed rt'.
Proof.
  intros (Hlen & Hidle & Hrange & Hocc) H.
  destruct (AddRoute_returns _ _ _ _ _ Hidle H)
    as [(_ & _ & ->)|(ipnet & key & slot & e & _ & _ & _ & He & _ & ->)].
  { split; [exact Hlen|]. split; [exact Hidle|]. split; [exact Hrange|exact Hocc]. }
  pose proof (lookup_lt_Some _ _ _ He) as Hlt. rewrite Hlen in Hlt.
  rewrite slot_bit32 by assumption.
  split; [cbn [route.rts]; rewrite length_insert; exact Hlen|].
  split; [apply idle_insert, Hidle|].
  split.
  - cbn [route.slotMask]. destruct (Nat.eqb _ 0); [|exact Hrange].
    apply (set_bit_range 32); [lia|exact Hrange].
  - intros i e' Hi. cbn [route.rts route.slotMask] in *.
    destruct (decide (slot = i)) as [->|Hne].
    + rewrite list_lookup_insert_eq in Hi by lia. injection Hi as <-.
      cbn [route.rtHash].
      split; [intros _; apply insert_non_empty|intros _].
      destruct (Nat.eqb_spec (size (route.rtHash e)) 0) as [Hz|Hnz].
      * rewrite testbit_set_bit, Nat.eqb_refl. apply orb_true_r.
      * apply (Hocc _ _ He). intros Hempty. apply Hnz. rewrite Hempty. apply map_size_empty.
    + rewrite list_lookup_insert_ne in Hi by assumption.
      rewrite <- (Hocc _ _ Hi).
      destruct (Nat.eqb _ 0); [|reflexivity].
      rewrite testbit_set_bit.
      replace (Nat.eqb i slot) with false by (symmetry; apply Nat.eqb_neq; congruence).
      rewrite orb_false_r. reflexivity.
Qed.

Lemma DelRoute_well_formed rt network err rt' :
  well_formed rt -> route.DelRoute network rt = Done (err, rt') -> well_formed rt'.
Proof.
  intros (Hlen & Hidle & Hrange & Hocc) H.
  destruct (DelRoute_returns _ _ _ _ Hidle H)
    as [(_ & _ & ->)|(ipnet & key & slot & e & _ & _ & _ & He & _ & ->)].
  { split; [exact Hlen|]. split; [exact Hidle|]. split; [exact Hrange|exact Hocc]. }
  pose proof (lookup_lt_Some _ _ _ He) as Hlt. rewrite Hlen in Hlt.
  rewrite slot_bit32 by assumption. unfold not32.
  split; [cbn [route.rts]; rewrite length_insert; exact Hlen|].
  split; [apply idle_insert, Hidle|].
  split.
  - cbn [route.slotMask]. destruct (Nat.eqb _ 0); [|exact Hrange].
    apply (clear_bit_range 32); [lia|exact Hrange].
  - intros i e' Hi. cbn [route.rts route.slotMask] in *.
    assert (Hi32 : (i < 32)%nat).
    { apply lookup_lt_Some in Hi. rewrite length_insert in Hi. lia. }
    destruct (decide (slot = i)) as [->|Hne].
    + rewrite list_lookup_insert_eq in Hi by lia. injection Hi as <-.
      cbn [route.rtHash].
      destruct (Nat.eqb_spec (size (delete key (route.rtHash e))) 0) as [Hz|Hnz].
      * rewrite (testbit_clear_bit _ 32) by (reflexivity || assumption).
        rewrite Nat.eqb_refl, andb_false_r.
        apply map_size_empty_iff in Hz. split; [discriminate|congruence].
      * split.
        -- intros _ Hempty. apply Hnz. rewrite Hempty. apply map_size_empty.
        -- intros _. apply (Hocc _ _ He). intros Hempty. apply Hnz.
           rewrite Hempty, delete_empty. apply map_size_empty.
    + rewrite list_lookup_insert_ne in Hi by assumption.
      rewrite <- (Hocc _ _ Hi).
      destruct (Nat.eqb _ 0); [|reflexivity].
      rewrite (testbit_clear_bit _ 32) by (reflexivity || assumption).
      replace (Nat.eqb i slot) with false by (symmetry; apply Nat.eqb_neq; congruence).
      rewrite andb_true_r. reflexivity.
Qed.

Lemma step_well_formed (o : op T) rt err rt' :
  well_formed rt -> step o rt = Done (err, rt') -> well_formed rt'.
Proof.
  destruct o as [network v|network]; cbn [step].
  - apply AddRoute_well_formed.
  - apply DelRoute_well_formed.
Qed.

Lemma run_well_formed (ops : list (op T)) rt errs rt' :
  well_formed rt -> run ops rt = Done (errs, rt') -> well_formed rt'.
Proof.
  revert rt errs. induction ops as [|o ops IH]; intros rt errs Hwf H.
  - cbn [run] in H. unfold ret in H. injection H as <- <-. exact Hwf.
  - cbn [run] in H. apply bind_inv in H. destruct H as (err & rt1 & Hstep & H).
    apply bind_inv in H. destruct H as (es & rt2 & Hrun & H).
    unfold ret in H. injection H as <- <-.
    eapply IH; [|exact Hrun]. eapply step_well_formed; eassumption.
Qed.

End FlatInvariants.
(** ** The flat table: what [RouteLookup] returns *)

Section FlatLookup.
Context {T : Type}.
Implicit Types (rt : route.routeTable T) (e : route.rtEntry T).

Lemma land_1_testbit (x : Z) : Z.land x 1 = if Z.testbit x 0 then 1 else 0.
Proof.
  change 1 with (Z.ones 1) at 1. rewrite Z.land_ones by lia.
  change (2 ^ 1) with 2. rewrite <- Z.bit0_mod. destruct (Z.testbit x 0); reflexivity.
Qed.

Lemma first_match_from_unset rt ip n i :
  (forall j, (i <= j)%nat -> Z.testbit (route.slotMask rt) (Z.of_nat j) = false) ->
  first_match_from rt ip n i = None.
Proof.
  revert i. induction n as [|n IH]; intros i H; [reflexivity|].
  cbn [first_match_from]. unfold probe.
  destruct (route.rts rt !! i) as [e|]; cbn [mbind option_bind].
  - rewrite H by lia. apply IH. intros j Hj. apply H. lia.
  - apply IH. intros j Hj. apply H. lia.
Qed.

(** Taking and giving back the read lock of a slot leaves the table as it was. *)
Lemma entry_RLock_RUnlock rt (i : nat) e :
  route.rts rt !! i = Some e -> route.e_mu e = sync.zero ->
  exists rt1,
    route.entry_mu sync.RLock (Z.of_nat i) rt = Done (tt, rt1)
    /\ route.entry (Z.of_nat i) rt1
       = Done (route.mkEntry (sync.mkRWMutex 1 false) (route.mask e) (route.rtHash e), rt1)
    /\ route.entry_mu sync.RUnlock (Z.of_nat i) rt1 = Done (tt, rt).
Proof.
  intros He Hz. pose proof (lookup_lt_Some _ _ _ He) as Hlt.
  destruct rt as [m w l]. destruct e as [em ek eh].
  cbn [route.rts route.e_mu route.mask route.rtHash] in *. subst em.
  eexists. split; [eapply entry_mu_ok; [exact He|reflexivity]|].
  cbn [route.mu route.slotMask route.rts route.e_mu route.mask route.rtHash].
  split.
  - apply entry_ok. cbn [route.rts]. apply list_lookup_insert_eq. exact Hlt.
  - erewrite entry_mu_ok;
      [|cbn [route.rts]; apply list_lookup_insert_eq; exact Hlt|reflexivity].
    cbn [route.mu route.slotMask route.rts route.e_mu route.mask route.rtHash].
    rewrite list_insert_insert_eq, list_insert_id by exact He. reflexivity.
Qed.

Lemma lookup_loop_first_match rt ip n i :
  idle rt -> (i + n <= length (route.rts rt))%nat ->
  route.lookup_loop n (Z.of_nat i) (Z.shiftr (route.slotMask rt) (Z.of_nat i)) ip rt
  = Done (default nil_iface (first_match_from rt ip n i), rt).
Proof.
  intros Hidle. revert i. induction n as [|n IH]; intros i Hlen; [reflexivity|].
  cbn [route.lookup_loop].
  assert (Hnext : Z.shiftr (Z.shiftr (route.slotMask rt) (Z.of_nat i)) 1
                  = Z.shiftr (route.slotMask rt) (Z.of_nat (S i))).
  { rewrite Z.shiftr_shiftr by lia. f_equal. lia. }
  assert (Hsucc : Z.of_nat i + 1 = Z.of_nat (S i)) by lia.
  destruct (Z.eqb_spec (Z.shiftr (route.slotMask rt) (Z.of_nat i)) 0) as [Hzero|Hnz].
  - rewrite (first_match_from_unset rt ip (S n) i); [reflexivity|].
    intros j Hj. replace (Z.of_nat j) with (Z.of_nat (j - i) + Z.of_nat i) by lia.
    rewrite <- Z.shiftr_spec by lia. rewrite Hzero. apply Z.bits_0.
  - rewrite land_1_testbit, Z.shiftr_spec by lia. rewrite Z.add_0_l.
    destruct (lookup_lt_is_Some_2 (route.rts rt) i) as [e He]; [lia|].
    cbn [first_match_from]. unfold probe at 1. rewrite He. cbn [mbind option_bind].
    destruct (Z.testbit (route.slotMask rt) (Z.of_nat i)) eqn:Hbit.
    + cbn [Z.eqb negb].
      destruct (entry_RLock_RUnlock rt i e He (proj2 Hidle _ _ He))
        as (rt1 & Hlock & Hread & Hunlock).
      erewrite bind_Done by (apply entry_ok; exact He).
      erewrite bind_Done by exact Hlock.
      erewrite bind_Done by exact Hread.
      cbn [route.rtHash].
      destruct (route.rtHash e !! Z.land ip (route.mask e)) as [v|].
      * erewrite bind_Done by exact Hunlock. reflexivity.
      * erewrite bind_Done by exact Hunlock. rewrite Hsucc, Hnext. apply IH. lia.
    + cbn [Z.eqb negb]. rewrite Hsucc, Hnext. apply IH. lia.
Qed.

(** On a quiet table of 32 slots [RouteLookup] returns the answer of the
    first slot that answers, nil when none does, and changes nothing. *)
Lemma RouteLookup_first_match rt ip :
  length (route.rts rt) = 32%nat -> idle rt ->
  route.RouteLookup ip rt = Done (default nil_iface (first_match rt ip), rt).
Proof.
  intros Hlen Hidle. unfold route.RouteLookup.
  pose proof (proj1 Hidle) as Hmu.
  destruct rt as [m w l]. cbn [route.mu route.rts] in *. subst m.
  erewrite bind_Done by (apply table_mu_ok; reflexivity).
  erewrite bind_Done by reflexivity.
  erewrite bind_Done by (apply table_mu_ok; reflexivity).
  cbn [route.mu route.slotMask route.rts sync.readerCount sync.writerHeld].
  change (sync.mkRWMutex 0 false) with sync.zero.
  pose proof (lookup_loop_first_match (route.mkTable sync.zero w l) ip 32 0 Hidle) as H.
  cbn [route.slotMask route.rts] in H. rewrite Z.shiftr_0_r in H.
  apply H. rewrite Hlen. lia.
Qed.

End FlatLookup.
(** ** The sectioned table: what a call does to a quiet table *)

Section SectionedFacts.
Context {T : Type}.
Implicit Types (rt : routev2.routeTable T) (sec : routev2.rtSection T)
  (e : routev2.rtEntry T).

Lemma section_ok rt (i : nat) sec :
  routev2.rts rt !! i = Some sec -> routev2.section (Z.of_nat i) rt = Done (sec, rt).
Proof.
  intros H. unfold routev2.section, lift, index.
  destruct (Z.ltb_spec (Z.of_nat i) 0); [lia|].
  rewrite Nat2Z.id, H. reflexivity.
Qed.

Lemma section_out_of_range {A} rt (i : Z) (k : routev2.rtSection T -> M _ A) :
  index (routev2.rts rt) i = Panic -> bind (routev2.section i) k rt = Panic.
Proof.
  intros H. apply bind_Panic. unfold routev2.section, lift. rewrite H. reflexivity.
Qed.

Lemma slot_entry_ok rt (i j : nat) sec e :
  routev2.rts rt !! i = Some sec -> routev2.rtSec sec !! j = Some e ->
  routev2.slot_entry (Z.of_nat i) (Z.of_nat j) rt = Done (e, rt).
Proof.
  intros Hi Hj. unfold routev2.slot_entry.
  erewrite bind_Done by (apply section_ok; exact Hi).
  unfold lift, index. destruct (Z.ltb_spec (Z.of_nat j) 0); [lia|].
  rewrite Nat2Z.id, Hj. reflexivity.
Qed.

Lemma set_slot_entry_ok rt (i j : nat) sec e :
  routev2.rts rt !! i = Some sec ->
  routev2.set_slot_entry (Z.of_nat i) (Z.of_nat j) e rt
  = Done (tt, routev2.mkTable
                (<[i:=routev2.mkSection (routev2.mu sec) (routev2.slotMask sec)
                        (<[j:=e]> (routev2.rtSec sec))]> (routev2.rts rt))).
Proof.
  intros Hi. unfold routev2.set_slot_entry.
  erewrite bind_Done by (apply section_ok; exact Hi).
  unfold routev2.set_section. rewrite !Nat2Z.id. reflexivity.
Qed.

Lemma section_mu_ok f rt (i : nat) sec m :
  routev2.rts rt !! i = Some sec -> f (routev2.mu sec) = Done m ->
  routev2.section_mu f (Z.of_nat i) rt
  = Done (tt, routev2.mkTable
                (<[i:=routev2.mkSection m (routev2.slotMask sec) (routev2.rtSec sec)]>
                   (routev2.rts rt))).
Proof.
  intros Hi Hf. unfold routev2.section_mu.
  erewrite bind_Done by (apply section_ok; exact Hi).
  erewrite bind_Done by (unfold lift; rewrite Hf; reflexivity).
  unfold routev2.set_section. rewrite Nat2Z.id. reflexivity.
Qed.

Lemma set_slotMask_ok rt (i : nat) sec w :
  routev2.rts rt !! i = Some sec ->
  routev2.set_slotMask (Z.of_nat i) w rt
  = Done (tt, routev2.mkTable
                (<[i:=routev2.mkSection (routev2.mu sec) w (routev2.rtSec sec)]>
                   (routev2.rts rt))).
Proof.
  intros Hi. unfold routev2.set_slotMask.
  erewrite bind_Done by (apply section_ok; exact Hi).
  unfold routev2.set_section. rewrite Nat2Z.id. reflexivity.
Qed.

End SectionedFacts.

Ltac ssimpl :=
  cbn [routev2.rts routev2.mu routev2.slotMask routev2.rtSec routev2.mask
       routev2.rtHash sync.readerCount sync.writerHeld];
  rewrite ?Nat2Z.id, ?list_insert_insert_eq.

Ltac sside :=
  cbn [routev2.rts routev2.mu routev2.slotMask routev2.rtSec routev2.mask
       routev2.rtHash sync.readerCount sync.writerHeld];
  first [ apply list_lookup_insert_eq; assumption | eassumption | reflexivity ].

Ltac sstep :=
  erewrite bind_Done
    by first [ eapply section_mu_ok; sside
             | eapply set_slot_entry_ok; sside
             | eapply set_slotMask_ok; sside
             | eapply slot_entry_ok; sside
             | eapply section_ok; sside
             | reflexivity ];
  ssimpl.

Section SectionedCalls.
Context {T : Type}.
Implicit Types (rt : routev2.routeTable T) (sec : routev2.rtSection T)
  (e : routev2.rtEntry T).

Lemma AddRoute_parsed_v2 rt network v ipnet key (i j : nat) sec e :
  net.ParseCIDR network = Some ipnet ->
  binary.BigEndian_Uint32 (net.IP ipnet) = Done key ->
  routev2.ipID_of (routev2.maskMaxLen - (net.Size (net.Mask ipnet)).1) = Z.of_nat i ->
  routev2.secID_of (routev2.maskMaxLen - (net.Size (net.Mask ipnet)).1) = Z.of_nat j ->
  routev2.rts rt !! i = Some sec ->
  routev2.rtSec sec !! j = Some e ->
  routev2.mu sec = sync.zero ->
  routev2.AddRoute network v rt
  = Done (nil_error,
          routev2.mkTable
            (<[i:=routev2.mkSection sync.zero
                    (Z.lor (routev2.slotMask sec) (wrap8 (Z.shiftl 1 (wrap8 (Z.of_nat j)))))
                    (<[j:=routev2.mkEntry (routev2.mask e) (<[key:=v]> (routev2.rtHash e))]>
                       (routev2.rtSec sec))]> (routev2.rts rt))).
Proof.
  intros Hp Hk Hi Hj Hsec He Hz.
  pose proof (lookup_lt_Some _ _ _ Hsec) as Hlt.
  destruct rt as [l]. destruct sec as [m w es]. destruct e as [ek eh].
  cbn [routev2.rts routev2.mu routev2.slotMask routev2.rtSec routev2.mask
       routev2.rtHash] in *. subst m.
  unfold routev2.AddRoute. rewrite Hp, Hi, Hj.
  erewrite bind_Done by (unfold lift; rewrite Hk; reflexivity).
  do 7 sstep. reflexivity.
Qed.

Lemma DelRoute_parsed_v2 rt network ipnet key (i j : nat) sec e :
  net.ParseCIDR network = Some ipnet ->
  binary.BigEndian_Uint32 (net.IP ipnet) = Done key ->
  routev2.ipID_of (routev2.maskMaxLen - (net.Size (net.Mask ipnet)).1) = Z.of_nat i ->
  routev2.secID_of (routev2.maskMaxLen - (net.Size (net.Mask ipnet)).1) = Z.of_nat j ->
  routev2.rts rt !! i = Some sec ->
  routev2.rtSec sec !! j = Some e ->
  routev2.mu sec = sync.zero ->
  routev2.DelRoute network rt
  = Done (nil_error,
          routev2.mkTable
            (<[i:=routev2.mkSection sync.zero
                    (if Nat.eqb (size (delete key (routev2.rtHash e))) 0
                     then Z.land (routev2.slotMask sec)
                            (not8 (wrap8 (Z.shiftl 1 (wrap8 (Z.of_nat j)))))
                     else routev2.slotMask sec)
                    (<[j:=routev2.mkEntry (routev2.mask e) (delete key (routev2.rtHash e))]>
                       (routev2.rtSec sec))]> (routev2.rts rt))).
Proof.
  intros Hp Hk Hi Hj Hsec He Hz.
  pose proof (lookup_lt_Some _ _ _ Hsec) as Hlt.
  pose proof (lookup_lt_Some _ _ _ He) as Hltj.
  destruct rt as [l]. destruct sec as [m w es]. destruct e as [ek eh].
  cbn [routev2.rts routev2.mu routev2.slotMask routev2.rtSec routev2.mask
       routev2.rtHash] in *. subst m.
  unfold routev2.DelRoute. rewrite Hp, Hi, Hj.
  erewrite bind_Done by (unfold lift; rewrite Hk; reflexivity).
  do 4 sstep.
  erewrite bind_Done
    by (eapply slot_entry_ok; cbn [routev2.rts routev2.rtSec];
        [apply list_lookup_insert_eq; exact Hlt|apply list_lookup_insert_eq; exact Hltj]).
  ssimpl. sstep.
  destruct (Nat.eqb (size (delete key eh)) 0); do 2 sstep; reflexivity.
Qed.

End SectionedCalls.
Section SectionedReturns.
Context {T : Type}.
Implicit Types (rt : routev2.routeTable T) (sec : routev2.rtSection T)
  (e : routev2.rtEntry T).

(** A section index outside the array: the call panics. *)
Lemma AddRoute_out_of_range_v2 rt network v ipnet :
  net.ParseCIDR network = Some ipnet ->
  index (routev2.rts rt)
    (routev2.ipID_of (routev2.maskMaxLen - (net.Size (net.Mask ipnet)).1)) = Panic ->
  routev2.AddRoute network v rt = Panic.
Proof.
  intros Hp Hi. unfold routev2.AddRoute. rewrite Hp.
  destruct (BigEndian_cases (net.IP ipnet)) as [Hk|[key Hk]].
  { apply bind_Panic. unfold lift. rewrite Hk. reflexivity. }
  erewrite bind_Done by (unfold lift; rewrite Hk; reflexivity).
  apply section_out_of_range, Hi.
Qed.

Lemma DelRoute_out_of_range_v2 rt network ipnet :
  net.ParseCIDR network = Some ipnet ->
  index (routev2.rts rt)
    (routev2.ipID_of (routev2.maskMaxLen - (net.Size (net.Mask ipnet)).1)) = Panic ->
  routev2.DelRoute network rt = Panic.
Proof.
  intros Hp Hi. unfold routev2.DelRoute. rewrite Hp.
  destruct (BigEndian_cases (net.IP ipnet)) as [Hk|[key Hk]].
  { apply bind_Panic. unfold lift. rewrite Hk. reflexivity. }
  erewrite bind_Done by (unfold lift; rewrite Hk; reflexivity).
  apply section_out_of_range, Hi.
Qed.

Lemma slot_entry_out_of_range rt (i : nat) (j : Z) sec :
  routev2.rts rt !! i = Some sec -> index (routev2.rtSec sec) j = Panic ->
  routev2.slot_entry (Z.of_nat i) j rt = Panic.
Proof.
  intros Hi Hj. unfold routev2.slot_entry.
  erewrite bind_Done by (apply section_ok; exact Hi).
  unfold lift. rewrite Hj. reflexivity.
Qed.

(** Every way [AddRoute] can return from a quiet table. *)
Lemma AddRoute_returns_v2 rt network v err rt' :
  idle_v2 rt ->
  routev2.AddRoute network v rt = Done (err, rt') ->
  (net.ParseCIDR network = None /\ err = ParseError network /\ rt' = rt)
  \/ exists ipnet key (i j : nat) sec e,
       net.ParseCIDR network = Some ipnet
       /\ binary.BigEndian_Uint32 (net.IP ipnet) = Done key
       /\ routev2.ipID_of (routev2.maskMaxLen - (net.Size (net.Mask ipnet)).1) = Z.of_nat i
       /\ routev2.secID_of (routev2.maskMaxLen - (net.Size (net.Mask ipnet)).1) = Z.of_nat j
       /\ routev2.rts rt !! i = Some sec
       /\ routev2.rtSec sec !! j = Some e
       /\ err = nil_error
       /\ rt' = routev2.mkTable
                  (<[i:=routev2.mkSection sync.zero
                          (Z.lor (routev2.slotMask sec)
                             (wrap8 (Z.shiftl 1 (wrap8 (Z.of_nat j)))))
                          (<[j:=routev2.mkEntry (routev2.mask e)
                                  (<[key:=v]> (routev2.rtHash e))]>
                             (routev2.rtSec sec))]> (routev2.rts rt)).
Proof.
  intros Hidle H.
  destruct (net.ParseCIDR network) as [ipnet|] eqn:Hp.
  - right.
    destruct (index_cases (routev2.rts rt)
                (routev2.ipID_of (routev2.maskMaxLen - (net.Size (net.Mask ipnet)).1)))
      as [Hpanic|(i & sec & Hi & Hsec & _)].
    { rewrite (AddRoute_out_of_range_v2 _ _ _ _ Hp Hpanic) in H. discriminate H. }
    destruct (BigEndian_cases (net.IP ipnet)) as [Hk|[key Hk]].
    { unfold routev2.AddRoute in H. rewrite Hp in H.
      unfold bind at 1, lift in H. rewrite Hk in H. discriminate H. }
    destruct (index_cases (routev2.rtSec sec)
                (routev2.secID_of (routev2.maskMaxLen - (net.Size (net.Mask ipnet)).1)))
      as [Hpanic|(j & e & Hj & He & _)].
    { unfold routev2.AddRoute in H. rewrite Hp, Hi in H.
      erewrite bind_Done in H by (unfold lift; rewrite Hk; reflexivity).
      erewrite bind_Done in H by (apply section_ok; exact Hsec).
      erewrite bind_Panic in H by (eapply slot_entry_out_of_range; eassumption).
      discriminate H. }
    rewrite (AddRoute_parsed_v2 _ _ v _ _ _ _ _ _ Hp Hk Hi Hj Hsec He (Hidle _ _ Hsec)) in H.
    injection H as <- <-. exists ipnet, key, i, j, sec, e. auto 10.
  - left. unfold routev2.AddRoute in H. rewrite Hp in H. unfold ret in H.
    injection H as <- <-. auto.
Qed.

Lemma DelRoute_returns_v2 rt network err rt' :
  idle_v2 rt ->
  routev2.DelRoute network rt = Done (err, rt') ->
  (net.ParseCIDR network = None /\ err = ParseError network /\ rt' = rt)
  \/ exists ipnet key (i j : nat) sec e,
       net.ParseCIDR network = Some ipnet
       /\ binary.BigEndian_Uint32 (net.IP ipnet) = Done key
       /\ routev2.ipID_of (routev2.maskMaxLen - (net.Size (net.Mask ipnet)).1) = Z.of_nat i
       /\ routev2.secID_of (routev2.maskMaxLen - (net.Size (net.Mask ipnet)).1) = Z.of_nat j
       /\ routev2.rts rt !! i = Some sec
       /\ routev2.rtSec sec !! j = Some e
       /\ err = nil_error
       /\ rt' = routev2.mkTable
                  (<[i:=routev2.mkSection sync.zero
                          (if Nat.eqb (size (delete key (routev2.rtHash e))) 0
                           then Z.land (routev2.slotMask sec)
                                  (not8 (wrap8 (Z.shiftl 1 (wrap8 (Z.of_nat j)))))
                           else routev2.slotMask sec)
                          (<[j:=routev2.mkEntry (routev2.mask e)
                                  (delete key (routev2.rtHash e))]>
                             (routev2.rtSec sec))]> (routev2.rts rt)).
Proof.
  intros Hidle H.
  destruct (net.ParseCIDR network) as [ipnet|] eqn:Hp.
  - right.
    destruct (index_cases (routev2.rts rt)
                (routev2.ipID_of (routev2.maskMaxLen - (net.Size (net.Mask ipnet)).1)))
      as [Hpanic|(i & sec & Hi & Hsec & _)].
    { rewrite (DelRoute_out_of_range_v2 _ _ _ Hp Hpanic) in H. discriminate H. }
    destruct (BigEndian_cases (net.IP ipnet)) as [Hk|[key Hk]].
    { unfold routev2.DelRoute in H. rewrite Hp in H.
      unfold bind at 1, lift in H. rewrite Hk in H. discriminate H. }
    destruct (index_cases (routev2.rtSec sec)
                (routev2.secID_of (routev2.maskMaxLen - (net.Size (net.Mask ipnet)).1)))
      as [Hpanic|(j & e & Hj & He & _)].
    { unfold routev2.DelRoute in H. rewrite Hp, Hi in H.
      erewrite bind_Done in H by (unfold lift; rewrite Hk; reflexivity).
      erewrite bind_Done in H by (apply section_ok; exact Hsec).
      erewrite bind_Panic in H by (eapply slot_entry_out_of_range; eassumption).
      discriminate H. }
    rewrite (DelRoute_parsed_v2 _ _ _ _ _ _ _ _ Hp Hk Hi Hj Hsec He (Hidle _ _ Hsec)) in H.
    injection H as <- <-. exists ipnet, key, i, j, sec, e. auto 10.
  - left. unfold routev2.DelRoute in H. rewrite Hp in H. unfold ret in H.
    injection H as <- <-. auto.
Qed.

End SectionedReturns.
(** ** The sectioned table: invariants *)

Section SectionedInvariants.
Context {T : Type}.
Implicit Types (rt : routev2.routeTable T) (sec : routev2.rtSection T)
  (e : routev2.rtEntry T).

Lemma NewRouteTable_well_formed_v2 : well_formed_v2 (@routev2.NewRouteTable T).
Proof.
  unfold routev2.NewRouteTable.
  split; [reflexivity|]. split; [|split].
  - intros i sec H. cbn [routev2.rts] in H.
    apply list_lookup_fmap_Some in H. destruct H as (k & -> & _).
    split; [reflexivity|]. cbn [routev2.slotMask]. lia.
  - intros i sec H. cbn [routev2.rts] in H.
    apply list_lookup_fmap_Some in H. destruct H as (k & -> & _). reflexivity.
  - intros i j sec e H He. cbn [routev2.rts] in H.
    apply list_lookup_fmap_Some in H. destruct H as (k & -> & _).
    cbn [routev2.rtSec routev2.slotMask] in *.
    apply list_lookup_fmap_Some in He. destruct He as (k' & -> & _).
    cbn [routev2.rtHash]. rewrite Z.bits_0. split; [discriminate|congruence].
Qed.

(** Replacing one section by a quiet one that satisfies the section
    invariants keeps the table well formed. *)
Lemma well_formed_v2_update rt (i : nat) sec w' es' :
  well_formed_v2 rt ->
  routev2.rts rt !! i = Some sec ->
  length es' = 8%nat ->
  0 <= w' < 2 ^ 8 ->
  (forall (j : nat) e, es' !! j = Some e ->
     (Z.testbit w' (Z.of_nat j) = true <-> routev2.rtHash e <> ∅)) ->
  well_formed_v2 (routev2.mkTable (<[i:=routev2.mkSection sync.zero w' es']> (routev2.rts rt))).
Proof.
  intros (Hlen & Hsecs & Hidle & Hocc) Hsec Hes Hw Hbits.
  pose proof (lookup_lt_Some _ _ _ Hsec) as Hlt.
  assert (Hcases : forall i' sec', <[i:=routev2.mkSection sync.zero w' es']> (routev2.rts rt) !! i' = Some sec' ->
            sec' = routev2.mkSection sync.zero w' es' \/ routev2.rts rt !! i' = Some sec').
  { intros i' sec' H. destruct (decide (i = i')) as [->|Hne].
    - rewrite list_lookup_insert_eq in H by assumption. injection H as <-. auto.
    - rewrite list_lookup_insert_ne in H by assumption. auto. }
  split; [cbn [routev2.rts]; rewrite length_insert; exact Hlen|].
  cbn [routev2.rts]. split; [|split].
  - intros i' sec' H. destruct (Hcases _ _ H) as [->|H']; [auto|eauto].
  - intros i' sec' H. destruct (Hcases _ _ H) as [->|H']; [reflexivity|eauto].
  - intros i' j sec' e H He. cbn [routev2.rts] in H.
    destruct (Hcases _ _ H) as [->|H']; [apply Hbits, He|eauto].
Qed.

Lemma AddRoute_well_formed_v2 rt network v err rt' :
  well_formed_v2 rt -> routev2.AddRoute network v rt = Done (err, rt') ->
  well_formed_v2 rt'.
Proof.
  intros Hwf H. pose proof Hwf as (Hlen & Hsecs & Hidle & Hocc).
  destruct (AddRoute_returns_v2 _ _ _ _ _ Hidle H)
    as [(_ & _ & ->)|(ipnet & key & i & j & sec & e & _ & _ & _ & _ & Hsec & He & _ & ->)];
    [exact Hwf|].
  destruct (Hsecs _ _ Hsec) as [Hes Hw].
  pose proof (lookup_lt_Some _ _ _ He) as Hlt. rewrite Hes in Hlt.
  rewrite slot_bit8 by assumption.
  apply well_formed_v2_update with (sec := sec); try assumption.
  - rewrite length_insert. exact Hes.
  - apply (set_bit_range 8); [lia|exact Hw].
  - intros j' e' Hj'. rewrite testbit_set_bit.
    destruct (decide (j = j')) as [->|Hne].
    + rewrite list_lookup_insert_eq in Hj' by lia. injection Hj' as <-.
      cbn [routev2.rtHash]. rewrite Nat.eqb_refl, orb_true_r.
      split; [intros _; apply insert_non_empty|reflexivity].
    + rewrite list_lookup_insert_ne in Hj' by assumption.
      replace (Nat.eqb j' j) with false by (symmetry; apply Nat.eqb_neq; congruence).
      rewrite orb_false_r. apply (Hocc _ _ _ _ Hsec Hj').
Qed.

Lemma DelRoute_well_formed_v2 rt network err rt' :
  well_formed_v2 rt -> routev2.DelRoute network rt = Done (err, rt') ->
  well_formed_v2 rt'.
Proof.
  intros Hwf H. pose proof Hwf as (Hlen & Hsecs & Hidle & Hocc).
  destruct (DelRoute_returns_v2 _ _ _ _ Hidle H)
    as [(_ & _ & ->)|(ipnet & key & i & j & sec & e & _ & _ & _ & _ & Hsec & He & _ & ->)];
    [exact Hwf|].
  destruct (Hsecs _ _ Hsec) as [Hes Hw].
  pose proof (lookup_lt_Some _ _ _ He) as Hlt. rewrite Hes in Hlt.
  rewrite slot_bit8 by assumption. unfold not8.
  apply well_formed_v2_update with (sec := sec); try assumption.
  - rewrite length_insert. exact Hes.
  - destruct (Nat.eqb _ 0); [|exact Hw]. apply (clear_bit_range 8); [lia|exact Hw].
  - intros j' e' Hj'.
    assert (Hj8 : (j' < 8)%nat).
    { apply lookup_lt_Some in Hj'. rewrite length_insert in Hj'. lia. }
    destruct (decide (j = j')) as [->|Hne].
    + rewrite list_lookup_insert_eq in Hj' by lia. injection Hj' as <-.
      cbn [routev2.rtHash].
      destruct (Nat.eqb_spec (size (delete key (routev2.rtHash e))) 0) as [Hz|Hnz].
      * rewrite (testbit_clear_bit _ 8) by (reflexivity || assumption).
        rewrite Nat.eqb_refl, andb_false_r.
        apply map_size_empty_iff in Hz. split; [discriminate|congruence].
      * split.
        -- intros _ Hempty. apply Hnz. rewrite Hempty. apply map_size_empty.
        -- intros _. apply (Hocc _ _ _ _ Hsec He). intros Hempty. apply Hnz.
           rewrite Hempty, delete_empty. apply map_size_empty.
    + rewrite list_lookup_insert_ne in Hj' by assumption.
      rewrite <- (Hocc _ _ _ _ Hsec Hj').
      destruct (Nat.eqb _ 0); [|reflexivity].
      rewrite (testbit_clear_bit _ 8) by (reflexivity || assumption).
      replace (Nat.eqb j' j) with false by (symmetry; apply Nat.eqb_neq; congruence).
      rewrite andb_true_r. reflexivity.
Qed.

Lemma run_well_formed_v2 (ops : list (op T)) rt errs rt' :
  well_formed_v2 rt -> run_v2 ops rt = Done (errs, rt') -> well_formed_v2 rt'.
Proof.
  revert rt errs. induction ops as [|o ops IH]; intros rt errs Hwf H.
  - cbn [run_v2] in H. unfold ret in H. injection H as <- <-. exact Hwf.
  - cbn [run_v2] in H. apply bind_inv in H. destruct H as (err & rt1 & Hstep & H).
    apply bind_inv in H. destruct H as (es & rt2 & Hrun & H).
    unfold ret in H. injection H as <- <-.
    eapply IH; [|exact Hrun].
    destruct o as [network v|network]; cbn [step_v2] in Hstep.
    + eapply AddRoute_well_formed_v2; eassumption.
    + eapply DelRoute_well_formed_v2; eassumption.
Qed.

(** ** The sectioned table: [RouteLookup] gives the read lock back with
    [Unlock] *)

Lemma section_mu_RLock_inv rt (i : Z) u rt1 :
  routev2.section_mu sync.RLock i rt = Done (u, rt1) ->
  exists sec1, index (routev2.rts rt1) i = Done sec1
               /\ sync.writerHeld (routev2.mu sec1) = false.
Proof.
  unfold routev2.section_mu. intros H.
  apply bind_inv in H. destruct H as (sec & rt0 & Hsec & H).
  apply bind_inv in H. destruct H as (m & rt0' & Hm & H).
  unfold routev2.section, lift in Hsec.
  destruct (index (routev2.rts rt) i) as [sec0| | |] eqn:Hidx; try discriminate.
  injection Hsec as -> <-.
  unfold lift, sync.RLock in Hm.
  destruct (sync.writerHeld (routev2.mu sec)); [discriminate|].
  injection Hm as <- <-.
  unfold routev2.set_section in H. injection H as _ <-.
  cbn [routev2.rts]. unfold index in *.
  destruct (i <? 0); [discriminate|].
  destruct (routev2.rts rt !! Z.to_nat i) as [sec0|] eqn:Hl; [|discriminate].
  apply lookup_lt_Some in Hl.
  rewrite list_lookup_insert_eq by exact Hl. eexists. split; reflexivity.
Qed.

Lemma section_mu_Unlock_fatal rt (i : Z) sec :
  index (routev2.rts rt) i = Done sec ->
  sync.writerHeld (routev2.mu sec) = false ->
  routev2.section_mu sync.Unlock i rt = Fatal.
Proof.
  intros Hidx Hw. unfold routev2.section_mu, bind, routev2.section, lift at 1.
  rewrite Hidx. unfold lift, sync.Unlock. rewrite Hw. reflexivity.
Qed.

Lemma RouteLookup_never_returns_v2 rt ip r : routev2.RouteLookup ip rt <> Done r.
Proof.
  unfold routev2.RouteLookup. cbn [Z.to_nat routev2.IpSection Pos.to_nat Pos.iter_op Nat.add].
  cbn [routev2.section_loop]. intros H.
  apply bind_inv in H. destruct H as (u & rt1 & Hlock & H).
  apply section_mu_RLock_inv in Hlock. destruct Hlock as (sec1 & Hidx & Hw).
  apply bind_inv in H. destruct H as (sec & rt2 & Hsec & H).
  unfold routev2.section, lift in Hsec. rewrite Hidx in Hsec. injection Hsec as <- <-.
  apply bind_inv in H. destruct H as (u' & rt3 & Hunlock & _).
  rewrite (section_mu_Unlock_fatal _ _ _ Hidx Hw) in Hunlock. discriminate Hunlock.
Qed.

End SectionedInvariants.
(** ** Parsing [A.B.C.D/N] *)

Section Parsing.

Lemma bytes_app (s1 s2 : string) :
  net.bytes (s1 +:+ s2) = net.bytes s1 ++ net.bytes s2.
Proof.
  induction s1 as [|c s1 IH]; [reflexivity|].
  cbn [String.append net.bytes app]. rewrite <- IH. reflexivity.
Qed.

Lemma dtoi_loop_app (l rest : list Z) (n : Z) (i : nat) :
  forallb net.isdigit l = true -> stops rest = true ->
  net.dtoi_loop (l ++ rest) n i = net.dtoi_loop l n i.
Proof.
  intros Hl Hrest. revert n i. induction l as [|c l IH]; intros n i.
  - cbn [app]. destruct rest as [|c rest]; [reflexivity|].
    cbn [stops] in Hrest. cbn [net.dtoi_loop].
    destruct (net.isdigit c); [discriminate|reflexivity].
  - cbn [forallb] in Hl. apply andb_true_iff in Hl. destruct Hl as [Hc Hl].
    cbn [app net.dtoi_loop]. rewrite Hc.
    destruct (net.big <=? n * 10 + (c - net.ch "0")); [reflexivity|apply IH, Hl].
Qed.

Lemma dec_check_all (n : Z) : octet n -> dec_check n = true.
Proof.
  intros Hn.
  assert (Hall : forallb (fun k => dec_check (Z.of_nat k)) (seq 0 256) = true)
    by (vm_compute; reflexivity).
  rewrite forallb_forall in Hall.
  specialize (Hall (Z.to_nat n)). rewrite Z2Nat.id in Hall by (unfold octet in Hn; lia).
  apply Hall, in_seq. unfold octet in Hn. lia.
Qed.

Lemma dec_facts (n : Z) :
  octet n ->
  let l := net.bytes (dec n) in
  forallb net.isdigit l = true
  /\ net.dtoi l = (n, length l, true)
  /\ (0 < length l)%nat
  /\ ((1 <? length l)%nat && (default 0 (l !! 0%nat) =? net.ch "0")) = false
  /\ forallb (fun c => negb (c =? net.ch "/")) l = true.
Proof.
  intros Hn l. pose proof (dec_check_all n Hn) as H. unfold dec_check in H.
  fold l in H. rewrite !andb_true_iff in H.
  destruct H as ((((H1 & H2) & H3) & H4) & H5).
  apply bool_decide_eq_true in H2. apply Nat.ltb_lt in H3.
  apply negb_true_iff in H4. auto.
Qed.

(** One turn of the octet loop of [parseIPv4] over a printed octet. *)
Lemma parseIPv4_loop_octet (k i : nat) (n : Z) (rest p : list Z) :
  octet n -> stops rest = true ->
  net.parseIPv4_loop (S k) i
    ((if Nat.eqb i 0 then [] else [net.ch "."]) ++ net.bytes (dec n) ++ rest) p
  = net.parseIPv4_loop k (S i) rest (p ++ [n]).
Proof.
  intros Hn Hrest. destruct (dec_facts n Hn) as (Hdig & Hdtoi & Hlen & Hlead & _).
  set (l := net.bytes (dec n)) in *.
  assert (Hparse : net.dtoi (l ++ rest) = (n, length l, true)).
  { unfold net.dtoi. rewrite dtoi_loop_app by assumption. exact Hdtoi. }
  assert (Hhead : (l ++ rest) !! 0%nat = l !! 0%nat).
  { apply lookup_app_l. exact Hlen. }
  assert (Hbody :
    (let s := l ++ rest in
     let '(n0, c, ok) := net.dtoi s in
     if negb ok || (0xFF <? n0) then None
     else if (1 <? c)%nat && (default 0 (s !! 0%nat) =? net.ch "0") then None
     else net.parseIPv4_loop k (S i) (drop c s) (p ++ [n0]))
    = net.parseIPv4_loop k (S i) rest (p ++ [n])).
  { cbn zeta. rewrite Hparse, Hhead, Hlead. cbn [negb orb].
    replace (0xFF <? n) with false by (symmetry; apply Z.ltb_ge; unfold octet in Hn; lia).
    rewrite drop_app_length. reflexivity. }
  destruct i as [|i].
  - cbn [Nat.eqb app]. destruct l as [|c0 l'] eqn:El; [simpl in Hlen; lia|].
    cbn [net.parseIPv4_loop app Nat.eqb negb andb]. exact Hbody.
  - cbn [Nat.eqb app net.parseIPv4_loop negb andb].
    rewrite Z.eqb_refl. cbn [negb]. exact Hbody.
Qed.

Lemma parseIPv4_dotted (a b c d : Z) :
  octet a -> octet b -> octet c -> octet d ->
  net.parseIPv4
    (net.bytes (dec a) ++ net.ch "." :: net.bytes (dec b) ++ net.ch "."
       :: net.bytes (dec c) ++ net.ch "." :: net.bytes (dec d))
  = Some (net.IPv4 a b c d).
Proof.
  intros Ha Hb Hc Hd. unfold net.parseIPv4, net.IPv4len.
  pose proof (parseIPv4_loop_octet 3 0 a) as H0. cbn [Nat.eqb app] in H0.
  rewrite H0 by (assumption || reflexivity).
  pose proof (parseIPv4_loop_octet 2 1 b) as H1. cbn [Nat.eqb app] in H1.
  rewrite H1 by (assumption || reflexivity).
  pose proof (parseIPv4_loop_octet 1 2 c) as H2. cbn [Nat.eqb app] in H2.
  rewrite H2 by (assumption || reflexivity).
  pose proof (parseIPv4_loop_octet 0 3 d [] ([] ++ [a] ++ [b] ++ [c])) as H3.
  cbn [Nat.eqb app] in H3. rewrite app_nil_r in H3.
  cbn [app]. rewrite H3 by (assumption || reflexivity). reflexivity.
Qed.

Lemma split_at_slash_app (l1 l2 : list Z) :
  forallb (fun c => negb (c =? net.ch "/")) l1 = true ->
  net.split_at_slash (l1 ++ net.ch "/" :: l2) = Some (l1, l2).
Proof.
  induction l1 as [|c l1 IH]; intros H.
  - cbn [app net.split_at_slash]. rewrite Z.eqb_refl. reflexivity.
  - cbn [forallb] in H. apply andb_true_iff in H. destruct H as [Hc H].
    cbn [app net.split_at_slash]. apply negb_true_iff in Hc. rewrite Hc.
    rewrite (IH H). reflexivity.
Qed.

Lemma CIDRMask_loop_length (l : nat) (n : Z) : length (net.CIDRMask_loop l n) = l.
Proof.
  revert n. induction l as [|l IH]; intros n; [reflexivity|].
  cbn [net.CIDRMask_loop]. destruct (8 <=? n); cbn [length]; rewrite IH; reflexivity.
Qed.

Lemma IP_Mask_v4 (a b c d : Z) (m : list Z) :
  length m = 4%nat ->
  net.IP_Mask (net.IPv4 a b c d) m = Some (zip_with Z.land [a; b; c; d] m).
Proof.
  intros Hlen.
  destruct m as [|m0 [|m1 [|m2 [|m3 [|m4 m]]]]]; try discriminate Hlen.
  reflexivity.
Qed.

(** [ParseCIDR] accepts every [A.B.C.D/N] of the specification and returns
    the masked four-byte address with the mask of [N] ones. *)
Lemma ParseCIDR_cidr4 (a b c d n : Z) :
  octet a -> octet b -> octet c -> octet d -> 0 <= n <= 32 ->
  net.ParseCIDR (cidr4 a b c d n) = Some (ipnet4 a b c d n).
Proof.
  intros Ha Hb Hc Hd Hn. unfold net.ParseCIDR, cidr4.
  rewrite !bytes_app. change (net.bytes ".") with [net.ch "."].
  change (net.bytes "/") with [net.ch "/"].
  destruct (dec_facts a Ha) as (_ & _ & _ & _ & Sa).
  destruct (dec_facts b Hb) as (_ & _ & _ & _ & Sb).
  destruct (dec_facts c Hc) as (_ & _ & _ & _ & Sc).
  destruct (dec_facts d Hd) as (_ & _ & _ & _ & Sd).
  assert (Hn' : octet n) by (unfold octet; lia).
  destruct (dec_facts n Hn') as (_ & Hmask & _ & _ & _).
  replace (net.bytes (dec a) ++ [net.ch "."] ++ net.bytes (dec b) ++ [net.ch "."]
             ++ net.bytes (dec c) ++ [net.ch "."] ++ net.bytes (dec d)
             ++ [net.ch "/"] ++ net.bytes (dec n))
    with ((net.bytes (dec a) ++ net.ch "." :: net.bytes (dec b) ++ net.ch "."
             :: net.bytes (dec c) ++ net.ch "." :: net.bytes (dec d))
            ++ net.ch "/" :: net.bytes (dec n))
    by (cbn [app]; rewrite <- !app_assoc; cbn [app];
        repeat (rewrite <- ?app_assoc; cbn [app]; f_equal)).
  rewrite split_at_slash_app.
  2:{ repeat (rewrite forallb_app; cbn [forallb]). rewrite Sa, Sb, Sc, Sd. reflexivity. }
  rewrite parseIPv4_dotted by assumption.
  rewrite Hmask. cbn [negb orb]. rewrite Nat.eqb_refl. cbn [negb orb].
  replace (n <? 0) with false by (symmetry; apply Z.ltb_ge; lia).
  replace (8 * Z.of_nat net.IPv4len <? n) with false
    by (symmetry; apply Z.ltb_ge; unfold net.IPv4len; lia).
  unfold net.CIDRMask.
  replace (n <? 0) with false by (symmetry; apply Z.ltb_ge; lia).
  replace (8 * Z.of_nat net.IPv4len <? n) with false
    by (symmetry; apply Z.ltb_ge; unfold net.IPv4len; lia).
  change (negb (8 * Z.of_nat net.IPv4len =? 8 * Z.of_nat net.IPv4len)
          && negb (8 * Z.of_nat net.IPv4len =? 8 * Z.of_nat net.IPv6len)) with false.
  cbn [orb]. change (Z.to_nat (8 * Z.of_nat net.IPv4len / 8)) with 4%nat.
  rewrite IP_Mask_v4 by apply CIDRMask_loop_length.
  reflexivity.
Qed.

Lemma Size_CIDRMask4 (n : Z) :
  0 <= n <= 32 -> net.Size (net.CIDRMask_loop 4 n) = (n, 32).
Proof.
  intros Hn.
  assert (Hall : forallb (fun k => bool_decide
                   (net.Size (net.CIDRMask_loop 4 (Z.of_nat k)) = (Z.of_nat k, 32)))
                   (seq 0 33) = true) by (vm_compute; reflexivity).
  rewrite forallb_forall in Hall.
  specialize (Hall (Z.to_nat n)). rewrite Z2Nat.id in Hall by lia.
  eapply bool_decide_eq_true_1, Hall, in_seq. lia.
Qed.

Lemma BigEndian_ipnet4 (a b c d n : Z) :
  exists key, binary.BigEndian_Uint32 (net.IP (ipnet4 a b c d n)) = Done key.
Proof.
  unfold ipnet4. cbn [net.IP].
  pose proof (CIDRMask_loop_length 4 n) as Hlen.
  destruct (net.CIDRMask_loop 4 n) as [|m0 [|m1 [|m2 [|m3 m]]]]; try discriminate Hlen.
  cbn. eauto.
Qed.

End Parsing.
(** ** Calls on well-formed IPv4 CIDR strings *)

Section ValidCalls.
Context {T : Type}.

Lemma index_beyond {A} (l : list A) (i : Z) :
  Z.of_nat (length l) <= i -> index l i = Panic.
Proof.
  intros H. unfold index. destruct (i <? 0); [reflexivity|].
  rewrite lookup_ge_None_2 by lia. reflexivity.
Qed.

Lemma maskLen_cidr4 (a b c d n : Z) :
  0 <= n <= 32 -> (net.Size (net.Mask (ipnet4 a b c d n))).1 = n.
Proof. intros Hn. unfold ipnet4. cbn [net.Mask]. rewrite Size_CIDRMask4 by exact Hn. reflexivity. Qed.

(** The flat table has no slot for prefix length 0: slot index 32 is one
    past the end of the array. *)
Lemma AddRoute_length0_panics (rt : route.routeTable T) (a b c d : Z) v :
  octet a -> octet b -> octet c -> octet d ->
  length (route.rts rt) = 32%nat ->
  route.AddRoute (cidr4 a b c d 0) v rt = Panic.
Proof.
  intros Ha Hb Hc Hd Hlen.
  apply AddRoute_out_of_range with (ipnet := ipnet4 a b c d 0).
  - apply ParseCIDR_cidr4; (assumption || lia).
  - rewrite maskLen_cidr4 by lia. apply index_beyond. rewrite Hlen. reflexivity.
Qed.

Lemma DelRoute_length0_panics (rt : route.routeTable T) (a b c d : Z) :
  octet a -> octet b -> octet c -> octet d ->
  length (route.rts rt) = 32%nat ->
  route.DelRoute (cidr4 a b c d 0) rt = Panic.
Proof.
  intros Ha Hb Hc Hd Hlen.
  apply DelRoute_out_of_range with (ipnet := ipnet4 a b c d 0).
  - apply ParseCIDR_cidr4; (assumption || lia).
  - rewrite maskLen_cidr4 by lia. apply index_beyond. rewrite Hlen. reflexivity.
Qed.

(** For the prefix lengths 1..32 the flat [AddRoute] and [DelRoute] return nil. *)
Lemma AddRoute_valid_ipv4 (rt : route.routeTable T) (a b c d n : Z) v :
  octet a -> octet b -> octet c -> octet d -> 1 <= n <= 32 ->
  length (route.rts rt) = 32%nat -> idle rt ->
  exists rt', route.AddRoute (cidr4 a b c d n) v rt = Done (nil_error, rt').
Proof.
  intros Ha Hb Hc Hd Hn Hlen Hidle.
  destruct (BigEndian_ipnet4 a b c d n) as [key Hk].
  destruct (lookup_lt_is_Some_2 (route.rts rt) (Z.to_nat (32 - n))) as [e He]; [lia|].
  eexists. eapply AddRoute_parsed; try eassumption.
  - apply ParseCIDR_cidr4; (assumption || lia).
  - rewrite maskLen_cidr4 by lia. unfold route.maskMaxLen. lia.
Qed.

Lemma DelRoute_valid_ipv4 (rt : route.routeTable T) (a b c d n : Z) :
  octet a -> octet b -> octet c -> octet d -> 1 <= n <= 32 ->
  length (route.rts rt) = 32%nat -> idle rt ->
  exists rt', route.DelRoute (cidr4 a b c d n) rt = Done (nil_error, rt').
Proof.
  intros Ha Hb Hc Hd Hn Hlen Hidle.
  destruct (BigEndian_ipnet4 a b c d n) as [key Hk].
  destruct (lookup_lt_is_Some_2 (route.rts rt) (Z.to_nat (32 - n))) as [e He]; [lia|].
  eexists. eapply DelRoute_parsed; try eassumption.
  - apply ParseCIDR_cidr4; (assumption || lia).
  - rewrite maskLen_cidr4 by lia. unfold route.maskMaxLen. lia.
Qed.

(** In the sectioned table [slot / IpSection] is past the last section for
    every prefix length up to 16. *)
Lemma ipID_beyond (n : Z) :
  0 <= n <= 16 -> 4 <= routev2.ipID_of (routev2.maskMaxLen - n).
Proof.
  intros Hn. unfold routev2.ipID_of, routev2.maskMaxLen, routev2.IpSection.
  rewrite Z.quot_div_nonneg by lia. apply Z.div_le_lower_bound; lia.
Qed.

Lemma AddRoute_short_prefix_panics_v2 (rt : routev2.routeTable T) (a b c d n : Z) v :
  octet a -> octet b -> octet c -> octet d -> 0 <= n <= 16 ->
  length (routev2.rts rt) = 4%nat ->
  routev2.AddRoute (cidr4 a b c d n) v rt = Panic.
Proof.
  intros Ha Hb Hc Hd Hn Hlen.
  apply AddRoute_out_of_range_v2 with (ipnet := ipnet4 a b c d n).
  - apply ParseCIDR_cidr4; (assumption || lia).
  - rewrite maskLen_cidr4 by lia. apply index_beyond. rewrite Hlen.
    pose proof (ipID_beyond n Hn). lia.
Qed.

Lemma DelRoute_short_prefix_panics_v2 (rt : routev2.routeTable T) (a b c d n : Z) :
  octet a -> octet b -> octet c -> octet d -> 0 <= n <= 16 ->
  length (routev2.rts rt) = 4%nat ->
  routev2.DelRoute (cidr4 a b c d n) rt = Panic.
Proof.
  intros Ha Hb Hc Hd Hn Hlen.
  apply DelRoute_out_of_range_v2 with (ipnet := ipnet4 a b c d n).
  - apply ParseCIDR_cidr4; (assumption || lia).
  - rewrite maskLen_cidr4 by lia. apply index_beyond. rewrite Hlen.
    pose proof (ipID_beyond n Hn). lia.
Qed.

(** ** Deleting a route that is not there *)

(** In a well-formed flat table, deleting a key its slot does not hold
    leaves the whole table as it was. *)
Lemma DelRoute_absent_unchanged (rt : route.routeTable T) network ipnet key (slot : nat) e :
  well_formed rt ->
  net.ParseCIDR network = Some ipnet ->
  binary.BigEndian_Uint32 (net.IP ipnet) = Done key ->
  route.maskMaxLen - (net.Size (net.Mask ipnet)).1 = Z.of_nat slot ->
  route.rts rt !! slot = Some e ->
  route.rtHash e !! key = None ->
  route.DelRoute network rt = Done (nil_error, rt).
Proof.
  intros (Hlen & Hidle & Hrange & Hocc) Hp Hk Hs He Habsent.
  rewrite (DelRoute_parsed _ _ _ _ _ _ Hp Hk Hs He Hidle).
  pose proof (lookup_lt_Some _ _ _ He) as Hlt. rewrite Hlen in Hlt.
  rewrite delete_id by exact Habsent.
  destruct rt as [m w l]. destruct e as [em ek eh].
  cbn [route.mu route.slotMask route.rts route.e_mu route.mask route.rtHash] in *.
  destruct Hidle as [Hmu Hemu]. cbn [route.mu route.rts] in *. subst m.
  pose proof (Hemu _ _ He) as Hz. cbn [route.e_mu] in Hz. subst em.
  rewrite list_insert_id by exact He.
  assert (Hw : (if Nat.eqb (size eh) 0
                then Z.land w (not32 (wrap32 (Z.shiftl 1 (wrap32 (Z.of_nat slot)))))
                else w) = w).
  { destruct (Nat.eqb_spec (size eh) 0) as [Hz|Hnz]; [|reflexivity].
    rewrite slot_bit32 by exact Hlt. unfold not32.
    apply (clear_clear_bit _ 32); [reflexivity|exact Hrange|].
    apply map_size_empty_iff in Hz.
    destruct (Z.testbit w (Z.of_nat slot)) eqn:Hbit; [|reflexivity].
    exfalso. apply (proj1 (Hocc _ _ He) Hbit). exact Hz. }
  rewrite Hw. reflexivity.
Qed.

Lemma DelRoute_absent_unchanged_v2 (rt : routev2.routeTable T) network ipnet key
    (i j : nat) sec e :
  well_formed_v2 rt ->
  net.ParseCIDR network = Some ipnet ->
  binary.BigEndian_Uint32 (net.IP ipnet) = Done key ->
  routev2.ipID_of (routev2.maskMaxLen - (net.Size (net.Mask ipnet)).1) = Z.of_nat i ->
  routev2.secID_of (routev2.maskMaxLen - (net.Size (net.Mask ipnet)).1) = Z.of_nat j ->
  routev2.rts rt !! i = Some sec ->
  routev2.rtSec sec !! j = Some e ->
  routev2.rtHash e !! key = None ->
  routev2.DelRoute network rt = Done (nil_error, rt).
Proof.
  intros (Hlen & Hsecs & Hidle & Hocc) Hp Hk Hi Hj Hsec He Habsent.
  rewrite (DelRoute_parsed_v2 _ _ _ _ _ _ _ _ Hp Hk Hi Hj Hsec He (Hidle _ _ Hsec)).
  destruct (Hsecs _ _ Hsec) as [Hes Hw].
  pose proof (lookup_lt_Some _ _ _ He) as Hlt. rewrite Hes in Hlt.
  pose proof (Hidle _ _ Hsec) as Hz.
  pose proof (Hocc _ _ _ _ Hsec He) as Hbit.
  rewrite delete_id by exact Habsent.
  destruct rt as [l]. destruct sec as [m w es]. destruct e as [ek eh].
  cbn [routev2.rts routev2.mu routev2.slotMask routev2.rtSec routev2.mask
       routev2.rtHash] in *. subst m.
  rewrite (list_insert_id es) by exact He.
  assert (Hw' : (if Nat.eqb (size eh) 0
                 then Z.land w (not8 (wrap8 (Z.shiftl 1 (wrap8 (Z.of_nat j)))))
                 else w) = w).
  { destruct (Nat.eqb_spec (size eh) 0) as [Hzero|Hnz]; [|reflexivity].
    rewrite slot_bit8 by exact Hlt. unfold not8.
    apply (clear_clear_bit _ 8); [reflexivity|exact Hw|].
    apply map_size_empty_iff in Hzero.
    destruct (Z.testbit w (Z.of_nat j)) eqn:Hb; [|reflexivity].
    exfalso. apply (proj1 Hbit eq_refl). exact Hzero. }
  rewrite Hw'. rewrite list_insert_id by exact Hsec. reflexivity.
Qed.

End ValidCalls.
(** ** The keys [AddRoute] stores are network addresses *)

Section StoredKeys.

Lemma byte_high_bits (x j : Z) : 0 <= x < 256 -> 8 <= j -> Z.testbit x j = false.
Proof.
  intros Hx Hj. destruct (Z.eq_dec x 0) as [->|Hne]; [apply Z.bits_0|].
  apply Z.bits_above_log2; [lia|].
  apply Z.lt_le_trans with 8; [|exact Hj].
  apply Z.log2_lt_pow2; [lia|]. change (2 ^ 8) with 256. lia.
Qed.

Lemma be32_testbit (a b c d i : Z) :
  0 <= i ->
  Z.testbit (be32 a b c d) i
  = Z.testbit d i || Z.testbit c (i - 8) || Z.testbit b (i - 16) || Z.testbit a (i - 24).
Proof.
  intros Hi. unfold be32. rewrite !Z.lor_spec, !Z.shiftl_spec by lia. reflexivity.
Qed.

(** Reading the bytes in big-endian order commutes with masking them. *)
Lemma be32_land (a b c d m0 m1 m2 m3 : Z) :
  0 <= a < 256 -> 0 <= b < 256 -> 0 <= c < 256 -> 0 <= d < 256 ->
  0 <= m0 < 256 -> 0 <= m1 < 256 -> 0 <= m2 < 256 -> 0 <= m3 < 256 ->
  be32 (Z.land a m0) (Z.land b m1) (Z.land c m2) (Z.land d m3)
  = Z.land (be32 a b c d) (be32 m0 m1 m2 m3).
Proof.
  intros Ha Hb Hc Hd H0 H1 H2 H3. apply Z.bits_inj'. intros i Hi.
  rewrite Z.land_spec, !be32_testbit, !Z.land_spec by exact Hi.
  destruct (Z.lt_ge_cases i 8) as [L8|G8].
  { rewrite !(Z.testbit_neg_r _ (i - 8)), !(Z.testbit_neg_r _ (i - 16)),
      !(Z.testbit_neg_r _ (i - 24)) by lia.
    rewrite !andb_false_r, !orb_false_r. reflexivity. }
  rewrite (byte_high_bits d i), (byte_high_bits m3 i) by assumption.
  destruct (Z.lt_ge_cases i 16) as [L16|G16].
  { rewrite !(Z.testbit_neg_r _ (i - 16)), !(Z.testbit_neg_r _ (i - 24)) by lia.
    rewrite !andb_false_r, !orb_false_r. reflexivity. }
  rewrite (byte_high_bits c (i - 8)), (byte_high_bits m2 (i - 8)) by (assumption || lia).
  destruct (Z.lt_ge_cases i 24) as [L24|G24].
  { rewrite !(Z.testbit_neg_r _ (i - 24)) by lia.
    rewrite !andb_false_r, !orb_false_r. reflexivity. }
  rewrite (byte_high_bits b (i - 16)), (byte_high_bits m1 (i - 16)) by (assumption || lia).
  reflexivity.
Qed.

Lemma mask_check_all (n : Z) : 0 <= n <= 32 -> mask_check n = true.
Proof.
  intros Hn.
  assert (Hall : forallb (fun k => mask_check (Z.of_nat k)) (seq 0 33) = true)
    by (vm_compute; reflexivity).
  rewrite forallb_forall in Hall.
  specialize (Hall (Z.to_nat n)). rewrite Z2Nat.id in Hall by lia.
  apply Hall, in_seq. lia.
Qed.

(** The key [AddRoute] and [DelRoute] compute for [A.B.C.D/N] is the address
    with its host bits cleared: masking it with the top-[N]-bits mask gives
    the key itself. *)
Lemma stored_key_network_address (a b c d n key : Z) :
  octet a -> octet b -> octet c -> octet d -> 0 <= n <= 32 ->
  binary.BigEndian_Uint32 (net.IP (ipnet4 a b c d n)) = Done key ->
  key = Z.land (be32 a b c d) (spec_mask n) /\ Z.land key (spec_mask n) = key.
Proof.
  unfold octet. intros Ha Hb Hc Hd Hn Hkey.
  pose proof (mask_check_all n Hn) as Hm. unfold mask_check in Hm.
  unfold ipnet4 in Hkey. cbn [net.IP] in Hkey.
  destruct (net.CIDRMask_loop 4 n) as [|m0 [|m1 [|m2 [|m3 [|m4 m]]]]]; try discriminate Hm.
  apply andb_true_iff in Hm. destruct Hm as [Hbytes Hspec].
  cbn [forallb] in Hbytes. rewrite !andb_true_iff in Hbytes.
  destruct Hbytes as ((L0 & U0) & (L1 & U1) & (L2 & U2) & (L3 & U3) & _).
  apply Z.leb_le in L0, L1, L2, L3. apply Z.ltb_lt in U0, U1, U2, U3.
  apply Z.eqb_eq in Hspec.
  cbn [zip_with binary.BigEndian_Uint32] in Hkey. injection Hkey as <-.
  fold (be32 (Z.land a m0) (Z.land b m1) (Z.land c m2) (Z.land d m3)).
  rewrite be32_land by lia. rewrite Hspec. split; [reflexivity|].
  rewrite <- Z.land_assoc, Z.land_diag. reflexivity.
Qed.

End StoredKeys.
(** * The claims *)

(** ** Construction: the precomputed masks *)

Lemma slot_mask_low_bits (i : Z) :
  0 <= i < 32 -> route.slot_mask i = 2 ^ (32 - i) - 1.
Proof.
  intros Hi. unfold route.slot_mask, route.maskMaxLen, wrap32.
  rewrite (Z.mod_small i) by lia.
  rewrite (Z.mod_small (32 - i)) by lia.
  rewrite Z.shiftl_1_l.
  destruct (Z.eq_dec i 0) as [->|Hne].
  - reflexivity.
  - assert (0 < 2 ^ (32 - i) < 2 ^ 32).
    { split; [apply Z.pow_pos_nonneg; lia|apply Z.pow_lt_mono_r; lia]. }
    rewrite (Z.mod_small (2 ^ (32 - i))) by lia.
    apply Z.mod_small. lia.
Qed.

(** C2. The masks [NewRouteTable] stores are the low-order ones: slot [i]
    (prefix length 32 - i) holds 2^(32-i) - 1 in both variants, which is the
    mask with the top 32 - i bits set only for slot 0; for /24 the table
    holds 0x00FFFFFF where the top-bits mask is 0xFFFFFF00. *)
Theorem C2_masks_are_low_bits (T : Type) :
  route.mask <$> route.rts (@route.NewRouteTable T)
    = (fun i => 2 ^ (32 - Z.of_nat i) - 1) <$> seq 0 32
  /\ concat ((fun sec => routev2.mask <$> routev2.rtSec sec)
               <$> routev2.rts (@routev2.NewRouteTable T))
    = (fun i => 2 ^ (32 - Z.of_nat i) - 1) <$> seq 0 32
  /\ route.slot_mask 8 = 0x00FFFFFF
  /\ spec_mask 24 = 0xFFFFFF00
  /\ route.slot_mask 0 = spec_mask 32
  /\ forallb (fun i => negb (route.slot_mask (Z.of_nat i) =? spec_mask (32 - Z.of_nat i)))
             (seq 1 31) = true.
Proof.
  repeat split; vm_compute; reflexivity.
Qed.

(** ** Longest-prefix match on the worked example *)

Lemma land_low_bits_ne (ip m : Z) :
  Z.testbit m 25 = false -> Z.land ip m <> net_10_0_0_0.
Proof.
  intros Hm H. apply (f_equal (fun z => Z.testbit z 25)) in H.
  rewrite Z.land_spec, Hm, andb_false_r in H. discriminate H.
Qed.

Lemma first_match_from_no_answer {T} (rt : route.routeTable T) ip n i :
  (forall j, probe rt ip j = None) -> first_match_from rt ip n i = None.
Proof.
  intros H. revert i. induction n as [|n IH]; intros i; [reflexivity|].
  cbn [first_match_from]. rewrite H. apply IH.
Qed.

(** The flat table after the two adds of the worked example. *)
Lemma exact_match_table {T} (V1 V2 : iface T) :
  (route.AddRoute "10.0.0.0/24" V1;; route.AddRoute "10.0.0.0/16" V2) route.NewRouteTable
  = Done (nil_error,
          route.mkTable sync.zero 0x10100
            (<[16%nat:=route.mkEntry sync.zero 0xFFFF (<[net_10_0_0_0:=V2]> ∅)]>
               (<[8%nat:=route.mkEntry sync.zero 0xFFFFFF (<[net_10_0_0_0:=V1]> ∅)]>
                  (route.rts route.NewRouteTable)))).
Proof. vm_compute. reflexivity. Qed.

Lemma exact_match_no_answer {T} (V1 V2 : iface T) (ip : Z) (j : nat) :
  probe
    (route.mkTable sync.zero 0x10100
       (<[16%nat:=route.mkEntry sync.zero 0xFFFF (<[net_10_0_0_0:=V2]> ∅)]>
          (<[8%nat:=route.mkEntry sync.zero 0xFFFFFF (<[net_10_0_0_0:=V1]> ∅)]>
             (route.rts route.NewRouteTable)))) ip j = None.
Proof.
  unfold probe. cbn [route.rts route.slotMask].
  destruct (decide (j = 16%nat)) as [->|H16].
  { cbn. apply lookup_insert_None. split; [apply lookup_empty|].
    intros H. symmetry in H. revert H. apply land_low_bits_ne. reflexivity. }
  rewrite list_lookup_insert_ne by congruence.
  destruct (decide (j = 8%nat)) as [->|H8].
  { cbn. apply lookup_insert_None. split; [apply lookup_empty|].
    intros H. symmetry in H. revert H. apply land_low_bits_ne. reflexivity. }
  rewrite list_lookup_insert_ne by congruence.
  destruct (route.rts route.NewRouteTable !! j) as [e|] eqn:He; [|reflexivity].
  cbn [mbind option_bind].
  unfold route.NewRouteTable in He. cbn [route.rts] in He.
  apply list_lookup_fmap_Some in He. destruct He as (k & -> & _).
  cbn [route.rtHash route.mask]. rewrite lookup_empty.
  destruct (Z.testbit _ _); reflexivity.
Qed.

(** C1. After adding 10.0.0.0/24 -> V1 and 10.0.0.0/16 -> V2 the flat table
    answers nil for 10.0.0.5, and for every other address, where
    longest-prefix match over these two prefixes gives V1 for 10.0.0.5; after
    deleting 10.0.0.0/24 it answers nil again, where the remaining prefix
    gives V2.  In the sectioned table the second add panics. *)
Theorem C1_exact_match_lookup_misses (T : Type) (V1 V2 : iface T) :
  spec_Lookup [mkPrefix net_10_0_0_0 24 V1; mkPrefix net_10_0_0_0 16 V2] ip_10_0_0_5
    = Some V1
  /\ (forall ip, value (exact_match_run V1 V2 ip route.NewRouteTable) = Done nil_iface)
  /\ spec_Lookup [mkPrefix net_10_0_0_0 16 V2] ip_10_0_0_5 = Some V2
  /\ value (exact_match_run_after_delete V1 V2 ip_10_0_0_5 route.NewRouteTable)
     = Done nil_iface
  /\ value (exact_match_run_v2 V1 V2 routev2.NewRouteTable) = Panic.
Proof.
  split; [vm_compute; reflexivity|].
  split; [|repeat split; vm_compute; reflexivity].
  intros ip. unfold exact_match_run.
  pose proof (exact_match_table V1 V2) as Hadds.
  apply bind_inv in Hadds. destruct Hadds as (e1 & rt1 & Hadd1 & Hadd2).
  pose proof (AddRoute_well_formed _ _ _ _ _ NewRouteTable_well_formed Hadd1) as Hwf1.
  pose proof (AddRoute_well_formed _ _ _ _ _ Hwf1 Hadd2) as (Hlen & Hidle & _).
  erewrite bind_Done by exact Hadd1.
  erewrite bind_Done by exact Hadd2.
  rewrite RouteLookup_first_match by assumption.
  unfold first_match. rewrite first_match_from_no_answer; [reflexivity|].
  apply exact_match_no_answer.
Qed.

(** ** Slots the calls index *)

(** C3. The default route 0.0.0.0/0, and every [A.B.C.D/0], makes the flat
    [AddRoute] and [DelRoute] panic (slot index 32 in an array of 32); in the
    sectioned table every prefix length up to 16 does (section index 4 or
    more in an array of 4). *)
Theorem C3_short_prefixes_panic (T : Type) (rt : route.routeTable T)
    (rt2 : routev2.routeTable T) (a b c d n : Z) (v : iface T) :
  octet a -> octet b -> octet c -> octet d -> 0 <= n <= 16 ->
  length (route.rts rt) = 32%nat -> length (routev2.rts rt2) = 4%nat ->
  route.AddRoute (cidr4 a b c d 0) v rt = Panic
  /\ route.DelRoute (cidr4 a b c d 0) rt = Panic
  /\ routev2.AddRoute (cidr4 a b c d n) v rt2 = Panic
  /\ routev2.DelRoute (cidr4 a b c d n) rt2 = Panic.
Proof.
  intros Ha Hb Hc Hd Hn Hlen Hlen2.
  split; [apply AddRoute_length0_panics; assumption|].
  split; [apply DelRoute_length0_panics; assumption|].
  split; [apply AddRoute_short_prefix_panics_v2; assumption|].
  apply DelRoute_short_prefix_panics_v2; assumption.
Qed.

Lemma C3_default_route_witness :
  route.AddRoute "0.0.0.0/0" (dyn "V"%string) route.NewRouteTable = Panic
  /\ route.DelRoute "0.0.0.0/0" (@route.NewRouteTable string) = Panic
  /\ routev2.AddRoute "0.0.0.0/0" (dyn "V"%string) routev2.NewRouteTable = Panic
  /\ routev2.DelRoute "0.0.0.0/0" (@routev2.NewRouteTable string) = Panic.
Proof.
  apply (C3_short_prefixes_panic string route.NewRouteTable routev2.NewRouteTable
           0 0 0 0 0 (dyn "V"%string));
    first [ reflexivity | unfold octet; lia | lia ].
Defined.

(** C4. The sectioned [AddRoute] and [DelRoute] take the section index as
    [slot / IpSection] (4), where [NewRouteTable] laid the slots out by
    [SectionSize] (8): 10.0.0.0/28 (slot 4) lands in section 1 at offset 4,
    the position [NewRouteTable] numbered 12 and gave the mask of prefix
    length 20; only slots 0..3 land where they were laid out.  Distinct slots
    do get distinct positions. *)
Theorem C4_sectioned_slot_misplaced (T : Type) (v : iface T) :
  routev2.idx_of (routev2.ipID_of 4) (routev2.secID_of 4) = 12
  /\ (exists rt,
        routev2.AddRoute "10.0.0.0/28" v routev2.NewRouteTable = Done (nil_error, rt)
        /\ stored_at_v2 rt 1 4 net_10_0_0_0 = Some v
        /\ stored_at_v2 rt 0 4 net_10_0_0_0 = None
        /\ mask_at_v2 rt 1 4 = Some (routev2.slot_mask 12)
        /\ mask_at_v2 rt 0 4 = Some (routev2.slot_mask 4))
  /\ filter (fun s => bool_decide
               (routev2.idx_of (routev2.ipID_of (Z.of_nat s)) (routev2.secID_of (Z.of_nat s))
                = Z.of_nat s)) (seq 0 33) = [0; 1; 2; 3]%nat
  /\ forallb (fun s1 => forallb (fun s2 =>
        implb (bool_decide
                 (routev2.ipID_of (Z.of_nat s1) = routev2.ipID_of (Z.of_nat s2)
                  /\ routev2.secID_of (Z.of_nat s1) = routev2.secID_of (Z.of_nat s2)))
              (Nat.eqb s1 s2)) (seq 0 33)) (seq 0 33) = true.
Proof.
  split; [reflexivity|]. split; [|split; vm_compute; reflexivity].
  eexists. split; [vm_compute; reflexivity|].
  repeat split; vm_compute; reflexivity.
Qed.

(** ** The occupancy words *)

Lemma NewRouteTable_empty (T : Type) :
  route.slotMask (@route.NewRouteTable T) = 0
  /\ Forall (fun e => route.rtHash e = ∅) (route.rts (@route.NewRouteTable T))
  /\ Forall (fun sec => routev2.slotMask sec = 0
                        /\ Forall (fun e => routev2.rtHash e = ∅) (routev2.rtSec sec))
       (routev2.rts (@routev2.NewRouteTable T)).
Proof.
  split; [reflexivity|]. split.
  - unfold route.NewRouteTable. cbn [route.rts]. apply Forall_fmap, Forall_true.
    intros i. reflexivity.
  - unfold routev2.NewRouteTable. cbn [routev2.rts]. apply Forall_fmap, Forall_true.
    intros i. split; [reflexivity|]. cbn [routev2.rtSec].
    apply Forall_fmap, Forall_true. intros j. reflexivity.
Qed.

(** C5. Whatever calls are made on a table built by [NewRouteTable], once
    they have all returned, bit [j] of each occupancy word is set iff the
    map of its slot [j] is not empty; in the flat table and in the sectioned
    one. *)
Theorem C5_occupancy_invariant (T : Type) (ops ops2 : list (op T))
    (errs : list error) (rt : route.routeTable T)
    (errs2 : list error) (rt2 : routev2.routeTable T) :
  run ops route.NewRouteTable = Done (errs, rt) ->
  run_v2 ops2 routev2.NewRouteTable = Done (errs2, rt2) ->
  occupancy rt /\ occupancy_v2 rt2.
Proof.
  intros Hrun Hrun2. split.
  - apply (run_well_formed ops _ errs rt NewRouteTable_well_formed Hrun).
  - apply (run_well_formed_v2 ops2 _ errs2 rt2 NewRouteTable_well_formed_v2 Hrun2).
Qed.

Lemma C5_occupancy_witness :
  occupancy (table_after sample_calls) /\ occupancy_v2 (table_after_v2 sample_calls_v2).
Proof.
  apply (C5_occupancy_invariant string sample_calls sample_calls_v2
           [nil_error; nil_error; nil_error; nil_error] (table_after sample_calls)
           [nil_error; nil_error; nil_error] (table_after_v2 sample_calls_v2));
    vm_compute; reflexivity.
Defined.

(** ** Stored keys *)

(** C6. After [AddRoute("10.0.0.0/24", v)] slot 8 of the flat table holds
    the key 10.0.0.0, and masking that key with the slot's precomputed mask
    0x00FFFFFF gives 0, not the key; with the top-24-bits mask the key is
    unchanged.  The sectioned table stores the key under a mask that clears
    it as well. *)
Theorem C6_stored_key_not_canonical (T : Type) (v : iface T) :
  (exists rt e,
     route.AddRoute "10.0.0.0/24" v route.NewRouteTable = Done (nil_error, rt)
     /\ route.rts rt !! 8%nat = Some e
     /\ route.rtHash e !! net_10_0_0_0 = Some v
     /\ route.mask e = 0x00FFFFFF
     /\ Z.land net_10_0_0_0 (route.mask e) = 0
     /\ Z.land net_10_0_0_0 (route.mask e) <> net_10_0_0_0)
  /\ Z.land net_10_0_0_0 (spec_mask 24) = net_10_0_0_0
  /\ (exists rt m,
        routev2.AddRoute "10.0.0.0/24" v routev2.NewRouteTable = Done (nil_error, rt)
        /\ stored_at_v2 rt 2 0 net_10_0_0_0 = Some v
        /\ mask_at_v2 rt 2 0 = Some m
        /\ Z.land net_10_0_0_0 m <> net_10_0_0_0).
Proof.
  split; [|split; [reflexivity|]].
  - eexists. eexists. split; [vm_compute; reflexivity|].
    split; [vm_compute; reflexivity|].
    split; [vm_compute; reflexivity|].
    split; [reflexivity|]. split; [reflexivity|]. cbn. discriminate.
  - eexists. eexists. split; [vm_compute; reflexivity|].
    split; [vm_compute; reflexivity|].
    split; [vm_compute; reflexivity|]. vm_compute. discriminate.
Qed.

(** ** Errors *)

Lemma not_ipv4_cidr_of_long_mask (s : string) ipnet :
  net.ParseCIDR s = Some ipnet -> length (net.Mask ipnet) <> 4%nat ->
  ~ spec_valid_ipv4_cidr s.
Proof.
  intros Hp Hlen (a & b & c & d & n & Ha & Hb & Hc & Hd & Hn & ->).
  rewrite ParseCIDR_cidr4 in Hp by assumption. injection Hp as <-.
  apply Hlen. unfold ipnet4. cbn [net.Mask]. apply CIDRMask_loop_length.
Qed.

(** A call whose string parses never returns an error. *)
Ltac peel H :=
  repeat first
    [ apply bind_inv in H; destruct H as (? & ? & _ & H)
    | match type of H with
      | (if ?c then _ else _) _ = _ => destruct c
      end ];
  unfold ret in H; discriminate H.

Lemma AddRoute_no_error_after_parse {T} (rt : route.routeTable T) s v ipnet :
  net.ParseCIDR s = Some ipnet -> ~ returns_error (route.AddRoute s v rt).
Proof.
  intros Hp. destruct (route.AddRoute s v rt) as [[[|txt] rt']| | |] eqn:H;
    cbn [returns_error]; auto.
  intros _. unfold route.AddRoute in H. rewrite Hp in H. peel H.
Qed.

Lemma DelRoute_no_error_after_parse {T} (rt : route.routeTable T) s ipnet :
  net.ParseCIDR s = Some ipnet -> ~ returns_error (route.DelRoute s rt).
Proof.
  intros Hp. destruct (route.DelRoute s rt) as [[[|txt] rt']| | |] eqn:H;
    cbn [returns_error]; auto.
  intros _. unfold route.DelRoute in H. rewrite Hp in H. peel H.
Qed.

Lemma AddRoute_no_error_after_parse_v2 {T} (rt : routev2.routeTable T) s v ipnet :
  net.ParseCIDR s = Some ipnet -> ~ returns_error (routev2.AddRoute s v rt).
Proof.
  intros Hp. destruct (routev2.AddRoute s v rt) as [[[|txt] rt']| | |] eqn:H;
    cbn [returns_error]; auto.
  intros _. unfold routev2.AddRoute in H. rewrite Hp in H. peel H.
Qed.

Lemma DelRoute_no_error_after_parse_v2 {T} (rt : routev2.routeTable T) s ipnet :
  net.ParseCIDR s = Some ipnet -> ~ returns_error (routev2.DelRoute s rt).
Proof.
  intros Hp. destruct (routev2.DelRoute s rt) as [[[|txt] rt']| | |] eqn:H;
    cbn [returns_error]; auto.
  intros _. unfold routev2.DelRoute in H. rewrite Hp in H. peel H.
Qed.

(** C7, as stated, fails: 2001:db8::/32 is not an IPv4 CIDR string, yet
    [AddRoute] and [DelRoute] return nil for it in both variants. *)
Lemma C7_ipv6_literal_accepted :
  ~ spec_valid_ipv4_cidr "2001:db8::/32"
  /\ ~ (returns_error (route.AddRoute "2001:db8::/32" (dyn "V"%string) route.NewRouteTable)
        <-> ~ spec_valid_ipv4_cidr "2001:db8::/32")
  /\ value (route.AddRoute "2001:db8::/32" (dyn "V"%string) route.NewRouteTable)
     = Done nil_error
  /\ value (route.DelRoute "2001:db8::/32" (@route.NewRouteTable string)) = Done nil_error
  /\ value (routev2.AddRoute "2001:db8::/32" (dyn "V"%string) routev2.NewRouteTable)
     = Done nil_error
  /\ value (routev2.DelRoute "2001:db8::/32" (@routev2.NewRouteTable string))
     = Done nil_error.
Proof.
  assert (Hnot : ~ spec_valid_ipv4_cidr "2001:db8::/32").
  { eapply not_ipv4_cidr_of_long_mask; [vm_compute; reflexivity|].
    vm_compute. discriminate. }
  split; [exact Hnot|]. split.
  - intros [_ H]. specialize (H Hnot). vm_compute in H. exact H.
  - repeat split; vm_compute; reflexivity.
Qed.

(** C7, amended. [AddRoute] and [DelRoute] return an error exactly when
    [net.ParseCIDR] rejects the string, in both variants and from any table;
    every [A.B.C.D/N] of the specification is accepted by [net.ParseCIDR]. *)
Theorem C7_error_iff_parse_rejects (T : Type) (s : string) (v : iface T)
    (rt : route.routeTable T) (rt2 : routev2.routeTable T) :
  (returns_error (route.AddRoute s v rt) <-> net.ParseCIDR s = None)
  /\ (returns_error (route.DelRoute s rt) <-> net.ParseCIDR s = None)
  /\ (returns_error (routev2.AddRoute s v rt2) <-> net.ParseCIDR s = None)
  /\ (returns_error (routev2.DelRoute s rt2) <-> net.ParseCIDR s = None)
  /\ (spec_valid_ipv4_cidr s -> net.ParseCIDR s <> None).
Proof.
  assert (Hnone : forall (S : Type) (o : outcome (error * S)) (P : Prop),
            (net.ParseCIDR s = None -> returns_error o) ->
            (forall ipnet, net.ParseCIDR s = Some ipnet -> ~ returns_error o) ->
            (returns_error o <-> net.ParseCIDR s = None)).
  { intros S o _ H1 H2. split; [|exact H1].
    intros Herr. destruct (net.ParseCIDR s) as [ipnet|] eqn:Hp; [|reflexivity].
    exfalso. exact (H2 ipnet eq_refl Herr). }
  split; [|split; [|split; [|split]]].
  - apply (Hnone _ _ True).
    + intros Hp. unfold route.AddRoute. rewrite Hp. exact I.
    + intros ipnet Hp. apply (AddRoute_no_error_after_parse _ _ _ _ Hp).
  - apply (Hnone _ _ True).
    + intros Hp. unfold route.DelRoute. rewrite Hp. exact I.
    + intros ipnet Hp. apply (DelRoute_no_error_after_parse _ _ _ Hp).
  - apply (Hnone _ _ True).
    + intros Hp. unfold routev2.AddRoute. rewrite Hp. exact I.
    + intros ipnet Hp. apply (AddRoute_no_error_after_parse_v2 _ _ _ _ Hp).
  - apply (Hnone _ _ True).
    + intros Hp. unfold routev2.DelRoute. rewrite Hp. exact I.
    + intros ipnet Hp. apply (DelRoute_no_error_after_parse_v2 _ _ _ Hp).
  - intros (a & b & c & d & n & Ha & Hb & Hc & Hd & Hn & ->).
    rewrite ParseCIDR_cidr4 by assumption. discriminate.
Qed.

Lemma C7_error_iff_parse_rejects_witness :
  net.ParseCIDR "10.0.0.0/24" <> None
  /\ (returns_error (route.AddRoute "10.0.0/24" (dyn "V"%string) route.NewRouteTable)
      <-> net.ParseCIDR "10.0.0/24" = None).
Proof.
  split.
  - apply (C7_error_iff_parse_rejects string "10.0.0.0/24" (dyn "V"%string)
             route.NewRouteTable routev2.NewRouteTable).
    exists 10, 0, 0, 0, 24. unfold octet. repeat split; try lia.
  - apply (C7_error_iff_parse_rejects string "10.0.0/24" (dyn "V"%string)
             route.NewRouteTable routev2.NewRouteTable).
Defined.

(** ** Lookup returns, or does not *)

(** The flat [RouteLookup] returns from every quiet table of 32 slots and
    leaves it as it was. *)
Lemma RouteLookup_total {T} (rt : route.routeTable T) (ip : Z) :
  length (route.rts rt) = 32%nat -> idle rt ->
  exists v, route.RouteLookup ip rt = Done (v, rt).
Proof.
  intros Hlen Hidle. eexists. apply RouteLookup_first_match; assumption.
Qed.

(** From a well-formed sectioned table the lookup ends in the fatal error
    of the run-time. *)
Lemma RouteLookup_fatal_v2 {T} (rt : routev2.routeTable T) (ip : Z) :
  well_formed_v2 rt -> routev2.RouteLookup ip rt = Fatal.
Proof.
  intros (Hlen & _ & Hidle & _).
  destruct (lookup_lt_is_Some_2 (routev2.rts rt) 0) as [sec Hsec]; [lia|].
  pose proof (Hidle _ _ Hsec) as Hz.
  pose proof (lookup_lt_Some _ _ _ Hsec) as Hlt.
  unfold routev2.RouteLookup. change (Z.to_nat routev2.IpSection) with 4%nat.
  cbn [routev2.section_loop]. change 0 with (Z.of_nat 0).
  erewrite bind_Done
    by (eapply section_mu_ok; [exact Hsec|rewrite Hz; reflexivity]).
  erewrite bind_Done
    by (apply section_ok; cbn [routev2.rts]; apply list_lookup_insert_eq; exact Hlt).
  apply bind_Fatal. eapply section_mu_Unlock_fatal.
  - unfold index. cbn [routev2.rts Z.of_nat Z.ltb Z.compare Z.to_nat].
    rewrite list_lookup_insert_eq by exact Hlt. reflexivity.
  - reflexivity.
Qed.

(** C8. The sectioned [RouteLookup] takes each section's lock with [RLock]
    and gives it back with [Unlock]: on the table [NewRouteTable] builds it
    ends in the run-time's fatal error for every address, and from no table
    state at all does it return. *)
Theorem C8_sectioned_lookup_never_returns (T : Type) (ip : Z) :
  routev2.RouteLookup ip (@routev2.NewRouteTable T) = Fatal
  /\ (forall (rt : routev2.routeTable T) r, routev2.RouteLookup ip rt <> Done r).
Proof.
  split; [reflexivity|]. intros rt r. apply RouteLookup_never_returns_v2.
Qed.

(** ** Deleting what is not there *)

(** C9. On a table that holds no route at all, deleting 0.0.0.0/0 panics in
    the flat table, and deleting 0.0.0.0/0 or 10.0.0.0/16 panics in the
    sectioned one, where a no-op that returns nil was to be expected; a
    prefix whose slot exists is deleted as a no-op (10.0.0.0/24). *)
Theorem C9_delete_absent_short_prefix_panics (T : Type) :
  route.DelRoute "0.0.0.0/0" (@route.NewRouteTable T) = Panic
  /\ routev2.DelRoute "0.0.0.0/0" (@routev2.NewRouteTable T) = Panic
  /\ routev2.DelRoute "10.0.0.0/16" (@routev2.NewRouteTable T) = Panic
  /\ route.DelRoute "10.0.0.0/24" (@route.NewRouteTable T)
     = Done (nil_error, route.NewRouteTable)
  /\ routev2.DelRoute "10.0.0.0/24" (@routev2.NewRouteTable T)
     = Done (nil_error, routev2.NewRouteTable).
Proof.
  repeat split; vm_compute; reflexivity.
Qed.

(** ** nil values *)

(** C10. After adding 10.0.0.0/24 with the nil value and 0.0.0.0/8 with the
    value [V], both calls returning nil, the best match of 10.0.0.0 (the only
    prefix that contains it, 10.0.0.0/24) holds nil; the flat [RouteLookup]
    returns [V] for 10.0.0.0 and leaves the table as it is, where it returns
    nil from a table in which no route matches.  In the sectioned table the
    add of 10.0.0.0/24 with the nil value returns nil, and [RouteLookup] ends
    in the run-time's fatal error instead of returning. *)
Theorem C10_nil_best_match_not_returned (T : Type) (V : T) :
  run (nil_route_calls V) route.NewRouteTable
    = Done ([nil_error; nil_error], table_after (nil_route_calls V))
  /\ spec_best (nil_route_prefixes V) net_10_0_0_0
     = Some (mkPrefix net_10_0_0_0 24 nil_iface)
  /\ spec_Lookup (nil_route_prefixes V) net_10_0_0_0 = Some nil_iface
  /\ route.RouteLookup net_10_0_0_0 (table_after (nil_route_calls V))
     = Done (dyn V, table_after (nil_route_calls V))
  /\ value (route.RouteLookup net_10_0_0_0 (@route.NewRouteTable T)) = Done nil_iface
  /\ run_v2 [Add "10.0.0.0/24" (@nil_iface T)] routev2.NewRouteTable
     = Done ([nil_error], table_after_v2 [Add "10.0.0.0/24" (@nil_iface T)])
  /\ routev2.RouteLookup net_10_0_0_0
       (table_after_v2 [Add "10.0.0.0/24" (@nil_iface T)]) = Fatal.
Proof.
  repeat split; vm_compute; reflexivity.
Qed.

(** * Further properties of the code *)

(** ** Shared facts *)

Section MoreFlatFacts.
Context {T : Type}.
Implicit Types (rt : route.routeTable T) (e : route.rtEntry T).

Lemma first_match_from_Some rt ip n i v :
  first_match_from rt ip n i = Some v ->
  exists k, (i <= k < i + n)%nat /\ probe rt ip k = Some v
            /\ forall j, (i <= j < k)%nat -> probe rt ip j = None.
Proof.
  revert i. induction n as [|n IH]; intros i H; [discriminate H|].
  cbn [first_match_from] in H.
  destruct (probe rt ip i) as [w|] eqn:Hp.
  - injection H as ->. exists i. split; [lia|]. split; [exact Hp|]. intros j Hj. lia.
  - destruct (IH _ H) as (k & Hk & Hpk & Hbefore).
    exists k. split; [lia|]. split; [exact Hpk|].
    intros j Hj. destruct (decide (j = i)) as [->|Hne]; [exact Hp|].
    apply Hbefore. lia.
Qed.

Lemma first_match_from_None rt ip n i :
  first_match_from rt ip n i = None ->
  forall j, (i <= j < i + n)%nat -> probe rt ip j = None.
Proof.
  revert i. induction n as [|n IH]; intros i H j Hj; [lia|].
  cbn [first_match_from] in H.
  destruct (probe rt ip i) as [w|] eqn:Hp; [discriminate H|].
  destruct (decide (j = i)) as [->|Hne]; [exact Hp|].
  apply (IH _ H). lia.
Qed.

Lemma probe_beyond rt ip j :
  (length (route.rts rt) <= j)%nat -> probe rt ip j = None.
Proof.
  intros H. unfold probe. rewrite lookup_ge_None_2 by exact H. reflexivity.
Qed.

Lemma NewRouteTable_masks_kept : masks_kept (@route.NewRouteTable T).
Proof.
  intros i e H. unfold route.NewRouteTable in H. cbn [route.rts] in H.
  apply list_lookup_fmap_Some in H. destruct H as (k & -> & Hk).
  cbn [route.mask]. apply lookup_seq in Hk. destruct Hk as [-> _]. reflexivity.
Qed.

Lemma masks_kept_insert rt w m (slot : nat) e h :
  masks_kept rt -> route.rts rt !! slot = Some e ->
  masks_kept (route.mkTable m w
                (<[slot:=route.mkEntry sync.zero (route.mask e) h]> (route.rts rt))).
Proof.
  intros Hm He i e' Hi. cbn [route.rts] in Hi.
  destruct (decide (slot = i)) as [->|Hne].
  - rewrite list_lookup_insert_eq in Hi by (eapply lookup_lt_Some; exact He).
    injection Hi as <-. cbn [route.mask]. apply (Hm _ _ He).
  - rewrite list_lookup_insert_ne in Hi by assumption. apply (Hm _ _ Hi).
Qed.

Lemma AddRoute_masks_kept rt network v err rt' :
  idle rt -> masks_kept rt -> route.AddRoute network v rt = Done (err, rt') ->
  masks_kept rt'.
Proof.
  intros Hidle Hm H.
  destruct (AddRoute_returns _ _ _ _ _ Hidle H)
    as [(_ & _ & ->)|(ipnet & key & slot & e & _ & _ & _ & He & _ & ->)];
    [exact Hm|].
  apply masks_kept_insert; assumption.
Qed.

Lemma DelRoute_masks_kept rt network err rt' :
  idle rt -> masks_kept rt -> route.DelRoute network rt = Done (err, rt') ->
  masks_kept rt'.
Proof.
  intros Hidle Hm H.
  destruct (DelRoute_returns _ _ _ _ Hidle H)
    as [(_ & _ & ->)|(ipnet & key & slot & e & _ & _ & _ & He & _ & ->)];
    [exact Hm|].
  apply masks_kept_insert; assumption.
Qed.

Lemma run_kept (ops : list (op T)) rt errs rt' :
  well_formed rt -> masks_kept rt -> run ops rt = Done (errs, rt') ->
  well_formed rt' /\ masks_kept rt' /\ length errs = length ops.
Proof.
  revert rt errs. induction ops as [|o ops IH]; intros rt errs Hwf Hm H.
  - cbn [run] in H. unfold ret in H. injection H as <- <-. auto.
  - cbn [run] in H. apply bind_inv in H. destruct H as (err & rt1 & Hstep & H).
    apply bind_inv in H. destruct H as (es & rt2 & Hrun & H).
    unfold ret in H. injection H as <- <-.
    assert (Hwf1 : well_formed rt1) by (eapply step_well_formed; eassumption).
    assert (Hm1 : masks_kept rt1).
    { destruct Hwf as (_ & Hidle & _). destruct o as [network v|network]; cbn [step] in Hstep.
      - eapply AddRoute_masks_kept; eassumption.
      - eapply DelRoute_masks_kept; eassumption. }
    destruct (IH _ _ Hwf1 Hm1 Hrun) as (Hwf' & Hm' & Hlen).
    split; [exact Hwf'|]. split; [exact Hm'|]. cbn [length]. rewrite Hlen. reflexivity.
Qed.

(** Every call on a well-formed flat table panics or returns. *)
Lemma AddRoute_outcomes rt network v :
  idle rt ->
  route.AddRoute network v rt = Panic
  \/ exists err rt', route.AddRoute network v rt = Done (err, rt').
Proof.
  intros Hidle. destruct (net.ParseCIDR network) as [ipnet|] eqn:Hp.
  - destruct (index_cases (route.rts rt)
                (route.maskMaxLen - (net.Size (net.Mask ipnet)).1))
      as [Hpanic|(slot & e & Hs & He & _)].
    { left. eapply AddRoute_out_of_range; eassumption. }
    destruct (BigEndian_cases (net.IP ipnet)) as [Hk|[key Hk]].
    { left. unfold route.AddRoute. rewrite Hp. apply bind_Panic.
      unfold lift. rewrite Hk. reflexivity. }
    right. eexists. eexists. eapply AddRoute_parsed; eassumption.
  - right. exists (ParseError network), rt. unfold route.AddRoute. rewrite Hp. reflexivity.
Qed.

Lemma DelRoute_outcomes rt network :
  idle rt ->
  route.DelRoute network rt = Panic
  \/ exists err rt', route.DelRoute network rt = Done (err, rt').
Proof.
  intros Hidle. destruct (net.ParseCIDR network) as [ipnet|] eqn:Hp.
  - destruct (index_cases (route.rts rt)
                (route.maskMaxLen - (net.Size (net.Mask ipnet)).1))
      as [Hpanic|(slot & e & Hs & He & _)].
    { left. eapply DelRoute_out_of_range; eassumption. }
    destruct (BigEndian_cases (net.IP ipnet)) as [Hk|[key Hk]].
    { left. unfold route.DelRoute. rewrite Hp. apply bind_Panic.
      unfold lift. rewrite Hk. reflexivity. }
    right. eexists. eexists. eapply DelRoute_parsed; eassumption.
  - right. exists (ParseError network), rt. unfold route.DelRoute. rewrite Hp. reflexivity.
Qed.

End MoreFlatFacts.

Lemma host_table_kept : well_formed host_table /\ masks_kept host_table.
Proof.
  destruct (run_kept [Add "10.0.0.5/32" (dyn "V"%string)] route.NewRouteTable
              [nil_error] host_table) as (H1 & H2 & _).
  - apply NewRouteTable_well_formed.
  - apply NewRouteTable_masks_kept.
  - vm_compute. reflexivity.
  - split; assumption.
Qed.

Lemma sample_table_kept : well_formed sample_table /\ masks_kept sample_table.
Proof.
  destruct (run_kept sample_calls route.NewRouteTable
              [nil_error; nil_error; nil_error; nil_error] sample_table) as (H1 & H2 & _).
  - apply NewRouteTable_well_formed.
  - apply NewRouteTable_masks_kept.
  - vm_compute. reflexivity.
  - split; assumption.
Qed.

(** ** The flat lookup *)

(** X1. On a well-formed flat table [RouteLookup] returns, leaves the table
    (locks included) as it was, and its result is the answer of the
    lowest-numbered slot that answers for the address, or nil when no slot
    answers. *)
Theorem X1_flat_lookup_lowest_answering_slot (T : Type) (rt : route.routeTable T)
    (ip : Z) :
  well_formed rt ->
  exists v,
    route.RouteLookup ip rt = Done (v, rt)
    /\ ((v = nil_iface /\ forall j, probe rt ip j = None)
        \/ exists i, probe rt ip i = Some v
                     /\ forall j, (j < i)%nat -> probe rt ip j = None).
Proof.
  intros (Hlen & Hidle & _).
  exists (default nil_iface (first_match rt ip)).
  split; [apply RouteLookup_first_match; assumption|].
  unfold first_match. destruct (first_match_from rt ip 32 0) as [v|] eqn:H.
  - right. destruct (first_match_from_Some _ _ _ _ _ H) as (k & _ & Hk & Hbefore).
    exists k. split; [exact Hk|]. intros j Hj. apply Hbefore. lia.
  - left. split; [reflexivity|]. intros j.
    destruct (decide (j < 32)%nat) as [Hlt|Hge].
    + apply (first_match_from_None _ _ _ _ H). lia.
    + apply probe_beyond. lia.
Qed.

Lemma X1_flat_lookup_witness :
  exists v,
    route.RouteLookup ip_10_0_0_5 host_table = Done (v, host_table)
    /\ ((v = nil_iface /\ forall j, probe host_table ip_10_0_0_5 j = None)
        \/ exists i, probe host_table ip_10_0_0_5 i = Some v
                     /\ forall j, (j < i)%nat -> probe host_table ip_10_0_0_5 j = None).
Proof.
  apply (X1_flat_lookup_lowest_answering_slot string host_table ip_10_0_0_5).
  exact (proj1 host_table_kept).
Defined.

(** X2. On the table [NewRouteTable] builds, [RouteLookup] returns nil for
    every address and leaves the table as it was. *)
Theorem X2_flat_lookup_fresh_table (T : Type) (ip : Z) :
  route.RouteLookup ip (@route.NewRouteTable T) = Done (nil_iface, route.NewRouteTable).
Proof.
  pose proof (@NewRouteTable_well_formed T) as (Hlen & Hidle & _).
  rewrite RouteLookup_first_match by assumption.
  unfold first_match. rewrite first_match_from_unset; [reflexivity|].
  intros j _. apply Z.bits_0.
Qed.

(** ** Host routes *)

Lemma be32_range (a b c d : Z) :
  octet a -> octet b -> octet c -> octet d -> Z.land (be32 a b c d) 0xFFFFFFFF = be32 a b c d.
Proof.
  unfold octet. intros Ha Hb Hc Hd. apply Z.bits_inj'. intros i Hi.
  rewrite Z.land_spec. destruct (Z.lt_ge_cases i 32) as [Hlt|Hge].
  - change 0xFFFFFFFF with (Z.ones 32). rewrite Z.ones_spec_low by lia.
    apply andb_true_r.
  - rewrite be32_testbit by exact Hi.
    rewrite (byte_high_bits d i), (byte_high_bits c (i - 8)),
      (byte_high_bits b (i - 16)), (byte_high_bits a (i - 24)) by lia.
    reflexivity.
Qed.

Lemma network_key_host (a b c d : Z) :
  octet a -> octet b -> octet c -> octet d -> network_key a b c d 32 = be32 a b c d.
Proof.
  intros Ha Hb Hc Hd. unfold network_key.
  change (spec_mask 32) with 0xFFFFFFFF. apply be32_range; assumption.
Qed.

(** What [AddRoute] does for [A.B.C.D/N], [1 <= N <= 32], on a quiet table
    of 32 slots. *)
Lemma AddRoute_cidr4 {T} (rt : route.routeTable T) (a b c d n : Z) v :
  octet a -> octet b -> octet c -> octet d -> 1 <= n <= 32 ->
  length (route.rts rt) = 32%nat -> idle rt ->
  exists e,
    route.rts rt !! Z.to_nat (32 - n) = Some e
    /\ route.AddRoute (cidr4 a b c d n) v rt
       = Done (nil_error,
               route.mkTable sync.zero
                 (if Nat.eqb (size (route.rtHash e)) 0
                  then Z.lor (route.slotMask rt) (2 ^ (32 - n))
                  else route.slotMask rt)
                 (<[Z.to_nat (32 - n):=
                      route.mkEntry sync.zero (route.mask e)
                        (<[network_key a b c d n:=v]> (route.rtHash e))]>
                    (route.rts rt))).
Proof.
  intros Ha Hb Hc Hd Hn Hlen Hidle.
  destruct (BigEndian_ipnet4 a b c d n) as [key Hk].
  destruct (stored_key_network_address a b c d n key) as [Hkey _];
    [assumption..|lia|exact Hk|].
  fold (network_key a b c d n) in Hkey. subst key.
  destruct (lookup_lt_is_Some_2 (route.rts rt) (Z.to_nat (32 - n))) as [e He]; [lia|].
  exists e. split; [exact He|].
  erewrite AddRoute_parsed; [|apply ParseCIDR_cidr4; (assumption || lia)|exact Hk| |exact He|exact Hidle].
  - rewrite slot_bit32 by lia. rewrite Z2Nat.id by lia. reflexivity.
  - rewrite maskLen_cidr4 by lia. unfold route.maskMaxLen. lia.
Qed.

Lemma DelRoute_cidr4 {T} (rt : route.routeTable T) (a b c d n : Z) :
  octet a -> octet b -> octet c -> octet d -> 1 <= n <= 32 ->
  length (route.rts rt) = 32%nat -> idle rt ->
  exists e,
    route.rts rt !! Z.to_nat (32 - n) = Some e
    /\ route.DelRoute (cidr4 a b c d n) rt
       = Done (nil_error,
               route.mkTable sync.zero
                 (if Nat.eqb (size (delete (network_key a b c d n) (route.rtHash e))) 0
                  then Z.land (route.slotMask rt) (not32 (2 ^ (32 - n)))
                  else route.slotMask rt)
                 (<[Z.to_nat (32 - n):=
                      route.mkEntry sync.zero (route.mask e)
                        (delete (network_key a b c d n) (route.rtHash e))]>
                    (route.rts rt))).
Proof.
  intros Ha Hb Hc Hd Hn Hlen Hidle.
  destruct (BigEndian_ipnet4 a b c d n) as [key Hk].
  destruct (stored_key_network_address a b c d n key) as [Hkey _];
    [assumption..|lia|exact Hk|].
  fold (network_key a b c d n) in Hkey. subst key.
  destruct (lookup_lt_is_Some_2 (route.rts rt) (Z.to_nat (32 - n))) as [e He]; [lia|].
  exists e. split; [exact He|].
  erewrite DelRoute_parsed; [|apply ParseCIDR_cidr4; (assumption || lia)|exact Hk| |exact He|exact Hidle].
  - rewrite slot_bit32 by lia. rewrite Z2Nat.id by lia. reflexivity.
  - rewrite maskLen_cidr4 by lia. unfold route.maskMaxLen. lia.
Qed.

(** X3. A host route can be looked up: after [AddRoute("A.B.C.D/32", v)] on
    a well-formed flat table with the masks of [NewRouteTable], the lookup
    of A.B.C.D returns [v], whatever else the table holds. *)
Theorem X3_flat_host_route_round_trip (T : Type) (rt : route.routeTable T)
    (a b c d : Z) (v : iface T) :
  well_formed rt -> masks_kept rt ->
  octet a -> octet b -> octet c -> octet d ->
  exists rt',
    route.AddRoute (cidr4 a b c d 32) v rt = Done (nil_error, rt')
    /\ route.RouteLookup (be32 a b c d) rt' = Done (v, rt').
Proof.
  intros Hwf Hm Ha Hb Hc Hd. pose proof Hwf as (Hlen & Hidle & _).
  destruct (AddRoute_cidr4 rt a b c d 32 v) as (e & He & Hadd);
    [assumption..|lia|assumption|assumption|].
  eexists. split; [exact Hadd|].
  pose proof (AddRoute_well_formed _ _ _ _ _ Hwf Hadd) as Hwf'.
  pose proof Hwf' as (Hlen' & Hidle' & _ & Hocc').
  rewrite RouteLookup_first_match by assumption.
  unfold first_match. change 32%nat with (S 31). cbn [first_match_from].
  assert (Hp : probe
                 (route.mkTable sync.zero
                    (if Nat.eqb (size (route.rtHash e)) 0
                     then Z.lor (route.slotMask rt) (2 ^ (32 - 32))
                     else route.slotMask rt)
                    (<[Z.to_nat (32 - 32):=
                         route.mkEntry sync.zero (route.mask e)
                           (<[network_key a b c d 32:=v]> (route.rtHash e))]>
                       (route.rts rt)))
                 (be32 a b c d) 0 = Some v).
  { unfold probe. change (Z.to_nat (32 - 32)) with 0%nat in *.
    cbn [route.rts route.slotMask].
    assert (Hl : <[0%nat:=route.mkEntry sync.zero (route.mask e)
                            (<[network_key a b c d 32:=v]> (route.rtHash e))]>
                   (route.rts rt) !! 0%nat
                 = Some (route.mkEntry sync.zero (route.mask e)
                           (<[network_key a b c d 32:=v]> (route.rtHash e)))).
    { apply list_lookup_insert_eq. lia. }
    rewrite Hl. cbn [mbind option_bind route.rtHash route.mask].
    pose proof (Hocc' 0%nat _ Hl) as Hbit. cbn [route.slotMask route.rtHash] in Hbit.
    rewrite (proj2 Hbit) by apply insert_non_empty.
    rewrite (Hm _ _ He). change (route.slot_mask (Z.of_nat 0)) with 0xFFFFFFFF.
    rewrite be32_range by assumption.
    rewrite network_key_host by assumption. apply lookup_insert_eq. }
  rewrite Hp. reflexivity.
Qed.

Lemma X3_flat_host_route_witness :
  exists rt',
    route.AddRoute "192.168.1.7/32" (dyn "W"%string) sample_table = Done (nil_error, rt')
    /\ route.RouteLookup 0xC0A80107 rt' = Done (dyn "W"%string, rt').
Proof.
  apply (X3_flat_host_route_round_trip string sample_table 192 168 1 7 (dyn "W"%string));
    first [ exact (proj1 sample_table_kept) | exact (proj2 sample_table_kept)
          | unfold octet; lia ].
Defined.

(** ** How the flat [AddRoute] and [DelRoute] compose *)

Lemma size_insert_nonzero {T} (h : gmap Z (iface T)) (k : Z) (v : iface T) :
  Nat.eqb (size (<[k:=v]> h)) 0 = false.
Proof.
  apply Nat.eqb_neq. intros H. apply map_size_empty_iff in H.
  exact (insert_non_empty h k v H).
Qed.

(** Setting a clear bit of a word below 2^width and clearing it again gives
    the word back. *)
Lemma clear_set_bit (ones : Z) (width : nat) (w : Z) (s : nat) :
  ones = Z.ones (Z.of_nat width) -> 0 <= w < 2 ^ Z.of_nat width ->
  (s < width)%nat ->
  Z.testbit w (Z.of_nat s) = false ->
  Z.land (Z.lor w (2 ^ Z.of_nat s)) (Z.lxor (2 ^ Z.of_nat s) ones) = w.
Proof.
  intros -> Hw Hsw Hs. apply Z.bits_inj'. intros n Hn.
  rewrite Z.land_spec, Z.lor_spec, Z.lxor_spec, Z.pow2_bits_eqb by lia.
  destruct (Z.eqb_spec (Z.of_nat s) n) as [<-|Hne].
  - rewrite Hs, Z.ones_spec_low by lia. reflexivity.
  - rewrite orb_false_r. cbn [xorb].
    destruct (Z.lt_ge_cases n (Z.of_nat width)) as [Hlt|Hge].
    + rewrite Z.ones_spec_low by lia. apply andb_true_r.
    + destruct (Z.eq_dec w 0) as [->|Hw0]; [rewrite Z.bits_0; reflexivity|].
      rewrite (Z.bits_above_log2 w n); [reflexivity|lia|].
      apply Z.log2_lt_pow2; [lia|].
      apply Z.lt_le_trans with (2 ^ Z.of_nat width); [lia|apply Z.pow_le_mono_r; lia].
Qed.

(** X4. Adding the same network twice overwrites: on a well-formed flat
    table, the table after [AddRoute(s, v1)] followed by [AddRoute(s, v2)] is
    the table after [AddRoute(s, v2)] alone, for every string [s]. *)
Theorem X4_flat_add_overwrites (T : Type) (rt rt1 rt2 : route.routeTable T)
    (s : string) (v1 v2 : iface T) (e1 e2 : error) :
  well_formed rt ->
  route.AddRoute s v1 rt = Done (e1, rt1) ->
  route.AddRoute s v2 rt1 = Done (e2, rt2) ->
  route.AddRoute s v2 rt = Done (e2, rt2).
Proof.
  intros Hwf H1 H2. pose proof Hwf as (Hlen & Hidle & _).
  pose proof (AddRoute_well_formed _ _ _ _ _ Hwf H1) as (_ & Hidle1 & _).
  destruct (AddRoute_returns _ _ _ _ _ Hidle H1)
    as [(_ & _ & ->)|(ipnet & key & slot & e & Hp & Hk & Hs & He & _ & ->)];
    [exact H2|].
  pose proof (lookup_lt_Some _ _ _ He) as Hlt.
  erewrite AddRoute_parsed in H2;
    [|exact Hp|exact Hk|exact Hs
     |cbn [route.rts]; apply list_lookup_insert_eq; exact Hlt|exact Hidle1].
  cbn [route.rts route.slotMask route.rtHash route.mask] in H2.
  rewrite size_insert_nonzero, insert_insert_eq, list_insert_insert_eq in H2.
  injection H2 as <- <-.
  apply (AddRoute_parsed _ _ _ _ _ _ _ Hp Hk Hs He Hidle).
Qed.

Lemma X4_flat_add_overwrites_witness :
  route.AddRoute "10.1.0.0/16" (dyn "W"%string) sample_table
  = Done (nil_error,
          table_after (sample_calls ++ [Add "10.1.0.0/16" (dyn "U"%string);
                                        Add "10.1.0.0/16" (dyn "W"%string)])).
Proof.
  apply (X4_flat_add_overwrites string sample_table
           (table_after (sample_calls ++ [Add "10.1.0.0/16" (dyn "U"%string)]))
           _ "10.1.0.0/16" (dyn "U"%string) (dyn "W"%string) nil_error nil_error).
  - exact (proj1 sample_table_kept).
  - vm_compute. reflexivity.
  - vm_compute. reflexivity.
Defined.

(** X5. Adding a prefix that is not registered and deleting it again gives
    the table back: for [A.B.C.D/N], [1 <= N <= 32], on a well-formed flat
    table, both calls return nil and the table, occupancy word included, is
    the one before the two calls. *)
Theorem X5_flat_add_then_delete (T : Type) (rt : route.routeTable T)
    (a b c d n : Z) (v : iface T) :
  well_formed rt ->
  octet a -> octet b -> octet c -> octet d -> 1 <= n <= 32 ->
  registered rt a b c d n = None ->
  (do e <- route.AddRoute (cidr4 a b c d n) v;
   do e' <- route.DelRoute (cidr4 a b c d n);
   ret (e, e')) rt
  = Done ((nil_error, nil_error), rt).
Proof.
  intros Hwf Ha Hb Hc Hd Hn Hreg. pose proof Hwf as (Hlen & Hidle & Hrange & Hocc).
  destruct (AddRoute_cidr4 rt a b c d n v) as (e & He & Hadd); try assumption.
  pose proof (AddRoute_well_formed _ _ _ _ _ Hwf Hadd) as (Hlen1 & Hidle1 & _).
  erewrite bind_Done by exact Hadd.
  destruct (DelRoute_cidr4 _ a b c d n Ha Hb Hc Hd Hn Hlen1 Hidle1) as (e1 & He1 & Hdel).
  cbn [route.rts] in He1.
  rewrite list_lookup_insert_eq in He1 by (eapply lookup_lt_Some; exact He).
  injection He1 as <-.
  erewrite bind_Done by exact Hdel.
  cbn [route.rts route.slotMask route.rtHash route.mask]. unfold ret.
  unfold registered in Hreg. change route.maskMaxLen with 32 in Hreg.
  rewrite He in Hreg. cbn [mbind option_bind] in Hreg.
  rewrite delete_insert_id by exact Hreg.
  rewrite list_insert_insert_eq.
  destruct rt as [m w l]. destruct e as [em ek eh].
  cbn [route.mu route.slotMask route.rts route.e_mu route.mask route.rtHash] in *.
  destruct Hidle as [Hmu Hemu]. cbn [route.mu route.rts] in *. subst m.
  pose proof (Hemu _ _ He) as Hz. cbn [route.e_mu] in Hz. subst em.
  rewrite list_insert_id by exact He.
  assert (Hw : (if Nat.eqb (size eh) 0
                then Z.land (if Nat.eqb (size eh) 0 then Z.lor w (2 ^ (32 - n)) else w)
                       (not32 (2 ^ (32 - n)))
                else if Nat.eqb (size eh) 0 then Z.lor w (2 ^ (32 - n)) else w) = w).
  { destruct (Nat.eqb_spec (size eh) 0) as [Hz|Hnz]; [|reflexivity].
    apply map_size_empty_iff in Hz. unfold not32.
    replace (32 - n) with (Z.of_nat (Z.to_nat (32 - n))) by lia.
    apply (clear_set_bit _ 32); [reflexivity|exact Hrange|lia|].
    destruct (Z.testbit w (Z.of_nat (Z.to_nat (32 - n)))) eqn:Hbit; [|reflexivity].
    exfalso. apply (proj1 (Hocc _ _ He) Hbit). exact Hz. }
  rewrite Hw. reflexivity.
Qed.

Lemma X5_flat_add_then_delete_witness :
  (do e <- route.AddRoute "172.16.0.0/12" (dyn "W"%string);
   do e' <- route.DelRoute "172.16.0.0/12";
   ret (e, e')) sample_table
  = Done ((nil_error, nil_error), sample_table).
Proof.
  apply (X5_flat_add_then_delete string sample_table 172 16 0 0 12 (dyn "W"%string));
    first [ exact (proj1 sample_table_kept) | unfold octet; lia | lia
          | vm_compute; reflexivity ].
Defined.

(** X6. What the flat [AddRoute] registers: for [A.B.C.D/N], [1 <= N <= 32],
    on a well-formed table it returns nil, the table stays well formed, the
    prefix is then registered with the value given, under the address with
    its host bits cleared, and every other prefix is registered as before. *)
Theorem X6_flat_add_registers (T : Type) (rt : route.routeTable T)
    (a b c d n : Z) (v : iface T) :
  well_formed rt ->
  octet a -> octet b -> octet c -> octet d -> 1 <= n <= 32 ->
  exists rt',
    route.AddRoute (cidr4 a b c d n) v rt = Done (nil_error, rt')
    /\ well_formed rt'
    /\ registered rt' a b c d n = Some v
    /\ forall a' b' c' d' n',
         1 <= n' <= 32 ->
         n' <> n \/ network_key a' b' c' d' n' <> network_key a b c d n ->
         registered rt' a' b' c' d' n' = registered rt a' b' c' d' n'.
Proof.
  intros Hwf Ha Hb Hc Hd Hn. pose proof Hwf as (Hlen & Hidle & _).
  destruct (AddRoute_cidr4 rt a b c d n v) as (e & He & Hadd); try assumption.
  eexists. split; [exact Hadd|].
  split; [exact (AddRoute_well_formed _ _ _ _ _ Hwf Hadd)|].
  pose proof (lookup_lt_Some _ _ _ He) as Hlt.
  unfold registered. change route.maskMaxLen with 32. cbn [route.rts]. split.
  - rewrite list_lookup_insert_eq by exact Hlt. cbn [mbind option_bind route.rtHash].
    apply lookup_insert_eq.
  - intros a' b' c' d' n' Hn' Hother.
    destruct (decide (n' = n)) as [->|Hne].
    + destruct Hother as [Hx|Hkey]; [congruence|].
      rewrite list_lookup_insert_eq by exact Hlt. rewrite He.
      cbn [mbind option_bind route.rtHash]. apply lookup_insert_ne. congruence.
    + rewrite list_lookup_insert_ne by lia. reflexivity.
Qed.

Lemma X6_flat_add_registers_witness :
  exists rt',
    route.AddRoute "172.16.5.9/12" (dyn "W"%string) sample_table = Done (nil_error, rt')
    /\ well_formed rt'
    /\ registered rt' 172 16 5 9 12 = Some (dyn "W"%string)
    /\ forall a' b' c' d' n',
         1 <= n' <= 32 ->
         n' <> 12 \/ network_key a' b' c' d' n' <> network_key 172 16 5 9 12 ->
         registered rt' a' b' c' d' n' = registered sample_table a' b' c' d' n'.
Proof.
  apply (X6_flat_add_registers string sample_table 172 16 5 9 12 (dyn "W"%string));
    first [ exact (proj1 sample_table_kept) | unfold octet; lia | lia ].
Defined.

(** X7. What the flat [DelRoute] removes: for [A.B.C.D/N], [1 <= N <= 32],
    on a well-formed table it returns nil, the table stays well formed, the
    prefix is no longer registered, and every other prefix is registered as
    before. *)
Theorem X7_flat_delete_unregisters (T : Type) (rt : route.routeTable T)
    (a b c d n : Z) :
  well_formed rt ->
  octet a -> octet b -> octet c -> octet d -> 1 <= n <= 32 ->
  exists rt',
    route.DelRoute (cidr4 a b c d n) rt = Done (nil_error, rt')
    /\ well_formed rt'
    /\ registered rt' a b c d n = None
    /\ forall a' b' c' d' n',
         1 <= n' <= 32 ->
         n' <> n \/ network_key a' b' c' d' n' <> network_key a b c d n ->
         registered rt' a' b' c' d' n' = registered rt a' b' c' d' n'.
Proof.
  intros Hwf Ha Hb Hc Hd Hn. pose proof Hwf as (Hlen & Hidle & _).
  destruct (DelRoute_cidr4 rt a b c d n) as (e & He & Hdel); try assumption.
  eexists. split; [exact Hdel|].
  split; [exact (DelRoute_well_formed _ _ _ _ Hwf Hdel)|].
  pose proof (lookup_lt_Some _ _ _ He) as Hlt.
  unfold registered. change route.maskMaxLen with 32. cbn [route.rts]. split.
  - rewrite list_lookup_insert_eq by exact Hlt. cbn [mbind option_bind route.rtHash].
    apply lookup_delete_eq.
  - intros a' b' c' d' n' Hn' Hother.
    destruct (decide (n' = n)) as [->|Hne].
    + destruct Hother as [Hx|Hkey]; [congruence|].
      rewrite list_lookup_insert_eq by exact Hlt. rewrite He.
      cbn [mbind option_bind route.rtHash]. apply lookup_delete_ne. congruence.
    + rewrite list_lookup_insert_ne by lia. reflexivity.
Qed.

Lemma X7_flat_delete_unregisters_witness :
  exists rt',
    route.DelRoute "10.1.0.0/16" sample_table = Done (nil_error, rt')
    /\ well_formed rt'
    /\ registered rt' 10 1 0 0 16 = None
    /\ forall a' b' c' d' n',
         1 <= n' <= 32 ->
         n' <> 16 \/ network_key a' b' c' d' n' <> network_key 10 1 0 0 16 ->
         registered rt' a' b' c' d' n' = registered sample_table a' b' c' d' n'.
Proof.
  apply (X7_flat_delete_unregisters string sample_table 10 1 0 0 16);
    first [ exact (proj1 sample_table_kept) | unfold octet; lia | lia ].
Defined.

(** ** Every outcome of [AddRoute] and [DelRoute] *)

Lemma IP_Mask_length (ip m r : list Z) :
  net.IP_Mask ip m = Some r -> length m = 4%nat \/ length m = 16%nat ->
  (4 <= length r)%nat.
Proof.
  unfold net.IP_Mask, net.IPv4len, net.IPv6len. intros H Hm.
  set (mask' := if Nat.eqb (length m) 16 && Nat.eqb (length ip) 4
                   && net.allFF (take 12 m) then drop 12 m else m) in *.
  assert (Hmask' : (4 <= length mask')%nat).
  { subst mask'.
    destruct (Nat.eqb_spec (length m) 16) as [H16|]; cbn [andb]; [|lia].
    destruct (Nat.eqb (length ip) 4 && net.allFF (take 12 m)); [|lia].
    rewrite length_drop. lia. }
  set (ip' := if Nat.eqb (length mask') 4 && Nat.eqb (length ip) 16
                 && bool_decide (take 12 ip = net.v4InV6Prefix)
              then drop 12 ip else ip) in *.
  destruct (Nat.eqb_spec (length ip') (length mask')) as [Heq|Hne];
    cbn [negb] in H; [|discriminate H].
  injection H as <-. rewrite length_zip_with. lia.
Qed.

(** The address [ParseCIDR] returns has four bytes or more, so reading its
    first four bytes never panics. *)
Lemma ParseCIDR_key (s : string) ipnet :
  net.ParseCIDR s = Some ipnet ->
  exists key, binary.BigEndian_Uint32 (net.IP ipnet) = Done key.
Proof.
  unfold net.ParseCIDR. intros H.
  destruct (net.split_at_slash (net.bytes s)) as [[addr mask]|]; [|discriminate H].
  assert (Hgen : forall (iplen : nat) (ip : option (list Z)),
            iplen = 4%nat \/ iplen = 16%nat ->
            (let '(n, i, ok) := net.dtoi mask in
             match ip with
             | None => None
             | Some ip =>
                 if negb ok || negb (Nat.eqb i (length mask)) || (n <? 0)
                    || (8 * Z.of_nat iplen <? n) then None
                 else
                   match net.CIDRMask n (8 * Z.of_nat iplen) with
                   | None => None
                   | Some m =>
                       match net.IP_Mask ip m with
                       | Some ipm => Some (net.mkIPNet ipm m)
                       | None => None
                       end
                   end
             end) = Some ipnet ->
            (4 <= length (net.IP ipnet))%nat).
  { clear H. intros iplen ip Hlen H.
    destruct (net.dtoi mask) as [[n i] ok].
    destruct ip as [ip|]; [|discriminate H].
    destruct (negb ok || negb (Nat.eqb i (length mask)) || (n <? 0)
              || (8 * Z.of_nat iplen <? n)); [discriminate H|].
    destruct (net.CIDRMask n (8 * Z.of_nat iplen)) as [m|] eqn:Hm; [|discriminate H].
    destruct (net.IP_Mask ip m) as [ipm|] eqn:Hipm; [|discriminate H].
    injection H as <-. cbn [net.IP].
    apply (IP_Mask_length _ _ _ Hipm).
    unfold net.CIDRMask in Hm.
    destruct (negb (8 * Z.of_nat iplen =? 8 * Z.of_nat net.IPv4len)
              && negb (8 * Z.of_nat iplen =? 8 * Z.of_nat net.IPv6len));
      [discriminate Hm|].
    destruct ((n <? 0) || (8 * Z.of_nat iplen <? n)); [discriminate Hm|].
    injection Hm as <-. rewrite CIDRMask_loop_length.
    destruct Hlen as [->| ->]; [left|right]; reflexivity. }
  assert (Hlen : (4 <= length (net.IP ipnet))%nat).
  { destruct (net.parseIPv4 addr) as [ip4|].
    - apply (Hgen net.IPv4len (Some ip4)); [left; reflexivity|exact H].
    - apply (Hgen net.IPv6len (net.parseIPv6 addr)); [right; reflexivity|exact H]. }
  destruct (net.IP ipnet) as [|b0 [|b1 [|b2 [|b3 b]]]]; cbn [length] in Hlen; try lia.
  cbn. eauto.
Qed.

Lemma index_within {A} (l : list A) (i : Z) :
  0 <= i < Z.of_nat (length l) -> exists x, l !! Z.to_nat i = Some x.
Proof. intros H. apply lookup_lt_is_Some_2. lia. Qed.

(** X8. Every outcome of the flat [AddRoute] and [DelRoute] on a well-formed
    table, for every string: a string [net.ParseCIDR] rejects gives the parse
    error and leaves the table as it was; a string it accepts with a prefix
    length from 1 to 32 gives nil and a well-formed table; any other accepted
    string (prefix length 0, or an IPv6 prefix longer than 32) panics.  No
    call ends in a fatal error or blocks. *)
Theorem X8_flat_call_outcomes (T : Type) (rt : route.routeTable T) (s : string)
    (v : iface T) :
  well_formed rt ->
  match net.ParseCIDR s with
  | None =>
      route.AddRoute s v rt = Done (ParseError s, rt)
      /\ route.DelRoute s rt = Done (ParseError s, rt)
  | Some ipnet =>
      let maskLen := (net.Size (net.Mask ipnet)).1 in
      if (1 <=? maskLen) && (maskLen <=? 32)
      then (exists rt', route.AddRoute s v rt = Done (nil_error, rt') /\ well_formed rt')
           /\ (exists rt', route.DelRoute s rt = Done (nil_error, rt') /\ well_formed rt')
      else route.AddRoute s v rt = Panic /\ route.DelRoute s rt = Panic
  end.
Proof.
  intros Hwf. pose proof Hwf as (Hlen & Hidle & _).
  destruct (net.ParseCIDR s) as [ipnet|] eqn:Hp.
  - cbn zeta. set (maskLen := (net.Size (net.Mask ipnet)).1).
    destruct (ParseCIDR_key _ _ Hp) as [key Hk].
    destruct ((1 <=? maskLen) && (maskLen <=? 32)) eqn:Hin.
    + apply andb_true_iff in Hin. destruct Hin as [H1 H2].
      apply Z.leb_le in H1, H2.
      destruct (index_within (route.rts rt) (32 - maskLen)) as [e He]; [lia|].
      assert (Hs : route.maskMaxLen - maskLen = Z.of_nat (Z.to_nat (32 - maskLen)))
        by (unfold route.maskMaxLen; lia).
      split.
      * eexists. split; [eapply AddRoute_parsed; eassumption|].
        eapply AddRoute_well_formed; [exact Hwf|]. eapply AddRoute_parsed; eassumption.
      * eexists. split; [eapply DelRoute_parsed; eassumption|].
        eapply DelRoute_well_formed; [exact Hwf|]. eapply DelRoute_parsed; eassumption.
    + assert (Hout : index (route.rts rt) (route.maskMaxLen - maskLen) = Panic).
      { apply andb_false_iff in Hin. unfold route.maskMaxLen.
        destruct Hin as [H1|H2].
        - apply Z.leb_gt in H1. apply index_beyond. lia.
        - apply Z.leb_gt in H2. unfold index.
          replace (32 - maskLen <? 0) with true by (symmetry; apply Z.ltb_lt; lia).
          reflexivity. }
      split; [eapply AddRoute_out_of_range|eapply DelRoute_out_of_range]; eassumption.
  - unfold route.AddRoute, route.DelRoute. rewrite Hp. split; reflexivity.
Qed.

Lemma X8_flat_call_outcomes_witness :
  (route.AddRoute "2001:db8::/64" (dyn "W"%string) sample_table = Panic
   /\ route.DelRoute "2001:db8::/64" sample_table = Panic)
  /\ (route.AddRoute "10.0.0/24" (dyn "W"%string) sample_table
      = Done (ParseError "10.0.0/24", sample_table)
      /\ route.DelRoute "10.0.0/24" sample_table
         = Done (ParseError "10.0.0/24", sample_table)).
Proof.
  split.
  - exact (X8_flat_call_outcomes string sample_table "2001:db8::/64" (dyn "W"%string)
             (proj1 sample_table_kept)).
  - exact (X8_flat_call_outcomes string sample_table "10.0.0/24" (dyn "W"%string)
             (proj1 sample_table_kept)).
Defined.

(** The position the sectioned calls compute is inside the arrays exactly
    for the slots -3..15. *)
Lemma secID_range (slot : Z) : 0 <= routev2.secID_of slot < 8.
Proof.
  unfold routev2.secID_of, routev2.SectionSize.
  change (8 - 1) with (Z.ones 3). rewrite Z.land_ones by lia.
  change (2 ^ 3) with 8. apply Z.mod_pos_bound. lia.
Qed.

Lemma ipID_range (slot : Z) : -3 <= slot <= 15 -> 0 <= routev2.ipID_of slot < 4.
Proof.
  intros H. unfold routev2.ipID_of, routev2.IpSection.
  assert (Hall : forallb (fun k => let q := Z.quot (Z.of_nat k - 3) 4 in
                                   (0 <=? q) && (q <? 4)) (seq 0 19) = true)
    by (vm_compute; reflexivity).
  rewrite forallb_forall in Hall.
  specialize (Hall (Z.to_nat (slot + 3))).
  replace (Z.of_nat (Z.to_nat (slot + 3)) - 3) with slot in Hall by lia.
  cbn zeta in Hall. rewrite andb_true_iff, Z.leb_le, Z.ltb_lt in Hall.
  apply Hall, in_seq. lia.
Qed.

Lemma ipID_outside (slot : Z) :
  slot < -3 \/ 15 < slot -> routev2.ipID_of slot < 0 \/ 4 <= routev2.ipID_of slot.
Proof.
  unfold routev2.ipID_of, routev2.IpSection. intros [H|H].
  - left. pose proof (Z.quot_le_mono slot (-4) 4 ltac:(lia) ltac:(lia)) as Hq.
    change (Z.quot (-4) 4) with (-1) in Hq. lia.
  - right. pose proof (Z.quot_le_mono 16 slot 4 ltac:(lia) ltac:(lia)) as Hq.
    change (Z.quot 16 4) with 4 in Hq. lia.
Qed.

Lemma index_outside {A} (l : list A) (i : Z) :
  i < 0 \/ Z.of_nat (length l) <= i -> index l i = Panic.
Proof.
  intros [H|H]; [|apply index_beyond, H].
  unfold index. replace (i <? 0) with true by (symmetry; apply Z.ltb_lt; lia).
  reflexivity.
Qed.

(** X9. Every outcome of the sectioned [AddRoute] and [DelRoute] on a
    well-formed table, for every string: a string [net.ParseCIDR] rejects
    gives the parse error and leaves the table as it was; a string it accepts
    with a prefix length from 17 to 35 gives nil and a well-formed table
    (33..35, IPv6 only, give a negative slot that the truncating division
    and the bit mask turn into a position of section 0); any other accepted
    string panics.  No call ends in a fatal error or blocks. *)
Theorem X9_sectioned_call_outcomes (T : Type) (rt : routev2.routeTable T)
    (s : string) (v : iface T) :
  well_formed_v2 rt ->
  match net.ParseCIDR s with
  | None =>
      routev2.AddRoute s v rt = Done (ParseError s, rt)
      /\ routev2.DelRoute s rt = Done (ParseError s, rt)
  | Some ipnet =>
      let maskLen := (net.Size (net.Mask ipnet)).1 in
      if (17 <=? maskLen) && (maskLen <=? 35)
      then (exists rt', routev2.AddRoute s v rt = Done (nil_error, rt')
                        /\ well_formed_v2 rt')
           /\ (exists rt', routev2.DelRoute s rt = Done (nil_error, rt')
                           /\ well_formed_v2 rt')
      else routev2.AddRoute s v rt = Panic /\ routev2.DelRoute s rt = Panic
  end.
Proof.
  intros Hwf. pose proof Hwf as (Hlen & Hsecs & Hidle & _).
  destruct (net.ParseCIDR s) as [ipnet|] eqn:Hp.
  - cbn zeta. set (maskLen := (net.Size (net.Mask ipnet)).1).
    destruct (ParseCIDR_key _ _ Hp) as [key Hk].
    destruct ((17 <=? maskLen) && (maskLen <=? 35)) eqn:Hin.
    + apply andb_true_iff in Hin. destruct Hin as [H1 H2].
      apply Z.leb_le in H1, H2.
      pose proof (ipID_range (routev2.maskMaxLen - maskLen)
                    ltac:(unfold routev2.maskMaxLen; lia)) as Hi.
      pose proof (secID_range (routev2.maskMaxLen - maskLen)) as Hj.
      destruct (index_within (routev2.rts rt)
                  (routev2.ipID_of (routev2.maskMaxLen - maskLen))) as [sec Hsec]; [lia|].
      destruct (Hsecs _ _ Hsec) as [Hes _].
      destruct (index_within (routev2.rtSec sec)
                  (routev2.secID_of (routev2.maskMaxLen - maskLen))) as [e He]; [lia|].
      assert (Hi' : routev2.ipID_of (routev2.maskMaxLen - (net.Size (net.Mask ipnet)).1)
                    = Z.of_nat (Z.to_nat (routev2.ipID_of (routev2.maskMaxLen - maskLen))))
        by (symmetry; apply Z2Nat.id, Hi).
      assert (Hj' : routev2.secID_of (routev2.maskMaxLen - (net.Size (net.Mask ipnet)).1)
                    = Z.of_nat (Z.to_nat (routev2.secID_of (routev2.maskMaxLen - maskLen))))
        by (symmetry; apply Z2Nat.id, Hj).
      pose proof (AddRoute_parsed_v2 rt s v ipnet key _ _ sec e Hp Hk Hi' Hj' Hsec He
                    (Hidle _ _ Hsec)) as Hadd.
      pose proof (DelRoute_parsed_v2 rt s ipnet key _ _ sec e Hp Hk Hi' Hj' Hsec He
                    (Hidle _ _ Hsec)) as Hdel.
      split.
      * eexists. split; [exact Hadd|].
        eapply AddRoute_well_formed_v2; [exact Hwf|exact Hadd].
      * eexists. split; [exact Hdel|].
        eapply DelRoute_well_formed_v2; [exact Hwf|exact Hdel].
    + assert (Hout : index (routev2.rts rt)
                       (routev2.ipID_of (routev2.maskMaxLen - maskLen)) = Panic).
      { apply index_outside. rewrite Hlen.
        assert (Hslot : routev2.maskMaxLen - maskLen < -3
                        \/ 15 < routev2.maskMaxLen - maskLen).
        { apply andb_false_iff in Hin. unfold routev2.maskMaxLen.
          destruct Hin as [H1|H2]; [apply Z.leb_gt in H1|apply Z.leb_gt in H2]; lia. }
        destruct (ipID_outside _ Hslot); [left|right]; lia. }
      split; [eapply AddRoute_out_of_range_v2|eapply DelRoute_out_of_range_v2]; eassumption.
  - unfold routev2.AddRoute, routev2.DelRoute. rewrite Hp. split; reflexivity.
Qed.

Lemma sample_table_v2_well_formed : well_formed_v2 sample_table_v2.
Proof.
  apply (run_well_formed_v2 sample_calls_v2 routev2.NewRouteTable
           [nil_error; nil_error; nil_error]).
  - apply NewRouteTable_well_formed_v2.
  - vm_compute. reflexivity.
Qed.

Lemma X9_sectioned_call_outcomes_witness :
  ((exists rt', routev2.AddRoute "2001:db8::/33" (dyn "W"%string) sample_table_v2
                = Done (nil_error, rt') /\ well_formed_v2 rt')
   /\ (exists rt', routev2.DelRoute "2001:db8::/33" sample_table_v2
                   = Done (nil_error, rt') /\ well_formed_v2 rt'))
  /\ (routev2.AddRoute "10.0.0.0/16" (dyn "W"%string) sample_table_v2 = Panic
      /\ routev2.DelRoute "10.0.0.0/16" sample_table_v2 = Panic).
Proof.
  split.
  - exact (X9_sectioned_call_outcomes string sample_table_v2 "2001:db8::/33"
             (dyn "W"%string) sample_table_v2_well_formed).
  - exact (X9_sectioned_call_outcomes string sample_table_v2 "10.0.0.0/16"
             (dyn "W"%string) sample_table_v2_well_formed).
Defined.

(** ** What a run of calls keeps *)

(** X10. Whatever calls are made on a flat table built by [NewRouteTable],
    once they have all returned the table still has its 32 slots, every lock
    is released, every slot holds the mask [NewRouteTable] gave it, the
    occupancy word is below 2^32, and one error value was returned per call. *)
Theorem X10_flat_run_keeps_shape (T : Type) (ops : list (op T)) (errs : list error)
    (rt : route.routeTable T) :
  run ops route.NewRouteTable = Done (errs, rt) ->
  length (route.rts rt) = 32%nat
  /\ idle rt
  /\ masks_kept rt
  /\ 0 <= route.slotMask rt < 2 ^ 32
  /\ length errs = length ops.
Proof.
  intros H.
  destruct (run_kept ops _ errs rt NewRouteTable_well_formed NewRouteTable_masks_kept H)
    as ((Hlen & Hidle & Hrange & _) & Hm & Herrs).
  auto.
Qed.

Lemma X10_flat_run_witness :
  length (route.rts sample_table) = 32%nat
  /\ idle sample_table
  /\ masks_kept sample_table
  /\ 0 <= route.slotMask sample_table < 2 ^ 32
  /\ length [nil_error; nil_error; nil_error; nil_error] = length sample_calls.
Proof.
  apply (X10_flat_run_keeps_shape string sample_calls
           [nil_error; nil_error; nil_error; nil_error] sample_table).
  vm_compute. reflexivity.
Defined.

(** X11. Deleting twice is deleting once: on a well-formed flat table, for
    every string, a second [DelRoute] of the same string returns what the
    first returned and leaves the table the first left. *)
Theorem X11_flat_delete_idempotent (T : Type) (rt rt1 : route.routeTable T)
    (s : string) (e : error) :
  well_formed rt ->
  route.DelRoute s rt = Done (e, rt1) ->
  route.DelRoute s rt1 = Done (e, rt1).
Proof.
  intros Hwf H. pose proof Hwf as (Hlen & Hidle & _).
  pose proof (DelRoute_well_formed _ _ _ _ Hwf H) as Hwf1.
  destruct (DelRoute_returns _ _ _ _ Hidle H)
    as [(_ & _ & ->)|(ipnet & key & slot & e0 & Hp & Hk & Hs & He & -> & Hrt1)];
    [exact H|].
  subst rt1.
  eapply DelRoute_absent_unchanged; [exact Hwf1|exact Hp|exact Hk|exact Hs| |].
  - cbn [route.rts]. apply list_lookup_insert_eq. eapply lookup_lt_Some; exact He.
  - cbn [route.rtHash]. apply lookup_delete_eq.
Qed.

Lemma X11_flat_delete_idempotent_witness :
  route.DelRoute "10.1.0.0/16"
    (table_after (sample_calls ++ [Del "10.1.0.0/16"]))
  = Done (nil_error, table_after (sample_calls ++ [Del "10.1.0.0/16"])).
Proof.
  apply (X11_flat_delete_idempotent string sample_table).
  - exact (proj1 sample_table_kept).
  - vm_compute. reflexivity.
Defined.

(** X12. Adds of different prefix lengths commute: for [A.B.C.D/N] and
    [A'.B'.C'.D'/N'] with [N <> N'], both from 1 to 32, on a well-formed flat
    table, the two orders of the two [AddRoute] calls return nil twice and
    leave the same table. *)
Theorem X12_flat_adds_commute (T : Type) (rt : route.routeTable T)
    (a b c d n a' b' c' d' n' : Z) (v v' : iface T) :
  well_formed rt ->
  octet a -> octet b -> octet c -> octet d -> 1 <= n <= 32 ->
  octet a' -> octet b' -> octet c' -> octet d' -> 1 <= n' <= 32 ->
  n <> n' ->
  exists rt2,
    (route.AddRoute (cidr4 a b c d n) v;; route.AddRoute (cidr4 a' b' c' d' n') v') rt
    = Done (nil_error, rt2)
    /\ (route.AddRoute (cidr4 a' b' c' d' n') v';; route.AddRoute (cidr4 a b c d n) v) rt
       = Done (nil_error, rt2).
Proof.
  intros Hwf Ha Hb Hc Hd Hn Ha' Hb' Hc' Hd' Hn' Hne.
  pose proof Hwf as (Hlen & Hidle & _).
  destruct (AddRoute_cidr4 rt a b c d n v) as (e & He & Hadd); try assumption.
  destruct (AddRoute_cidr4 rt a' b' c' d' n' v') as (e' & He' & Hadd'); try assumption.
  pose proof (AddRoute_well_formed _ _ _ _ _ Hwf Hadd) as (Hlen1 & Hidle1 & _).
  pose proof (AddRoute_well_formed _ _ _ _ _ Hwf Hadd') as (Hlen2 & Hidle2 & _).
  destruct (AddRoute_cidr4 _ a' b' c' d' n' v' Ha' Hb' Hc' Hd' Hn' Hlen1 Hidle1)
    as (e1 & He1 & Hadd1).
  destruct (AddRoute_cidr4 _ a b c d n v Ha Hb Hc Hd Hn Hlen2 Hidle2)
    as (e2 & He2 & Hadd2).
  cbn [route.rts] in He1, He2.
  rewrite list_lookup_insert_ne in He1 by lia.
  rewrite list_lookup_insert_ne in He2 by lia.
  assert (e1 = e') by congruence. assert (e2 = e) by congruence. subst e1 e2.
  eexists. split.
  - erewrite bind_Done by exact Hadd. exact Hadd1.
  - erewrite bind_Done by exact Hadd'. rewrite Hadd2.
    cbn [route.rts route.slotMask]. do 2 f_equal.
    rewrite (list_insert_insert_ne _ (Z.to_nat (32 - n)) (Z.to_nat (32 - n'))) by lia.
    f_equal.
    destruct (Nat.eqb (size (route.rtHash e)) 0), (Nat.eqb (size (route.rtHash e')) 0);
      try reflexivity.
    rewrite <- !Z.lor_assoc. f_equal. apply Z.lor_comm.
Qed.

Lemma X12_flat_adds_commute_witness :
  exists rt2,
    (route.AddRoute "172.16.0.0/12" (dyn "W"%string);;
     route.AddRoute "10.1.0.0/16" (dyn "U"%string)) sample_table
    = Done (nil_error, rt2)
    /\ (route.AddRoute "10.1.0.0/16" (dyn "U"%string);;
        route.AddRoute "172.16.0.0/12" (dyn "W"%string)) sample_table
       = Done (nil_error, rt2).
Proof.
  apply (X12_flat_adds_commute string sample_table 172 16 0 0 12 10 1 0 0 16
           (dyn "W"%string) (dyn "U"%string));
    first [ exact (proj1 sample_table_kept) | unfold octet; lia | lia ].
Defined.

(** ** The sectioned table *)

Section MoreSectionedFacts.
Context {T : Type}.
Implicit Types (rt : routev2.routeTable T) (sec : routev2.rtSection T)
  (e : routev2.rtEntry T).

Lemma NewRouteTable_masks_kept_v2 : masks_kept_v2 (@routev2.NewRouteTable T).
Proof.
  intros i j sec e H He. unfold routev2.NewRouteTable in H. cbn [routev2.rts] in H.
  apply list_lookup_fmap_Some in H. destruct H as (k & -> & Hk).
  cbn [routev2.rtSec] in He.
  apply list_lookup_fmap_Some in He. destruct He as (k' & -> & Hk').
  apply lookup_seq in Hk, Hk'. destruct Hk as [-> _]. destruct Hk' as [-> _].
  reflexivity.
Qed.

Lemma masks_kept_v2_update rt (i j : nat) sec e m w h :
  masks_kept_v2 rt ->
  routev2.rts rt !! i = Some sec -> routev2.rtSec sec !! j = Some e ->
  masks_kept_v2
    (routev2.mkTable
       (<[i:=routev2.mkSection m w
               (<[j:=routev2.mkEntry (routev2.mask e) h]> (routev2.rtSec sec))]>
          (routev2.rts rt))).
Proof.
  intros Hm Hsec He i' j' sec' e' H He'. cbn [routev2.rts] in H.
  destruct (decide (i = i')) as [->|Hne].
  - rewrite list_lookup_insert_eq in H by (eapply lookup_lt_Some; exact Hsec).
    injection H as <-. cbn [routev2.rtSec] in He'.
    destruct (decide (j = j')) as [->|Hnej].
    + rewrite list_lookup_insert_eq in He' by (eapply lookup_lt_Some; exact He).
      injection He' as <-. cbn [routev2.mask]. apply (Hm _ _ _ _ Hsec He).
    + rewrite list_lookup_insert_ne in He' by assumption. apply (Hm _ _ _ _ Hsec He').
  - rewrite list_lookup_insert_ne in H by assumption. apply (Hm _ _ _ _ H He').
Qed.

Lemma step_masks_kept_v2 (o : op T) rt err rt' :
  idle_v2 rt -> masks_kept_v2 rt -> step_v2 o rt = Done (err, rt') -> masks_kept_v2 rt'.
Proof.
  intros Hidle Hm H. destruct o as [network v|network]; cbn [step_v2] in H.
  - destruct (AddRoute_returns_v2 _ _ _ _ _ Hidle H)
      as [(_ & _ & ->)|(ipnet & key & i & j & sec & e & _ & _ & _ & _ & Hsec & He & _ & ->)];
      [exact Hm|].
    apply masks_kept_v2_update; assumption.
  - destruct (DelRoute_returns_v2 _ _ _ _ Hidle H)
      as [(_ & _ & ->)|(ipnet & key & i & j & sec & e & _ & _ & _ & _ & Hsec & He & _ & ->)];
      [exact Hm|].
    apply masks_kept_v2_update; assumption.
Qed.

Lemma run_kept_v2 (ops : list (op T)) rt errs rt' :
  well_formed_v2 rt -> masks_kept_v2 rt -> run_v2 ops rt = Done (errs, rt') ->
  well_formed_v2 rt' /\ masks_kept_v2 rt' /\ length errs = length ops.
Proof.
  revert rt errs. induction ops as [|o ops IH]; intros rt errs Hwf Hm H.
  - cbn [run_v2] in H. unfold ret in H. injection H as <- <-. auto.
  - cbn [run_v2] in H. apply bind_inv in H. destruct H as (err & rt1 & Hstep & H).
    apply bind_inv in H. destruct H as (es & rt2 & Hrun & H).
    unfold ret in H. injection H as <- <-.
    assert (Hwf1 : well_formed_v2 rt1).
    { eapply (run_well_formed_v2 [o] rt [err]); [exact Hwf|].
      cbn [run_v2]. erewrite bind_Done by exact Hstep. reflexivity. }
    assert (Hm1 : masks_kept_v2 rt1).
    { destruct Hwf as (_ & _ & Hidle & _). eapply step_masks_kept_v2; eassumption. }
    destruct (IH _ _ Hwf1 Hm1 Hrun) as (Hwf' & Hm' & Hlen).
    split; [exact Hwf'|]. split; [exact Hm'|]. cbn [length]. rewrite Hlen. reflexivity.
Qed.

End MoreSectionedFacts.

(** X13. Whatever calls are made on a sectioned table built by
    [NewRouteTable], once they have all returned the table still has its 4
    sections of 8 slots, every section lock is released, every occupancy
    word is below 2^8, every position holds the mask [NewRouteTable] gave
    it, and one error value was returned per call. *)
Theorem X13_sectioned_run_keeps_shape (T : Type) (ops : list (op T))
    (errs : list error) (rt : routev2.routeTable T) :
  run_v2 ops routev2.NewRouteTable = Done (errs, rt) ->
  length (routev2.rts rt) = 4%nat
  /\ (forall i sec, routev2.rts rt !! i = Some sec ->
        length (routev2.rtSec sec) = 8%nat /\ 0 <= routev2.slotMask sec < 2 ^ 8)
  /\ idle_v2 rt
  /\ masks_kept_v2 rt
  /\ length errs = length ops.
Proof.
  intros H.
  destruct (run_kept_v2 ops _ errs rt NewRouteTable_well_formed_v2
              NewRouteTable_masks_kept_v2 H)
    as ((Hlen & Hsecs & Hidle & _) & Hm & Herrs).
  auto.
Qed.

Lemma X13_sectioned_run_witness :
  length (routev2.rts sample_table_v2) = 4%nat
  /\ (forall i sec, routev2.rts sample_table_v2 !! i = Some sec ->
        length (routev2.rtSec sec) = 8%nat /\ 0 <= routev2.slotMask sec < 2 ^ 8)
  /\ idle_v2 sample_table_v2
  /\ masks_kept_v2 sample_table_v2
  /\ length [nil_error; nil_error; nil_error] = length sample_calls_v2.
Proof.
  apply (X13_sectioned_run_keeps_shape string sample_calls_v2
           [nil_error; nil_error; nil_error] sample_table_v2).
  vm_compute. reflexivity.
Defined.

(** X14. Deleting twice is deleting once in the sectioned table as well: on
    a well-formed table, for every string, a second [DelRoute] of the same
    string returns what the first returned and leaves the table the first
    left. *)
Theorem X14_sectioned_delete_idempotent (T : Type) (rt rt1 : routev2.routeTable T)
    (s : string) (e : error) :
  well_formed_v2 rt ->
  routev2.DelRoute s rt = Done (e, rt1) ->
  routev2.DelRoute s rt1 = Done (e, rt1).
Proof.
  intros Hwf H. pose proof Hwf as (Hlen & Hsecs & Hidle & _).
  pose proof (DelRoute_well_formed_v2 _ _ _ _ Hwf H) as Hwf1.
  destruct (DelRoute_returns_v2 _ _ _ _ Hidle H)
    as [(_ & _ & ->)
       |(ipnet & key & i & j & sec & e0 & Hp & Hk & Hi & Hj & Hsec & He & -> & Hrt1)];
    [exact H|].
  subst rt1.
  eapply DelRoute_absent_unchanged_v2;
    [exact Hwf1|exact Hp|exact Hk|exact Hi|exact Hj| | |].
  - cbn [routev2.rts]. apply list_lookup_insert_eq. eapply lookup_lt_Some; exact Hsec.
  - cbn [routev2.rtSec]. apply list_lookup_insert_eq. eapply lookup_lt_Some; exact He.
  - cbn [routev2.rtHash]. apply lookup_delete_eq.
Qed.

Lemma X14_sectioned_delete_idempotent_witness :
  routev2.DelRoute "10.0.0.77/32"
    (table_after_v2 (sample_calls_v2 ++ [Del "10.0.0.77/32"]))
  = Done (nil_error, table_after_v2 (sample_calls_v2 ++ [Del "10.0.0.77/32"])).
Proof.
  apply (X14_sectioned_delete_idempotent string sample_table_v2).
  - exact sample_table_v2_well_formed.
  - vm_compute. reflexivity.
Defined.

(** ** What the sectioned [AddRoute] and [DelRoute] register *)

Section SectionedRegistry.
Context {T : Type}.
Implicit Types (rt : routev2.routeTable T) (sec : routev2.rtSection T)
  (e : routev2.rtEntry T).

Lemma position_in_range (n : Z) :
  17 <= n <= 32 ->
  0 <= routev2.ipID_of (routev2.maskMaxLen - n) < 4
  /\ 0 <= routev2.secID_of (routev2.maskMaxLen - n) < 8.
Proof.
  intros Hn. split; [apply ipID_range; unfold routev2.maskMaxLen; lia|apply secID_range].
Qed.

(** Two prefix lengths from 17 to 32 never share a position. *)
Lemma position_injective (n n' : Z) :
  17 <= n <= 32 -> 17 <= n' <= 32 -> n <> n' ->
  Z.to_nat (routev2.ipID_of (routev2.maskMaxLen - n))
    <> Z.to_nat (routev2.ipID_of (routev2.maskMaxLen - n'))
  \/ Z.to_nat (routev2.secID_of (routev2.maskMaxLen - n))
       <> Z.to_nat (routev2.secID_of (routev2.maskMaxLen - n')).
Proof.
  intros Hn Hn' Hne.
  assert (Hall : forallb (fun k => forallb (fun k' =>
            Nat.eqb k k'
            || negb (Nat.eqb (Z.to_nat (routev2.ipID_of (routev2.maskMaxLen - (17 + Z.of_nat k))))
                             (Z.to_nat (routev2.ipID_of (routev2.maskMaxLen - (17 + Z.of_nat k')))))
            || negb (Nat.eqb (Z.to_nat (routev2.secID_of (routev2.maskMaxLen - (17 + Z.of_nat k))))
                             (Z.to_nat (routev2.secID_of (routev2.maskMaxLen - (17 + Z.of_nat k'))))))
            (seq 0 16)) (seq 0 16) = true) by (vm_compute; reflexivity).
  rewrite forallb_forall in Hall.
  specialize (Hall (Z.to_nat (n - 17)) ltac:(apply in_seq; lia)).
  rewrite forallb_forall in Hall.
  specialize (Hall (Z.to_nat (n' - 17)) ltac:(apply in_seq; lia)).
  replace (17 + Z.of_nat (Z.to_nat (n - 17))) with n in Hall by lia.
  replace (17 + Z.of_nat (Z.to_nat (n' - 17))) with n' in Hall by lia.
  rewrite !orb_true_iff, !negb_true_iff, !Nat.eqb_neq, Nat.eqb_eq in Hall.
  destruct Hall as [[Heq|H]|H]; [lia|left; exact H|right; exact H].
Qed.

(** What [AddRoute] and [DelRoute] do for [A.B.C.D/N], [17 <= N <= 32], on a
    well-formed sectioned table. *)
Lemma calls_cidr4_v2 rt (a b c d n : Z) :
  octet a -> octet b -> octet c -> octet d -> 17 <= n <= 32 ->
  well_formed_v2 rt ->
  let i := Z.to_nat (routev2.ipID_of (routev2.maskMaxLen - n)) in
  let j := Z.to_nat (routev2.secID_of (routev2.maskMaxLen - n)) in
  exists sec e,
    routev2.rts rt !! i = Some sec
    /\ routev2.rtSec sec !! j = Some e
    /\ (forall v,
          routev2.AddRoute (cidr4 a b c d n) v rt
          = Done (nil_error,
                  routev2.mkTable
                    (<[i:=routev2.mkSection sync.zero
                            (Z.lor (routev2.slotMask sec) (2 ^ Z.of_nat j))
                            (<[j:=routev2.mkEntry (routev2.mask e)
                                    (<[network_key a b c d n:=v]> (routev2.rtHash e))]>
                               (routev2.rtSec sec))]> (routev2.rts rt))))
    /\ routev2.DelRoute (cidr4 a b c d n) rt
       = Done (nil_error,
               routev2.mkTable
                 (<[i:=routev2.mkSection sync.zero
                         (if Nat.eqb (size (delete (network_key a b c d n)
                                              (routev2.rtHash e))) 0
                          then Z.land (routev2.slotMask sec) (not8 (2 ^ Z.of_nat j))
                          else routev2.slotMask sec)
                         (<[j:=routev2.mkEntry (routev2.mask e)
                                 (delete (network_key a b c d n) (routev2.rtHash e))]>
                            (routev2.rtSec sec))]> (routev2.rts rt))).
Proof.
  intros Ha Hb Hc Hd Hn Hwf i j. pose proof Hwf as (Hlen & Hsecs & Hidle & _).
  destruct (position_in_range n Hn) as [Hi Hj].
  destruct (BigEndian_ipnet4 a b c d n) as [key Hk].
  destruct (stored_key_network_address a b c d n key) as [Hkey _];
    [assumption..|lia|exact Hk|].
  fold (network_key a b c d n) in Hkey. subst key.
  destruct (index_within (routev2.rts rt) (routev2.ipID_of (routev2.maskMaxLen - n)))
    as [sec Hsec]; [lia|].
  destruct (Hsecs _ _ Hsec) as [Hes _].
  destruct (index_within (routev2.rtSec sec) (routev2.secID_of (routev2.maskMaxLen - n)))
    as [e He]; [lia|].
  assert (Hp : net.ParseCIDR (cidr4 a b c d n) = Some (ipnet4 a b c d n))
    by (apply ParseCIDR_cidr4; (assumption || lia)).
  assert (Hi' : routev2.ipID_of (routev2.maskMaxLen
                                 - (net.Size (net.Mask (ipnet4 a b c d n))).1)
                = Z.of_nat i).
  { rewrite maskLen_cidr4 by lia. subst i. symmetry. apply Z2Nat.id, Hi. }
  assert (Hj' : routev2.secID_of (routev2.maskMaxLen
                                  - (net.Size (net.Mask (ipnet4 a b c d n))).1)
                = Z.of_nat j).
  { rewrite maskLen_cidr4 by lia. subst j. symmetry. apply Z2Nat.id, Hj. }
  assert (Hj8 : (j < 8)%nat) by (subst j; lia).
  exists sec, e. split; [exact Hsec|]. split; [exact He|]. split.
  - intros v. rewrite <- (slot_bit8 j Hj8).
    exact (AddRoute_parsed_v2 rt _ v _ _ i j sec e Hp Hk Hi' Hj' Hsec He (Hidle _ _ Hsec)).
  - rewrite <- (slot_bit8 j Hj8).
    exact (DelRoute_parsed_v2 rt _ _ _ i j sec e Hp Hk Hi' Hj' Hsec He (Hidle _ _ Hsec)).
Qed.

Lemma stored_at_v2_update_same (l : list (routev2.rtSection T)) (i j : nat) sec e m w k h key :
  l !! i = Some sec -> routev2.rtSec sec !! j = Some e ->
  stored_at_v2
    (routev2.mkTable
       (<[i:=routev2.mkSection m w (<[j:=routev2.mkEntry k h]> (routev2.rtSec sec))]> l))
    i j key
  = h !! key.
Proof.
  intros Hsec He. unfold stored_at_v2. cbn [routev2.rts].
  rewrite list_lookup_insert_eq by (eapply lookup_lt_Some; exact Hsec).
  cbn [mbind option_bind routev2.rtSec].
  rewrite list_lookup_insert_eq by (eapply lookup_lt_Some; exact He).
  reflexivity.
Qed.

Lemma stored_at_v2_update_other (l : list (routev2.rtSection T)) (i j i' j' : nat)
    sec m w x key :
  l !! i = Some sec -> i <> i' \/ j <> j' ->
  stored_at_v2
    (routev2.mkTable (<[i:=routev2.mkSection m w (<[j:=x]> (routev2.rtSec sec))]> l))
    i' j' key
  = stored_at_v2 (routev2.mkTable l) i' j' key.
Proof.
  intros Hsec Hne. unfold stored_at_v2. cbn [routev2.rts].
  destruct (decide (i = i')) as [->|Hi].
  - rewrite list_lookup_insert_eq by (eapply lookup_lt_Some; exact Hsec).
    rewrite Hsec. cbn [mbind option_bind routev2.rtSec].
    rewrite list_lookup_insert_ne by (destruct Hne; congruence). reflexivity.
  - rewrite list_lookup_insert_ne by assumption. reflexivity.
Qed.

Lemma registered_v2_other rt (i j : nat) sec m w x (a b c d n a' b' c' d' n' : Z) :
  i = Z.to_nat (routev2.ipID_of (routev2.maskMaxLen - n)) ->
  j = Z.to_nat (routev2.secID_of (routev2.maskMaxLen - n)) ->
  routev2.rts rt !! i = Some sec ->
  17 <= n <= 32 -> 17 <= n' <= 32 -> n' <> n ->
  registered_v2
    (routev2.mkTable
       (<[i:=routev2.mkSection m w (<[j:=x]> (routev2.rtSec sec))]> (routev2.rts rt)))
    a' b' c' d' n'
  = registered_v2 rt a' b' c' d' n'.
Proof.
  intros -> -> Hsec Hn Hn' Hne. unfold registered_v2.
  rewrite stored_at_v2_update_other;
    [destruct rt; reflexivity|exact Hsec|].
  apply position_injective; (assumption || congruence).
Qed.

End SectionedRegistry.

Lemma set_set_bit (w : Z) (s : nat) :
  Z.testbit w (Z.of_nat s) = true -> Z.lor w (2 ^ Z.of_nat s) = w.
Proof.
  intros Hs. apply Z.bits_inj'. intros n Hn.
  rewrite Z.lor_spec, Z.pow2_bits_eqb by lia.
  destruct (Z.eqb_spec (Z.of_nat s) n) as [<-|Hne].
  - rewrite Hs. reflexivity.
  - apply orb_false_r.
Qed.

(** X15. What the sectioned [AddRoute] registers: for [A.B.C.D/N],
    [17 <= N <= 32], on a well-formed table it returns nil, the table stays
    well formed, the prefix is then registered with the value given, and
    every other prefix of length 17..32 is registered as before. *)
Theorem X15_sectioned_add_registers (T : Type) (rt : routev2.routeTable T)
    (a b c d n : Z) (v : iface T) :
  well_formed_v2 rt ->
  octet a -> octet b -> octet c -> octet d -> 17 <= n <= 32 ->
  exists rt',
    routev2.AddRoute (cidr4 a b c d n) v rt = Done (nil_error, rt')
    /\ well_formed_v2 rt'
    /\ registered_v2 rt' a b c d n = Some v
    /\ forall a' b' c' d' n',
         17 <= n' <= 32 ->
         n' <> n \/ network_key a' b' c' d' n' <> network_key a b c d n ->
         registered_v2 rt' a' b' c' d' n' = registered_v2 rt a' b' c' d' n'.
Proof.
  intros Hwf Ha Hb Hc Hd Hn.
  destruct (calls_cidr4_v2 rt a b c d n Ha Hb Hc Hd Hn Hwf)
    as (sec & e & Hsec & He & Hadd & _).
  eexists. split; [apply Hadd|].
  split; [exact (AddRoute_well_formed_v2 _ _ _ _ _ Hwf (Hadd v))|]. split.
  - unfold registered_v2. rewrite (stored_at_v2_update_same _ _ _ _ _ _ _ _ _ _ Hsec He).
    apply lookup_insert_eq.
  - intros a' b' c' d' n' Hn' Hother.
    destruct (decide (n' = n)) as [->|Hne].
    + destruct Hother as [Hx|Hkey]; [congruence|].
      unfold registered_v2.
      rewrite (stored_at_v2_update_same _ _ _ _ _ _ _ _ _ _ Hsec He).
      rewrite lookup_insert_ne by congruence.
      unfold stored_at_v2. rewrite Hsec. cbn [mbind option_bind]. rewrite He. reflexivity.
    + eapply registered_v2_other; (reflexivity || eassumption).
Qed.

Lemma X15_sectioned_add_registers_witness :
  exists rt',
    routev2.AddRoute "172.16.5.9/20" (dyn "W"%string) sample_table_v2
    = Done (nil_error, rt')
    /\ well_formed_v2 rt'
    /\ registered_v2 rt' 172 16 5 9 20 = Some (dyn "W"%string)
    /\ forall a' b' c' d' n',
         17 <= n' <= 32 ->
         n' <> 20 \/ network_key a' b' c' d' n' <> network_key 172 16 5 9 20 ->
         registered_v2 rt' a' b' c' d' n' = registered_v2 sample_table_v2 a' b' c' d' n'.
Proof.
  apply (X15_sectioned_add_registers string sample_table_v2 172 16 5 9 20 (dyn "W"%string));
    first [ exact sample_table_v2_well_formed | unfold octet; lia | lia ].
Defined.

(** X16. What the sectioned [DelRoute] removes: for [A.B.C.D/N],
    [17 <= N <= 32], on a well-formed table it returns nil, the table stays
    well formed, the prefix is no longer registered, and every other prefix
    of length 17..32 is registered as before. *)
Theorem X16_sectioned_delete_unregisters (T : Type) (rt : routev2.routeTable T)
    (a b c d n : Z) :
  well_formed_v2 rt ->
  octet a -> octet b -> octet c -> octet d -> 17 <= n <= 32 ->
  exists rt',
    routev2.DelRoute (cidr4 a b c d n) rt = Done (nil_error, rt')
    /\ well_formed_v2 rt'
    /\ registered_v2 rt' a b c d n = None
    /\ forall a' b' c' d' n',
         17 <= n' <= 32 ->
         n' <> n \/ network_key a' b' c' d' n' <> network_key a b c d n ->
         registered_v2 rt' a' b' c' d' n' = registered_v2 rt a' b' c' d' n'.
Proof.
  intros Hwf Ha Hb Hc Hd Hn.
  destruct (calls_cidr4_v2 rt a b c d n Ha Hb Hc Hd Hn Hwf)
    as (sec & e & Hsec & He & _ & Hdel).
  eexists. split; [exact Hdel|].
  split; [exact (DelRoute_well_formed_v2 _ _ _ _ Hwf Hdel)|]. split.
  - unfold registered_v2. rewrite (stored_at_v2_update_same _ _ _ _ _ _ _ _ _ _ Hsec He).
    apply lookup_delete_eq.
  - intros a' b' c' d' n' Hn' Hother.
    destruct (decide (n' = n)) as [->|Hne].
    + destruct Hother as [Hx|Hkey]; [congruence|].
      unfold registered_v2.
      rewrite (stored_at_v2_update_same _ _ _ _ _ _ _ _ _ _ Hsec He).
      rewrite lookup_delete_ne by congruence.
      unfold stored_at_v2. rewrite Hsec. cbn [mbind option_bind]. rewrite He. reflexivity.
    + eapply registered_v2_other; (reflexivity || eassumption).
Qed.

Lemma X16_sectioned_delete_unregisters_witness :
  exists rt',
    routev2.DelRoute "10.0.0.77/32" sample_table_v2 = Done (nil_error, rt')
    /\ well_formed_v2 rt'
    /\ registered_v2 rt' 10 0 0 77 32 = None
    /\ forall a' b' c' d' n',
         17 <= n' <= 32 ->
         n' <> 32 \/ network_key a' b' c' d' n' <> network_key 10 0 0 77 32 ->
         registered_v2 rt' a' b' c' d' n' = registered_v2 sample_table_v2 a' b' c' d' n'.
Proof.
  apply (X16_sectioned_delete_unregisters string sample_table_v2 10 0 0 77 32);
    first [ exact sample_table_v2_well_formed | unfold octet; lia | lia ].
Defined.

(** X17. Adding a prefix that is not registered and deleting it again gives
    the sectioned table back: for [A.B.C.D/N], [17 <= N <= 32], on a
    well-formed table, both calls return nil and the table, occupancy words
    included, is the one before the two calls. *)
Theorem X17_sectioned_add_then_delete (T : Type) (rt : routev2.routeTable T)
    (a b c d n : Z) (v : iface T) :
  well_formed_v2 rt ->
  octet a -> octet b -> octet c -> octet d -> 17 <= n <= 32 ->
  registered_v2 rt a b c d n = None ->
  (do e <- routev2.AddRoute (cidr4 a b c d n) v;
   do e' <- routev2.DelRoute (cidr4 a b c d n);
   ret (e, e')) rt
  = Done ((nil_error, nil_error), rt).
Proof.
  intros Hwf Ha Hb Hc Hd Hn Hreg. pose proof Hwf as (Hlen & Hsecs & Hidle & Hocc).
  destruct (calls_cidr4_v2 rt a b c d n Ha Hb Hc Hd Hn Hwf)
    as (sec & e & Hsec & He & Hadd & _).
  pose proof (AddRoute_well_formed_v2 _ _ _ _ _ Hwf (Hadd v)) as Hwf1.
  erewrite bind_Done by apply Hadd.
  destruct (calls_cidr4_v2 _ a b c d n Ha Hb Hc Hd Hn Hwf1)
    as (sec1 & e1 & Hsec1 & He1 & _ & Hdel).
  cbn [routev2.rts] in Hsec1.
  rewrite list_lookup_insert_eq in Hsec1 by (eapply lookup_lt_Some; exact Hsec).
  injection Hsec1 as <-. cbn [routev2.rtSec] in He1.
  rewrite list_lookup_insert_eq in He1 by (eapply lookup_lt_Some; exact He).
  injection He1 as <-.
  erewrite bind_Done by exact Hdel. unfold ret.
  cbn [routev2.rts routev2.slotMask routev2.rtSec routev2.rtHash routev2.mask].
  unfold registered_v2, stored_at_v2 in Hreg. rewrite Hsec in Hreg.
  cbn [mbind option_bind] in Hreg. rewrite He in Hreg. cbn [mbind option_bind] in Hreg.
  rewrite delete_insert_id by exact Hreg.
  rewrite !list_insert_insert_eq.
  destruct (Hsecs _ _ Hsec) as [Hes Hw].
  pose proof (lookup_lt_Some _ _ _ He) as Hj8. rewrite Hes in Hj8.
  pose proof (Hocc _ _ _ _ Hsec He) as Hbit.
  pose proof (Hidle _ _ Hsec) as Hz.
  destruct rt as [l]. destruct sec as [m w es]. destruct e as [ek eh].
  cbn [routev2.rts routev2.mu routev2.slotMask routev2.rtSec routev2.mask
       routev2.rtHash] in *. subst m.
  rewrite (list_insert_id es) by exact He.
  set (j := Z.to_nat (routev2.secID_of (routev2.maskMaxLen - n))) in *.
  assert (Hw' : (if Nat.eqb (size eh) 0
                 then Z.land (Z.lor w (2 ^ Z.of_nat j)) (not8 (2 ^ Z.of_nat j))
                 else Z.lor w (2 ^ Z.of_nat j)) = w).
  { destruct (Nat.eqb_spec (size eh) 0) as [Hzero|Hnz].
    - apply map_size_empty_iff in Hzero. unfold not8.
      apply (clear_set_bit _ 8); [reflexivity|exact Hw|exact Hj8|].
      destruct (Z.testbit w (Z.of_nat j)) eqn:Hwj; [|reflexivity].
      exfalso. apply (proj1 Hbit eq_refl). exact Hzero.
    - apply set_set_bit. apply Hbit. intros Hempty. apply Hnz.
      rewrite Hempty. apply map_size_empty. }
  rewrite Hw'. rewrite list_insert_id by exact Hsec. reflexivity.
Qed.

Lemma X17_sectioned_add_then_delete_witness :
  (do e <- routev2.AddRoute "172.16.5.9/20" (dyn "W"%string);
   do e' <- routev2.DelRoute "172.16.5.9/20";
   ret (e, e')) sample_table_v2
  = Done ((nil_error, nil_error), sample_table_v2).
Proof.
  apply (X17_sectioned_add_then_delete string sample_table_v2 172 16 5 9 20
           (dyn "W"%string));
    first [ exact sample_table_v2_well_formed | unfold octet; lia | lia
          | vm_compute; reflexivity ].
Defined.

(** ** Overwriting in the sectioned table; deleting what is not registered *)

(** X18. Adding the same network twice overwrites in the sectioned table as
    well: on a well-formed table, the table after [AddRoute(s, v1)] followed
    by [AddRoute(s, v2)] is the table after [AddRoute(s, v2)] alone, for
    every string [s]. *)
Theorem X18_sectioned_add_overwrites (T : Type) (rt rt1 rt2 : routev2.routeTable T)
    (s : string) (v1 v2 : iface T) (e1 e2 : error) :
  well_formed_v2 rt ->
  routev2.AddRoute s v1 rt = Done (e1, rt1) ->
  routev2.AddRoute s v2 rt1 = Done (e2, rt2) ->
  routev2.AddRoute s v2 rt = Done (e2, rt2).
Proof.
  intros Hwf H1 H2. pose proof Hwf as (Hlen & Hsecs & Hidle & _).
  destruct (AddRoute_returns_v2 _ _ _ _ _ Hidle H1)
    as [(_ & _ & ->)
       |(ipnet & key & i & j & sec & e & Hp & Hk & Hi & Hj & Hsec & He & _ & ->)];
    [exact H2|].
  erewrite AddRoute_parsed_v2 in H2;
    [|exact Hp|exact Hk|exact Hi|exact Hj
     |cbn [routev2.rts]; apply list_lookup_insert_eq; eapply lookup_lt_Some; exact Hsec
     |cbn [routev2.rtSec]; apply list_lookup_insert_eq; eapply lookup_lt_Some; exact He
     |reflexivity].
  cbn [routev2.rts routev2.slotMask routev2.rtSec routev2.rtHash routev2.mask] in H2.
  rewrite insert_insert_eq, !list_insert_insert_eq in H2.
  rewrite <- Z.lor_assoc, Z.lor_diag in H2.
  injection H2 as <- <-.
  apply (AddRoute_parsed_v2 _ _ _ _ _ _ _ _ _ Hp Hk Hi Hj Hsec He (Hidle _ _ Hsec)).
Qed.

Lemma X18_sectioned_add_overwrites_witness :
  routev2.AddRoute "10.0.0.77/32" (dyn "W"%string) sample_table_v2
  = Done (nil_error,
          table_after_v2 (sample_calls_v2 ++ [Add "10.0.0.77/32" (dyn "U"%string);
                                              Add "10.0.0.77/32" (dyn "W"%string)])).
Proof.
  apply (X18_sectioned_add_overwrites string sample_table_v2
           (table_after_v2 (sample_calls_v2 ++ [Add "10.0.0.77/32" (dyn "U"%string)]))
           _ "10.0.0.77/32" (dyn "U"%string) (dyn "W"%string) nil_error nil_error).
  - exact sample_table_v2_well_formed.
  - vm_compute. reflexivity.
  - vm_compute. reflexivity.
Defined.

(** X19. Deleting a prefix that is not registered is a no-op where its slot
    exists: for [A.B.C.D/N], [1 <= N <= 32], not registered in a well-formed
    flat table, [DelRoute] returns nil and the table, occupancy word
    included, is the one before the call. *)
Theorem X19_flat_delete_unregistered_noop (T : Type) (rt : route.routeTable T)
    (a b c d n : Z) :
  well_formed rt ->
  octet a -> octet b -> octet c -> octet d -> 1 <= n <= 32 ->
  registered rt a b c d n = None ->
  route.DelRoute (cidr4 a b c d n) rt = Done (nil_error, rt).
Proof.
  intros Hwf Ha Hb Hc Hd Hn Hreg. pose proof Hwf as (Hlen & Hidle & _).
  destruct (BigEndian_ipnet4 a b c d n) as [key Hk].
  destruct (stored_key_network_address a b c d n key) as [Hkey _];
    [assumption..|lia|exact Hk|].
  fold (network_key a b c d n) in Hkey. subst key.
  destruct (index_within (route.rts rt) (32 - n)) as [e He]; [lia|].
  unfold registered in Hreg. change route.maskMaxLen with 32 in Hreg.
  rewrite He in Hreg. cbn [mbind option_bind] in Hreg.
  eapply DelRoute_absent_unchanged;
    [exact Hwf|apply ParseCIDR_cidr4; (assumption || lia)|exact Hk| |exact He|exact Hreg].
  rewrite maskLen_cidr4 by lia. unfold route.maskMaxLen. lia.
Qed.

Lemma X19_flat_delete_unregistered_witness :
  route.DelRoute "10.0.0.0/24" sample_table = Done (nil_error, sample_table).
Proof.
  apply (X19_flat_delete_unregistered_noop string sample_table 10 0 0 0 24);
    first [ exact (proj1 sample_table_kept) | unfold octet; lia | lia
          | vm_compute; reflexivity ].
Defined.

(** X20. The same in the sectioned table: for [A.B.C.D/N], [17 <= N <= 32],
    not registered in a well-formed table, [DelRoute] returns nil and the
    table, occupancy words included, is the one before the call. *)
Theorem X20_sectioned_delete_unregistered_noop (T : Type) (rt : routev2.routeTable T)
    (a b c d n : Z) :
  well_formed_v2 rt ->
  octet a -> octet b -> octet c -> octet d -> 17 <= n <= 32 ->
  registered_v2 rt a b c d n = None ->
  routev2.DelRoute (cidr4 a b c d n) rt = Done (nil_error, rt).
Proof.
  intros Hwf Ha Hb Hc Hd Hn Hreg. pose proof Hwf as (Hlen & Hsecs & Hidle & _).
  destruct (position_in_range n Hn) as [Hi Hj].
  destruct (BigEndian_ipnet4 a b c d n) as [key Hk].
  destruct (stored_key_network_address a b c d n key) as [Hkey _];
    [assumption..|lia|exact Hk|].
  fold (network_key a b c d n) in Hkey. subst key.
  destruct (index_within (routev2.rts rt) (routev2.ipID_of (routev2.maskMaxLen - n)))
    as [sec Hsec]; [lia|].
  destruct (Hsecs _ _ Hsec) as [Hes _].
  destruct (index_within (routev2.rtSec sec) (routev2.secID_of (routev2.maskMaxLen - n)))
    as [e He]; [lia|].
  unfold registered_v2, stored_at_v2 in Hreg. rewrite Hsec in Hreg.
  cbn [mbind option_bind] in Hreg. rewrite He in Hreg. cbn [mbind option_bind] in Hreg.
  eapply DelRoute_absent_unchanged_v2;
    [exact Hwf|apply ParseCIDR_cidr4; (assumption || lia)|exact Hk| | |exact Hsec|exact He
    |exact Hreg].
  - rewrite maskLen_cidr4 by lia. symmetry. apply Z2Nat.id, Hi.
  - rewrite maskLen_cidr4 by lia. symmetry. apply Z2Nat.id, Hj.
Qed.

Lemma X20_sectioned_delete_unregistered_witness :
  routev2.DelRoute "10.0.0.0/24" sample_table_v2 = Done (nil_error, sample_table_v2).
Proof.
  apply (X20_sectioned_delete_unregistered_noop string sample_table_v2 10 0 0 0 24);
    first [ exact sample_table_v2_well_formed | unfold octet; lia | lia
          | vm_compute; reflexivity ].
Defined.
